(** * RESTv2 request pipeline of bfx-api-node-rest: a shallow embedding

    The development follows [src/rest2.ts] (the [RESTv2] class): the
    JavaScript values the client handles, the small part of the language
    runtime the code relies on (truthiness, property keys and their
    enumeration order, [typeof], [Array.isArray]), then the client itself:
    constructor validation, the authenticated request builder, the fetch /
    classify / transform / callback pipeline and the currency-list merger.

    Platform services the repository does not implement ([JSON.parse],
    [JSON.stringify], [Number::toString], the [nonce] and [genAuthSig]
    helpers of bfx-api-node-util, [globalThis.fetch], [AbortSignal.timeout])
    are section variables: every result holds for any behaviour of theirs. *)

From Stdlib Require Import ZArith NArith QArith Qround String Ascii List Lia.
From Stdlib Require Import DecimalString Permutation.
From stdpp Require Import base option numbers list sorting.

Import ListNotations.
Set Warnings "-register-all".
Local Open Scope list_scope.
Local Open Scope string_scope.

(** ** JavaScript values *)

Module Js.

(** A JS number: a finite value, kept as the rational it denotes (every
    double is one; [-0] and [0] coincide), or one of the three specials. *)
Inductive number : Type :=
| Finite (q : Q)
| NaN
| PosInfinity
| NegInfinity.

(** The JSON-shaped values that flow through the client. An object keeps
    its own properties in creation order, one entry per key; what a plain
    object inherits from [Object.prototype] (a key such as "constructor")
    is not modelled. *)
Inductive JsVal : Type :=
| JUndefined
| JNull
| JBool (b : bool)
| JNum (n : number)
| JStr (s : string)
| JArr (elems : list JsVal)
| JObj (props : list (string * JsVal)).

Definition Obj : Type := list (string * JsVal).

Definition num_of_Z (z : Z) : JsVal := JNum (Finite (inject_Z z)).

(** [Number.isInteger(v)]: false for every non-number. *)
Definition Number_isInteger (v : JsVal) : bool :=
  match v with
  | JNum (Finite q) => Qeq_bool q (inject_Z (Qfloor q))
  | _ => false
  end.

(** [v == null] *)
Definition is_nil (v : JsVal) : bool :=
  match v with
  | JUndefined | JNull => true
  | _ => false
  end.

(** ToBoolean *)
Definition truthy (v : JsVal) : bool :=
  match v with
  | JUndefined | JNull => false
  | JBool b => b
  | JNum (Finite q) => negb (Qeq_bool q 0)
  | JNum NaN => false
  | JNum _ => true
  | JStr s => negb (s =? "")
  | JArr _ | JObj _ => true
  end.

(** [a || b] *)
Definition or_else (a b : JsVal) : JsVal := if truthy a then a else b.

Definition Array_isArray (v : JsVal) : bool :=
  match v with
  | JArr _ => true
  | _ => false
  end.

(** [v === z] for an integer literal [z] *)
Definition strict_eq_int (v : JsVal) (z : Z) : bool :=
  match v with
  | JNum (Finite q) => Qeq_bool q (inject_Z z)
  | _ => false
  end.

(** The elements of an array value (none for anything else). *)
Definition elems (v : JsVal) : list JsVal :=
  match v with
  | JArr l => l
  | _ => []
  end.

(** [arr[i]] on an array: [undefined] past the end. *)
Definition index (l : list JsVal) (i : nat) : JsVal := nth i l JUndefined.

(** [s || d] on strings: the empty string is falsy. *)
Definition str_or (s d : string) : string := if s =? "" then d else s.

(** [o || d] on an optional string property. *)
Definition opt_str_or (o : option string) (d : string) : string :=
  match o with
  | Some s => str_or s d
  | None => d
  end.

(** Decimal rendering of a natural number, as [String(n)] gives it. *)
Definition string_of_N (n : N) : string := NilZero.string_of_uint (N.to_uint n).

(** ** Property keys *)

Section PropertyKeys.

(** [Number::toString], left to the platform. *)
Variable Number_toString : number -> string.

(** ToString on a value, which is what a computed member access
    [obj[v]] applies to [v]: arrays join their elements with commas (a
    nil element renders empty), plain objects give the fixed tag. *)
Fixpoint ToString (v : JsVal) : string :=
  match v with
  | JUndefined => "undefined"
  | JNull => "null"
  | JBool true => "true"
  | JBool false => "false"
  | JNum n => Number_toString n
  | JStr s => s
  | JArr l =>
      String.concat ","
        (map (fun x => if is_nil x then "" else ToString x) l)
  | JObj _ => "[object Object]"
  end.

End PropertyKeys.

(** A key is an array index when it is the canonical decimal rendering of
    an integer below 2^32 - 1. *)
Definition array_index (k : string) : option N :=
  match NilEmpty.uint_of_string k with
  | Some d =>
      let n := N.of_uint d in
      if (string_of_N n =? k) && (n <? 4294967295)%N then Some n else None
  | None => None
  end.

Definition is_array_index (k : string) : bool :=
  match array_index k with
  | Some _ => true
  | None => false
  end.

(** ** Objects as ordered property stores *)

(** Objects are described by their own properties. Every object the
    client builds or parses has [Object.prototype] as its prototype, so a
    member access [o[k]] with a name of [OBJECT_PROTOTYPE_KEYS] that [o]
    does not own reads an inherited member, and [o["__proto__"] = v]
    creates no property; [obj_get] and [obj_set] describe member access
    for every other name, and the statements on objects keyed by exchange
    data are made for such names. *)
Definition OBJECT_PROTOTYPE_KEYS : list string :=
  ["constructor"; "__defineGetter__"; "__defineSetter__"; "hasOwnProperty";
   "__lookupGetter__"; "__lookupSetter__"; "isPrototypeOf";
   "propertyIsEnumerable"; "toString"; "valueOf"; "__proto__";
   "toLocaleString"].

(** [k in Object.prototype] *)
Definition inherited (k : string) : bool :=
  existsb (String.eqb k) OBJECT_PROTOTYPE_KEYS.

(** own property lookup *)
Fixpoint obj_lookup (k : string) (o : Obj) : option JsVal :=
  match o with
  | [] => None
  | (k', v) :: o' => if k' =? k then Some v else obj_lookup k o'
  end.

(** [o[k]], for a name [k] that [o] owns or does not inherit *)
Definition obj_get (k : string) (o : Obj) : JsVal :=
  match obj_lookup k o with
  | Some v => v
  | None => JUndefined
  end.

(** [o[k] = v], for [k] other than ["__proto__"]: an existing key keeps
    its place, a new one is created last. *)
Fixpoint obj_set (k : string) (v : JsVal) (o : Obj) : Obj :=
  match o with
  | [] => [(k, v)]
  | (k', v') :: o' =>
      if k' =? k then (k, v) :: o' else (k', v') :: obj_set k v o'
  end.

Definition created_keys (o : Obj) : list string := map fst o.

(** [Object.keys(o)], in the order the language fixes for own property
    keys (ECMAScript, OrdinaryOwnPropertyKeys): array-index keys first, in
    ascending numeric order, then every other key in creation order. So
    [Object.keys({ b: 0, 1: 0 })] is [["1", "b"]]. *)
Definition Object_keys (o : Obj) : list string :=
  (map string_of_N (merge_sort N.le (omap array_index (created_keys o)))
   ++ List.filter (fun k => negb (is_array_index k)) (created_keys o))%list.

(** [Object.entries(o)] *)
Definition Object_entries (o : Obj) : list (string * JsVal) :=
  map (fun k => (k, obj_get k o)) (Object_keys o).

(** Successive property assignments [o[k] = v], one per entry. *)
Definition assign_all (es : list (string * JsVal)) (o : Obj) : Obj :=
  fold_left (fun o e => obj_set (fst e) (snd e) o) es o.

(** [Object.fromEntries(es)] *)
Definition Object_fromEntries (es : list (string * JsVal)) : Obj :=
  assign_all es [].

(** [{ ...target, ...src }]: the literal built so far receives the own
    entries of [src]. *)
Definition spread_into (target src : Obj) : Obj :=
  assign_all (Object_entries src) target.

(** [s.includes(sub)] *)
Fixpoint includes (s sub : string) : bool :=
  String.prefix sub s ||
  match s with
  | EmptyString => false
  | String _ s' => includes s' sub
  end.

End Js.

Import Js.

(** ** Errors, completions and promises *)

(** A primitive value: what is neither an array nor an object. *)
Inductive Primitive : Type :=
| PUndefined
| PNull
| PBool (b : bool)
| PNum (n : number)
| PStr (s : string).

Definition primitive_value (p : Primitive) : JsVal :=
  match p with
  | PUndefined => JUndefined
  | PNull => JNull
  | PBool b => JBool b
  | PNum n => JNum n
  | PStr s => JStr s
  end.

(** A thrown value, or the reason of a rejected promise; the [as Error]
    casts of the source are erased at run time, so it can be anything.
    It is an object, kept as the properties the client reads or writes of
    it ([message], the four that [_apiError] attaches, and the [error]
    property that [_cb] inspects, [undefined] when the object has none),
    or it is a primitive ([undefined], [null], a boolean, a number, a
    string), kept as it is. *)
Inductive JsError : Type :=
| mkError (message : string) (status : option N) (statustext : option string)
          (code : option JsVal) (response : option JsVal) (error : JsVal)
| ThrownPrimitive (p : Primitive).

(** The properties of a thrown object. Of a primitive the client reads
    [error] only, which the language gives as [undefined]; the others are
    never read of one and are given as empty. *)
Definition message (e : JsError) : string :=
  match e with
  | mkError m _ _ _ _ _ => m
  | ThrownPrimitive _ => ""
  end.

Definition status (e : JsError) : option N :=
  match e with
  | mkError _ st _ _ _ _ => st
  | ThrownPrimitive _ => None
  end.

Definition statustext (e : JsError) : option string :=
  match e with
  | mkError _ _ stt _ _ _ => stt
  | ThrownPrimitive _ => None
  end.

Definition code (e : JsError) : option JsVal :=
  match e with
  | mkError _ _ _ c _ _ => c
  | ThrownPrimitive _ => None
  end.

Definition response (e : JsError) : option JsVal :=
  match e with
  | mkError _ _ _ _ r _ => r
  | ThrownPrimitive _ => None
  end.

Definition error (e : JsError) : JsVal :=
  match e with
  | mkError _ _ _ _ _ er => er
  | ThrownPrimitive _ => JUndefined
  end.

(** [new Error(msg)] *)
Definition Error (msg : string) : JsError :=
  mkError msg None None None None JUndefined.

(** [e.message = msg], on an object. *)
Definition set_message (e : JsError) (msg : string) : JsError :=
  match e with
  | mkError _ st stt c r er => mkError msg st stt c r er
  | ThrownPrimitive _ => e
  end.

(** ToBoolean of a thrown value, the test of [if (err)]: an object is
    truthy, a primitive is as its value is. *)
Definition truthy_thrown (e : JsError) : bool :=
  match e with
  | mkError _ _ _ _ _ _ => true
  | ThrownPrimitive p => truthy (primitive_value p)
  end.

(** The outcome of evaluating an expression: a value, or a thrown error. *)
Inductive Completion (A : Type) : Type :=
| Normal (a : A)
| Throw (e : JsError).
Arguments Normal {A} a.
Arguments Throw {A} e.

(** A settled promise. *)
Inductive Promise : Type :=
| Resolved (v : JsVal)
| Rejected (e : JsError).

(** What a function of the pipeline hands back: a plain value or a promise. *)
Inductive Returned : Type :=
| Plain (v : JsVal)
| Promised (p : Promise).

(** The promise of an [async] function whose body completed with [c]: a
    returned promise is adopted, a throw rejects. *)
Definition settle (c : Completion Returned) : Promise :=
  match c with
  | Normal (Plain v) => Resolved v
  | Normal (Promised p) => p
  | Throw e => Rejected e
  end.

(** ** Transport and callbacks *)

(** A signal made by [AbortSignal.timeout(ms)]. *)
Inductive AbortSignal : Type :=
| TimeoutSignal (ms : number).

(** The [RequestInit] the client builds. *)
Record RequestInit : Type := mkRequestInit {
  method : string;
  signal : AbortSignal;
  headers : list (string * string);
  body : option string
}.

(** The part of a fetch [Response] the pipeline reads. Reading the body can
    fail (the promise of [text()] rejects). *)
Record Response : Type := mkResponse {
  resp_status : N;
  resp_statusText : string;
  resp_ok : bool;
  resp_text : Completion string
}.

(** An injected transport. A rejected fetch promise surfaces, under
    [await], as a throw. *)
Definition FetchFn : Type := string -> RequestInit -> Completion Response.

(** A Node-style callback [(err, res) => ...]: user code, which may return
    anything (a promise included) or throw. *)
Definition CallbackFn : Type := option JsError -> JsVal -> Completion Returned.

(** The [cb] argument: a function, or anything else ([null], [undefined],
    a stray value), told apart by [typeof cb === 'function']. *)
Inductive CallbackArg : Type :=
| CbFunction (f : CallbackFn)
| CbOther (v : JsVal).

(** What a call does to the outside world, in order. *)
Inductive Event : Type :=
| NonceDrawn (n : string)
| Signed (secret payload : string)
| Fetched (url : string) (opts : RequestInit)
| CallbackInvoked (err : option JsError) (res : JsVal).

Definition is_fetch (ev : Event) : bool :=
  match ev with
  | Fetched _ _ => true
  | _ => false
  end.

Definition sign_call (ev : Event) : option (string * string) :=
  match ev with
  | Signed secret payload => Some (secret, payload)
  | _ => None
  end.

Definition callback_call (ev : Event) : option (option JsError * JsVal) :=
  match ev with
  | CallbackInvoked err res => Some (err, res)
  | _ => None
  end.

(** ** The effect monad: nonce state, event trace, exceptions *)

Section Effects.

Variable NonceState : Type.

Definition Eff (A : Type) : Type :=
  NonceState -> Completion A * NonceState * list Event.

Definition ret {A} (a : A) : Eff A := fun s => (Normal a, s, []).

Definition throw {A} (e : JsError) : Eff A := fun s => (Throw e, s, []).

Definition bind {A B} (m : Eff A) (f : A -> Eff B) : Eff B :=
  fun s =>
    match m s with
    | (Normal a, s1, t1) =>
        match f a s1 with
        | (r, s2, t2) => (r, s2, (t1 ++ t2)%list)
        end
    | (Throw e, s1, t1) => (Throw e, s1, t1)
    end.

(** [try { m } catch (e) { h e }] *)
Definition try_catch {A} (m : Eff A) (h : JsError -> Eff A) : Eff A :=
  fun s =>
    match m s with
    | (Normal a, s1, t1) => (Normal a, s1, t1)
    | (Throw e, s1, t1) =>
        match h e s1 with
        | (r, s2, t2) => (r, s2, (t1 ++ t2)%list)
        end
    end.

Definition lift {A} (c : Completion A) : Eff A := fun s => (c, s, []).

Definition emit (ev : Event) : Eff unit := fun s => (Normal tt, s, [ev]).

(** A call of an [async] function: its promise, the state and the trace. *)
Definition Async : Type := NonceState -> Promise * NonceState * list Event.

Definition async (body : Eff Returned) : Async :=
  fun s =>
    match body s with
    | (c, s1, t) => (settle c, s1, t)
    end.

(** Calling an [async] function from within another body. *)
Definition call_async (a : Async) : Eff Returned :=
  fun s =>
    match a s with
    | (p, s1, t) => (Normal (Promised p), s1, t)
    end.

End Effects.

Arguments ret {NonceState A} a.
Arguments throw {NonceState A} e.
Arguments bind {NonceState A B} m f.
Arguments try_catch {NonceState A} m h.
Arguments lift {NonceState A} c.
Arguments emit {NonceState} ev.
Arguments async {NonceState} body.
Arguments call_async {NonceState} a.

Declare Scope eff_scope.
Delimit Scope eff_scope with eff.
Notation "'let*' x ':=' m 'in' f" := (bind m (fun x => f))
  (at level 10, x name, m at level 100, f at level 200) : eff_scope.

Definition promise_of {S} (r : Promise * S * list Event) : Promise := fst (fst r).
Definition trace_of {S} (r : Promise * S * list Event) : list Event := snd r.

(** ** The client *)

Definition BASE_TIMEOUT : number := Finite 15000.
Definition API_URL : string := "https://api.bitfinex.com".

(** [omitNil]: keep the entries whose value is neither [null] nor
    [undefined], rebuilt into a fresh object. *)
Definition omitNil (obj : Obj) : Obj :=
  Object_fromEntries
    (List.filter (fun e => negb (is_nil (snd e))) (Object_entries obj)).

(** [RESTv2Options]; an absent property is [None] ([undefined] for the two
    untyped ones). [timeout] is kept as a raw value: the constructor is the
    one that checks it. *)
Record RESTv2Options : Type := mkOptions {
  affCode : JsVal;
  apiKey : option string;
  apiSecret : option string;
  authToken : option string;
  company : option string;
  url : option string;
  transform : option bool;
  timeout : JsVal;
  fetch : option FetchFn
}.

(** [{}] *)
Definition no_options : RESTv2Options :=
  mkOptions JUndefined None None None None None None JUndefined None.

(** The private fields of a [RESTv2] instance. *)
Record RESTv2 : Type := mkRESTv2 {
  _url : string;
  _apiKey : string;
  _apiSecret : string;
  _authToken : string;
  _company : string;
  _transform : bool;
  _timeout : number;
  _affCode : JsVal;
  _fetch : FetchFn
}.

(** A response transformer: [null], a model class (called with [new], the
    row and the client), or a plain function. The tag is what [isClass]
    of bfx-api-node-util and [typeof] tell apart at run time. *)
Inductive Transformer : Type :=
| TNull
| TClass (construct : JsVal -> RESTv2 -> Completion JsVal)
| TFunction (apply : JsVal -> Completion JsVal).

(** The client with another transport in place of its own. *)
Definition set_fetch (self : RESTv2) (transport : FetchFn) : RESTv2 :=
  mkRESTv2 (_url self) (_apiKey self) (_apiSecret self) (_authToken self)
    (_company self) (_transform self) (_timeout self) (_affCode self) transport.

(** [_checkOpts] *)
Definition _checkOpts (opts : RESTv2Options) : Completion unit :=
  if negb (is_nil (timeout opts)) && negb (Number_isInteger (timeout opts))
  then Throw (Error "ERR_TIMEOUT_DATA_TYPE_ERROR")
  else Normal tt.

(** [arr.map(f)] with a callback that may throw: the first throw aborts. *)
Fixpoint map_completion {A B} (f : A -> Completion B) (l : list A)
  : Completion (list B) :=
  match l with
  | [] => Normal []
  | x :: l' =>
      match f x with
      | Throw e => Throw e
      | Normal y =>
          match map_completion f l' with
          | Throw e => Throw e
          | Normal ys => Normal (y :: ys)
          end
      end
  end.

Definition cbind {A B} (c : Completion A) (f : A -> Completion B)
  : Completion B :=
  match c with
  | Normal a => f a
  | Throw e => Throw e
  end.

Declare Scope completion_scope.
Delimit Scope completion_scope with completion.
Notation "'let?' x ':=' c 'in' f" := (cbind c (fun x => f))
  (at level 10, x name, c at level 100, f at level 200) : completion_scope.

Definition HELP_TEXT : string :=
  " see https://github.com/bitfinexcom/bitfinex-api-node/blob/master/README.md#nonce-too-small for help".

Definition HELP_LINK : string :=
  "https://github.com/bitfinexcom/bitfinex-api-node/blob/master/README.md#nonce-too-small".

Section Client.

(** *** Platform services *)

Variable globalThis_fetch : FetchFn.
(** [JSON.parse]: the parsed value, or a thrown [SyntaxError]. *)
Variable JSON_parse : string -> Completion JsVal.
Variable JSON_stringify : JsVal -> string.
Variable Number_toString : number -> string.
(** [AbortSignal.timeout]: throws on a delay it does not accept. *)
Variable AbortSignal_timeout : number -> Completion AbortSignal.
(** bfx-api-node-util: a stateful nonce source and the HMAC signer. The
    nonce is kept as the text the client makes of it, a template string
    and a header value being its only uses here. The signer shares the
    state of the nonce source (the record it returns carries a nonce of
    its own), so it is a state transformer too; the client reads the
    [sig] field of its result only. *)
Variable NonceState : Type.
Variable nonce : NonceState -> string * NonceState.
Variable genAuthSig : string -> string -> NonceState -> string * NonceState.

Local Open Scope eff_scope.
Local Abbreviation Eff := (Eff NonceState).
Local Abbreviation Async := (Async NonceState).

(** *** Construction *)

(** [constructor (opts = {})] *)
Definition new_RESTv2 (opts : RESTv2Options) : Completion RESTv2 :=
  match _checkOpts opts with
  | Throw e => Throw e
  | Normal _ =>
      Normal {|
        _url := opt_str_or (url opts) API_URL;
        _apiKey := opt_str_or (apiKey opts) "";
        _apiSecret := opt_str_or (apiSecret opts) "";
        _authToken := opt_str_or (authToken opts) "";
        _company := opt_str_or (company opts) "";
        _transform := match transform opts with Some b => b | None => false end;
        _affCode := affCode opts;
        _timeout :=
          match timeout opts with
          | JNum n => if Number_isInteger (JNum n) then n else BASE_TIMEOUT
          | _ => BASE_TIMEOUT
          end;
        _fetch := match fetch opts with Some f => f | None => globalThis_fetch end
      |}
  end.

(** *** Error classification *)

Definition _apiError (resp : Response) (rawBody : string) : JsError :=
  let msg :=
    "HTTP code " ++ string_of_N (resp_status resp) ++ " "
    ++ str_or (resp_statusText resp) "" in
  let st := Some (resp_status resp) in
  let stt := Some (resp_statusText resp) in
  match JSON_parse rawBody with
  | Normal parsed =>
      if Array_isArray parsed && (3 <=? length (elems parsed))%nat
      then mkError msg st stt (Some (index (elems parsed) 1))
                   (Some (index (elems parsed) 2)) JUndefined
      else mkError msg st stt None (Some parsed) JUndefined
  | Throw _ => mkError msg st stt None (Some (JStr rawBody)) JUndefined
  end.

(** *** Completion: callback or promise *)

(** [errRecord.error && Array.isArray(errRecord.error) &&
    errRecord.error[1] === 10114] *)
Definition nonce_too_small (err : JsError) : bool :=
  truthy (error err) && Array_isArray (error err)
  && strict_eq_int (index (elems (error err)) 1) 10114.

Definition invoke (f : CallbackFn) (err : option JsError) (res : JsVal)
  : Eff Returned :=
  let* _ := emit (CallbackInvoked err res) in lift (f err res).

(** The message update [_cb] applies to an error before handing it on. *)
Definition enrich (err : JsError) : JsError :=
  if nonce_too_small err
  then set_message err (message err ++ HELP_TEXT)
  else err.

(** [_cb]: the error branch is taken on a truthy [err] only, so a falsy
    thrown value ([undefined], [null], [0], the empty string, [false],
    [NaN]) is handed on like [null]: as a success. *)
Definition _cb (err : option JsError) (res : JsVal) (cb : CallbackArg)
  : Eff Returned :=
  let success :=
    match cb with
    | CbFunction f => invoke f None res
    | CbOther _ => ret (Promised (Resolved res))
    end in
  match err with
  | Some err =>
      if truthy_thrown err
      then
        let err := enrich err in
        match cb with
        | CbFunction f => invoke f (Some err) JUndefined
        | CbOther _ => ret (Promised (Rejected err))
        end
      else success
  | None => success
  end.

(** *** Response transformation *)

(** [ModelClass] is a class here, hence truthy: of the guard
    [!ModelClass || !this._transform] the second test is the live one. *)
Definition _classTransform (self : RESTv2) (data : JsVal)
    (ModelClass : JsVal -> RESTv2 -> Completion JsVal) : Completion JsVal :=
  if negb (truthy data)
     || (Array_isArray data && (length (elems data) =? 0)%nat)
  then Normal (JArr [])
  else if negb (_transform self) then Normal data
  else if Array_isArray data && Array_isArray (index (elems data) 0)
  then
    match map_completion (fun row => ModelClass row self) (elems data) with
    | Normal rows => Normal (JArr rows)
    | Throw e => Throw e
    end
  else ModelClass data self.

Definition _doTransform (self : RESTv2) (data : JsVal)
    (transformer : Transformer) : Completion JsVal :=
  match transformer with
  | TClass ModelClass => _classTransform self data ModelClass
  | TFunction f => f data
  | TNull => Normal data
  end.

(** The [res] of [_response]:
    [this._transform ? this._doTransform(data, transformer) : data]. *)
Definition transformed (self : RESTv2) (data : JsVal)
    (transformer : Transformer) : Completion JsVal :=
  if _transform self then _doTransform self data transformer
  else Normal data.

Definition _response (self : RESTv2) (data : JsVal)
    (transformer : Transformer) (cb : CallbackArg) : Eff Returned :=
  try_catch
    (let* res := lift (transformed self data transformer) in
     _cb None res cb)
    (fun e => _cb (Some e) JNull cb).

(** *** Dispatch *)

Definition _request (self : RESTv2) (url : string) (reqOpts : RequestInit)
    (transformer : Transformer) (cb : CallbackArg) : Async :=
  async
    (try_catch
       (let* _ := emit (Fetched url reqOpts) in
        let* resp := lift (_fetch self url reqOpts) in
        let* raw := lift (resp_text resp) in
        if negb (resp_ok resp) then throw (_apiError resp raw)
        else
          let* json := lift (JSON_parse raw) in
          _response self json transformer cb)
       (fun err => _cb (Some err) JNull cb)).

(** What the try-body of [_request] computes before [_cb] is reached: the
    transformed result, or the error thrown on the way. *)
Definition outcome (self : RESTv2) (url : string) (reqOpts : RequestInit)
    (transformer : Transformer) : Completion JsVal :=
  (let? resp := _fetch self url reqOpts in
   let? raw := resp_text resp in
   if negb (resp_ok resp) then Throw (_apiError resp raw)
   else
     let? json := JSON_parse raw in
     transformed self json transformer)%completion.

(** The failures of one dispatch, by the stage that raises them. *)
Inductive Classified (self : RESTv2) (url : string) (reqOpts : RequestInit)
    (transformer : Transformer) : JsError -> Prop :=
| TransportFailed e :
    _fetch self url reqOpts = Throw e ->
    Classified self url reqOpts transformer e
| BodyUnreadable resp e :
    _fetch self url reqOpts = Normal resp ->
    resp_text resp = Throw e ->
    Classified self url reqOpts transformer e
| HttpFailure resp raw :
    _fetch self url reqOpts = Normal resp ->
    resp_text resp = Normal raw ->
    resp_ok resp = false ->
    Classified self url reqOpts transformer (_apiError resp raw)
| InvalidResponse resp raw e :
    _fetch self url reqOpts = Normal resp ->
    resp_text resp = Normal raw ->
    resp_ok resp = true ->
    JSON_parse raw = Throw e ->
    Classified self url reqOpts transformer e
| TransformFailure resp raw json e :
    _fetch self url reqOpts = Normal resp ->
    resp_text resp = Normal raw ->
    resp_ok resp = true ->
    JSON_parse raw = Normal json ->
    transformed self json transformer = Throw e ->
    Classified self url reqOpts transformer e.

(** An error reaches the caller: as the rejection of the returned promise,
    or, when a callback function was passed, as its first argument. *)
Definition surfaced (e : JsError) (cb : CallbackArg)
    (out : Promise * NonceState * list Event) : Prop :=
  match cb with
  | CbOther _ => promise_of out = Rejected (enrich e)
  | CbFunction _ =>
      exists rest,
        omap callback_call (trace_of out) = (Some (enrich e), JUndefined) :: rest
  end.

Definition draw_nonce : Eff string :=
  fun s =>
    match nonce s with
    | (n, s1) => (Normal n, s1, [NonceDrawn n])
    end.

Definition sign (secret payload : string) : Eff string :=
  fun s =>
    match genAuthSig secret payload s with
    | (sig, s1) => (Normal sig, s1, [Signed secret payload])
    end.

(** [_makeAuthRequest (path, payload = {}, cb, transformer)]; an omitted
    payload is [None]. *)
Definition _makeAuthRequest (self : RESTv2) (path : string)
    (payload : option Obj) (cb : CallbackArg) (transformer : Transformer)
  : Async :=
  async
    (let payload := match payload with Some o => o | None => [] end in
     if ((_apiKey self =? "") || (_apiSecret self =? ""))
        && (_authToken self =? "")
     then _cb (Some (Error "missing api key or secret")) JNull cb
     else
       let url := _url self ++ "/v2" ++ path in
       let* n := draw_nonce in
       let sanitizedPayload := omitNil payload in
       let keys :=
         let sigPayload :=
           "/api/v2" ++ path ++ n ++ JSON_stringify (JObj sanitizedPayload) in
         let* sig := sign (_apiSecret self) sigPayload in
         ret [("bfx-apikey", _apiKey self); ("bfx-signature", sig)] in
       let* auth :=
         if negb (_authToken self =? "")
         then ret [("bfx-token", _authToken self)]
         else keys in
       let* sig := lift (AbortSignal_timeout (_timeout self)) in
       let reqOpts := {|
         method := "POST";
         signal := sig;
         headers :=
           ([("content-type", "application/json"); ("bfx-nonce", n)]
            ++ auth)%list;
         body := Some (JSON_stringify (JObj sanitizedPayload))
       |} in
       call_async (_request self url reqOpts transformer cb)).

(** The string [_makeAuthRequest] signs for [path] and [payload] when the
    nonce source is in state [s]. *)
Definition canonical_string (path : string) (payload : option Obj)
    (s : NonceState) : string :=
  "/api/v2" ++ path ++ fst (nonce s)
  ++ JSON_stringify
       (JObj (omitNil (match payload with Some o => o | None => [] end))).

Definition _makePublicRequest (self : RESTv2) (path : string)
    (cb : CallbackArg) (transformer : Transformer) : Async :=
  async
    (let* _ :=
     match cb with
     | CbOther v =>
         if negb (is_nil v)
         then throw (Error "_makePublicRequest cb param must be a function")
         else ret tt
     | CbFunction _ => ret tt
     end in
     let url := _url self ++ "/v2" ++ path in
     let* sig := lift (AbortSignal_timeout (_timeout self)) in
     let reqOpts := {|
       method := "GET"; signal := sig; headers := []; body := None
     |} in
     call_async (_request self url reqOpts transformer cb)).

Definition _makePublicPostRequest (self : RESTv2) (path : string)
    (payload : Obj) (cb : CallbackArg) (transformer : Transformer) : Async :=
  async
    (let url := _url self ++ "/v2" ++ path in
     let sanitizedPayload := omitNil payload in
     let* sig := lift (AbortSignal_timeout (_timeout self)) in
     let reqOpts := {|
       method := "POST";
       signal := sig;
       headers := [("content-type", "application/json")];
       body := Some (JSON_stringify (JObj sanitizedPayload))
     |} in
     call_async (_request self url reqOpts transformer cb)).

(** *** The currency-list merger *)

(** [transformArrToObj]; [arr.forEach] on anything but an array is a
    [TypeError]: the member of a nil value cannot be read, on any other
    value it is not a function. *)
Definition transformArrToObj (arr : JsVal) : Completion Obj :=
  match arr with
  | JArr l =>
      Normal
        (fold_left
           (fun obj c =>
              if negb (Array_isArray c)
              then obj_set (ToString Number_toString c) c obj
              else if (1 <? length (elems c))%nat
              then obj_set (ToString Number_toString (index (elems c) 0))
                           (index (elems c) 1) obj
              else obj)
           l [])
  | JUndefined =>
      Throw (Error "Cannot read properties of undefined (reading 'forEach')")
  | JNull =>
      Throw (Error "Cannot read properties of null (reading 'forEach')")
  | _ => Throw (Error "arr.forEach is not a function")
  end.

(** The assignments [transformArrToObj] performs for the elements [l], in
    order: a bare entry maps to itself, a pair maps its first element to
    its second, a shorter array is skipped. *)
Definition arr_entries (l : list JsVal) : list (string * JsVal) :=
  flat_map
    (fun c =>
       if negb (Array_isArray c) then [(ToString Number_toString c, c)]
       else if (1 <? length (elems c))%nat
       then [(ToString Number_toString (index (elems c) 0), index (elems c) 1)]
       else [])
    l.

(** The names [transformArrToObj] assigns for [l] are not inherited. *)
Definition own_names (l : list JsVal) : bool :=
  forallb (fun e => negb (inherited (fst e))) (arr_entries l).

(** The values [transformArrToObj] assigns for [l], read as property
    names, are not inherited. *)
Definition own_mates (l : list JsVal) : bool :=
  forallb (fun e => negb (inherited (ToString Number_toString (snd e))))
    (arr_entries l).

(** ["__proto__"] is not among the names [transformArrToObj] assigns for
    [l]. *)
Definition no_proto_name (l : list JsVal) : bool :=
  forallb (fun e => negb (fst e =? "__proto__")) (arr_entries l).

(** The six-part inputs on which every member access of the merger
    concerns an own property. The merger reads [explorer], [pool] and the
    symbol, label and wallet maps at the keys of the listed, symbol, label
    and pool parts and at the pool values, and writes the keys of all six
    parts: none of the names read is inherited, and ["__proto__"] is not
    written. *)
Definition own_properties_only (a0 a1 a2 a3 a4 a5 : list JsVal) : bool :=
  forallb own_names [a0; a1; a2; a3] && own_mates a3
  && forallb no_proto_name [a4; a5].

(** One step of the loop "Assign explorers of pool to currencies": the
    [explorer] object is updated in place, so the step maps the object
    before the visit of [key] to the object after it. *)
Definition assign_explorer (pool : Obj) (explorer : Obj) (key : string) : Obj :=
  if negb (truthy (obj_get key explorer))
  then
    let poolKey := ToString Number_toString (obj_get key pool) in
    if truthy (obj_get poolKey explorer)
    then obj_set key (obj_get poolKey explorer) explorer
    else explorer
  else explorer.

(** [Object.keys(pool).forEach(...)] *)
Definition assign_explorers (pool explorer : Obj) : Obj :=
  fold_left (assign_explorer pool) (Object_keys pool) explorer.

(** The record pushed for [key]. *)
Definition currency_record (allCurrObj pool explorer mapedCurrSym walletFx : Obj)
    (key : string) : JsVal :=
  let cPool := or_else (obj_get key pool) JNull in
  let cExpl := or_else (obj_get key explorer) (JArr []) in
  let cName := obj_get key allCurrObj in
  let cSymbol := or_else (obj_get key mapedCurrSym) (JStr key) in
  let cWfx := or_else (obj_get key walletFx) (JArr []) in
  JArr [JStr key; cName; cPool; cExpl; cSymbol; cWfx].

Definition _genCurrencyList (data : JsVal) : Completion JsVal :=
  if negb (Array_isArray data) || negb (length (elems data) =? 6)%nat
  then Normal data
  else
    (let? listedCurr := transformArrToObj (index (elems data) 0) in
     let? mapedCurrSym := transformArrToObj (index (elems data) 1) in
     let? mapedCurrLabel := transformArrToObj (index (elems data) 2) in
     let? pool := transformArrToObj (index (elems data) 3) in
     let? explorer := transformArrToObj (index (elems data) 4) in
     let? walletFx := transformArrToObj (index (elems data) 5) in
     let allCurrObj :=
       spread_into (spread_into (spread_into [] listedCurr) mapedCurrSym)
                   mapedCurrLabel in
     let explorer := assign_explorers pool explorer in
     Normal
       (JArr
          (map (currency_record allCurrObj pool explorer mapedCurrSym walletFx)
               (Object_keys allCurrObj))))%completion.

End Client.


(** *** Insertion order *)

(** The keys of [ks] in the order in which assigning them one after the
    other creates them, on top of the keys [seen] that exist already: each
    key counts at its first occurrence. *)
Fixpoint insert_keys (seen ks : list string) : list string :=
  match ks with
  | [] => []
  | k :: ks' =>
      if in_dec string_dec k seen then insert_keys seen ks'
      else k :: insert_keys (seen ++ [k])%list ks'
  end.

Definition insertion_order (ks : list string) : list string :=
  insert_keys [] ks.

(** The value last assigned to [k] by the entries [es], [d] if none is. *)
Definition last_assigned (k : string) (es : list (string * JsVal))
    (d : option JsVal) : option JsVal :=
  fold_left (fun acc e => if fst e =? k then Some (snd e) else acc) es d.


Arguments _cb {NonceState} err res cb.
Arguments invoke {NonceState} f err res.
Arguments _response {NonceState} self data transformer cb.
Arguments _request JSON_parse {NonceState} self url reqOpts transformer cb.
Arguments surfaced {NonceState} e cb out.

(** ** Endpoint methods *)

(** [k in obj], decided on the own properties of a plain object. *)
Definition has_key (k : string) (obj : Obj) : bool :=
  match obj_lookup k obj with
  | Some _ => true
  | None => false
  end.

(** [pick]: the entries of [obj] under the listed keys it has, rebuilt
    into a fresh object in the order of the list. The key lists the client
    passes name no member of [Object.prototype], so own properties decide
    [k in obj]. *)
Definition pick (obj : Obj) (keys : list string) : Obj :=
  Object_fromEntries
    (map (fun k => (k, obj_get k obj))
       (List.filter (fun k => has_key k obj) keys)).

(** [v[0]] on any value: a [TypeError] on a nil one, the first element of
    an array, the property "0" of an object, the first character of a
    string, [undefined] on a number or a boolean. *)
Definition first_member (v : JsVal) : Completion JsVal :=
  match v with
  | JUndefined =>
      Throw (Error "Cannot read properties of undefined (reading '0')")
  | JNull => Throw (Error "Cannot read properties of null (reading '0')")
  | JArr l => Normal (index l 0)
  | JObj o => Normal (obj_get "0" o)
  | JStr (String c _) => Normal (JStr (String c EmptyString))
  | JStr EmptyString => Normal JUndefined
  | JBool _ | JNum _ => Normal JUndefined
  end.

(** [promise.then(f)], for a handler that returns a value or throws. *)
Definition Promise_then (p : Promise) (f : JsVal -> Completion JsVal)
  : Promise :=
  match p with
  | Resolved v =>
      match f v with
      | Normal r => Resolved r
      | Throw e => Rejected e
      end
  | Rejected e => Rejected e
  end.

Definition nonce_drawn (ev : Event) : option string :=
  match ev with
  | NonceDrawn n => Some n
  | _ => None
  end.

(** The parameters [generateToken] forwards. *)
Definition TOKEN_PARAMS : list string :=
  ["ttl"; "scope"; "caps"; "writePermission"; "_cust_ip"].

(** The parameters [transfer] copies as they are. *)
Definition TRANSFER_PARAMS : list string :=
  ["amount"; "from"; "to"; "currency"].

(** The configuration keys [currencies] asks for, before the company
    suffix. *)
Definition CURRENCY_CONF_KEYS : list string :=
  ["pub:list:currency"; "pub:map:currency:sym"; "pub:map:currency:label";
   "pub:map:currency:pool"; "pub:map:currency:explorer";
   "pub:map:currency:wfx"].

Section Endpoints.

Variable JSON_parse : string -> Completion JsVal.
Variable JSON_stringify : JsVal -> string.
Variable Number_toString : number -> string.
Variable AbortSignal_timeout : number -> Completion AbortSignal.
Variable NonceState : Type.
Variable nonce : NonceState -> string * NonceState.
Variable genAuthSig : string -> string -> NonceState -> string * NonceState.
(** bfx-api-node-models: the [Currency] class, called with [new], the row
    and the client, and [new Notification(data)]. *)
Variable Currency : JsVal -> RESTv2 -> Completion JsVal.
Variable Notification : JsVal -> Completion JsVal.

Local Open Scope eff_scope.
Local Abbreviation Eff := (Eff NonceState).
Local Abbreviation Async := (Async NonceState).
Local Abbreviation authRequest :=
  (_makeAuthRequest JSON_parse JSON_stringify AbortSignal_timeout NonceState
     nonce genAuthSig).
Local Abbreviation publicRequest :=
  (_makePublicRequest JSON_parse AbortSignal_timeout NonceState).
Local Abbreviation publicPostRequest :=
  (_makePublicPostRequest JSON_parse JSON_stringify AbortSignal_timeout
     NonceState).

(** [await r]: the value of a settled promise, a throw when it rejected. *)
Definition await (r : Returned) : Eff JsVal :=
  match r with
  | Plain v => ret v
  | Promised (Resolved v) => ret v
  | Promised (Rejected e) => throw e
  end.

(** The call [a(...).then(f)] on an [async] function. *)
Definition and_then (a : Async) (f : JsVal -> Completion JsVal)
  : Eff Returned :=
  fun s =>
    match a s with
    | (p, s1, t) => (Normal (Promised (Promise_then p f)), s1, t)
    end.

Definition _takeResNotify (data : JsVal) : Completion JsVal :=
  Notification data.

(** [conf ({ keys = [] } = {}, cb)]; an omitted [keys] is [None]. *)
Definition conf (self : RESTv2) (keys : option (list string))
    (cb : CallbackArg) : Eff Returned :=
  let keys := match keys with Some ks => ks | None => [] end in
  if (length keys =? 0)%nat then _response self (JArr []) TNull cb
  else
    let url := "/conf/" ++ String.concat "," keys in
    call_async (publicRequest self url cb TNull).

(** [currencies (_params, cb)] *)
Definition currencies (self : RESTv2) (cb : CallbackArg) : Async :=
  async
    (let suffix :=
       if negb (_company self =? "") then ":" ++ _company self else "" in
     let url :=
       "/conf/"
       ++ String.concat "," (map (fun k => k ++ suffix) CURRENCY_CONF_KEYS) in
     call_async
       (publicRequest self url cb
          (TFunction
             (fun data =>
                (let? res := _genCurrencyList Number_toString data in
                 _doTransform self res (TClass Currency))%completion)))).

(** [exchangeRate ({ ccy1, ccy2 }, cb)]: the inner request is made with
    [null] in place of the callback and awaited. *)
Definition exchangeRate (self : RESTv2) (params : Obj) (cb : CallbackArg)
  : Async :=
  async
    (let ccy1 := obj_get "ccy1" params in
     let ccy2 := obj_get "ccy2" params in
     let* r :=
       call_async
         (publicPostRequest self "/calc/fx" [("ccy1", ccy1); ("ccy2", ccy2)]
            (CbOther JNull) TNull) in
     let* res := await r in
     let* first := lift (first_member res) in
     _response self first TNull cb).

(** [generateToken (params, cb)]; [params || {}] makes a nil [params]
    ([None]) the empty object. *)
Definition generateToken (self : RESTv2) (params : option Obj)
    (cb : CallbackArg) : Eff Returned :=
  let opts :=
    omitNil (pick (match params with Some o => o | None => [] end)
                  TOKEN_PARAMS) in
  if negb (truthy (obj_get "scope" opts))
  then _cb (Some (Error "scope param is required")) JNull cb
  else call_async (authRequest self "/auth/w/token" (Some opts) cb TNull).

(** [updateOrderMulti ({ orders }, cb)] *)
Definition updateOrderMulti (self : RESTv2) (params : Obj) (cb : CallbackArg)
  : Eff Returned :=
  let orders := obj_get "orders" params in
  if negb (Array_isArray orders)
  then _cb (Some (Error "orders should be an array")) JNull cb
  else
    let payload :=
      map (fun order => JArr [JStr "ou"; order]) (elems orders) in
    and_then
      (authRequest self "/auth/w/order/multi"
         (Some [("ops", JArr payload)]) cb TNull)
      _takeResNotify.

(** [cancelOrders ({ ids }, cb)] *)
Definition cancelOrders (self : RESTv2) (params : Obj) (cb : CallbackArg)
  : Eff Returned :=
  let ids := obj_get "ids" params in
  if negb (Array_isArray ids)
  then _cb (Some (Error "ids should be an array")) JNull cb
  else
    let payload := JArr [JStr "oc_multi"; JObj [("id", ids)]] in
    and_then
      (authRequest self "/auth/w/order/multi"
         (Some [("ops", JArr [payload])]) cb TNull)
      _takeResNotify.

(** [transfer (params, cb)] *)
Definition transfer (self : RESTv2) (params : Obj) (cb : CallbackArg)
  : Eff Returned :=
  let opts := pick params TRANSFER_PARAMS in
  let opts := obj_set "currency_to" (obj_get "currencyTo" params) opts in
  and_then (authRequest self "/auth/w/transfer" (Some opts) cb TNull)
           _takeResNotify.

(** The affiliate-code step of [submitFundingOffer], on the packet that
    [toNewOfferPacket] returned; the packet and its [meta] object are
    updated in place. A [meta] that is a truthy primitive cannot take a
    property (a [TypeError] in the strict code of a class body); one that
    is an array takes it as a named property, which no later step of the
    call reads. *)
Definition inject_aff_code (self : RESTv2) (packet : Obj) : Completion Obj :=
  if truthy (_affCode self)
  then
    let packet :=
      if negb (truthy (obj_get "meta" packet))
      then obj_set "meta" (JObj []) packet
      else packet in
    match obj_get "meta" packet with
    | JObj meta =>
        Normal
          (obj_set "meta"
             (JObj (obj_set "aff_code"
                      (or_else (obj_get "aff_code" meta) (_affCode self))
                      meta))
             packet)
    | JArr _ => Normal packet
    | v =>
        Throw
          (Error
             ("Cannot create property 'aff_code' on "
              ++ match v with
                 | JStr _ => "string"
                 | JBool _ => "boolean"
                 | _ => "number"
                 end
              ++ " '" ++ ToString Number_toString v ++ "'"))
    end
  else Normal packet.

(** [submitFundingOffer ({ offer }, cb)]; [toNewOfferPacket] is the
    outcome of the call [offer.toNewOfferPacket()] of bfx-api-node-models:
    the packet object, or a throw. *)
Definition submitFundingOffer (self : RESTv2)
    (toNewOfferPacket : Completion Obj) (cb : CallbackArg) : Eff Returned :=
  let* packet := lift toNewOfferPacket in
  let* packet := lift (inject_aff_code self packet) in
  and_then
    (authRequest self "/auth/w/funding/offer/submit" (Some packet) cb TNull)
    _takeResNotify.

End Endpoints.

(** ** The RESTv1 client *)

Module V1.

(** What a nonce generator returns: a string, as the type of the
    [nonceGenerator] option says, or a number, as the [nonce] of
    bfx-api-node-util does. *)
Inductive Nonce : Type :=
| NonceString (s : string)
| NonceNumber (n : number).

Definition nonce_value (n : Nonce) : JsVal :=
  match n with
  | NonceString s => JStr s
  | NonceNumber n => JNum n
  end.

(** The private fields of a [RESTv1] instance; the nonce generator is the
    one passed to the constructor, or the [nonce] of bfx-api-node-util. *)
Record RESTv1 (NonceState : Type) : Type := mkRESTv1 {
  _url : string;
  _apiKey : string;
  _apiSecret : string;
  _generateNonce : NonceState -> Nonce * NonceState;
  _timeout : number;
  _fetch : FetchFn
}.
Arguments _url {NonceState} r.
Arguments _apiKey {NonceState} r.
Arguments _apiSecret {NonceState} r.
Arguments _generateNonce {NonceState} r.
Arguments _timeout {NonceState} r.
Arguments _fetch {NonceState} r.

Definition HELP_TEXT : string :=
  " See https://github.com/bitfinexcom/bitfinex-api-node/blob/master/README.md#nonce-too-small for help".

(** Case folding of the [i] flag, on the characters an ASCII pattern can
    match: the upper-case letters A to Z map to their lower-case
    counterparts. *)
Definition to_lower (c : ascii) : ascii :=
  let n := nat_of_ascii c in
  if (65 <=? n)%nat && (n <=? 90)%nat then ascii_of_nat (n + 32) else c.

Fixpoint lower (s : string) : string :=
  match s with
  | EmptyString => EmptyString
  | String c s' => String (to_lower c) (lower s')
  end.

(** [/nonce is too small/i.test(s)] *)
Definition nonce_is_too_small (s : string) : bool :=
  includes (lower s) "nonce is too small".

Section Client.

Variable JSON_parse : string -> Completion JsVal.
Variable JSON_stringify : JsVal -> string.
(** [Buffer.from(s).toString('base64')] *)
Variable base64 : string -> string.
Variable AbortSignal_timeout : number -> Completion AbortSignal.
Variable NonceState : Type.
Variable genAuthSig : string -> string -> NonceState -> string * NonceState.

Local Open Scope eff_scope.
Local Abbreviation Eff := (Eff NonceState).
Local Abbreviation Async := (Async NonceState).
Local Abbreviation RESTv1 := (RESTv1 NonceState).

(** [_parse_req_body]: reading [message] off [null] is a [TypeError]; the
    value the callback returns is dropped. *)
Definition _parse_req_body (result : JsVal) (cb : CallbackFn) : Eff unit :=
  match result with
  | JUndefined =>
      throw (Error "Cannot read properties of undefined (reading 'message')")
  | JNull =>
      throw (Error "Cannot read properties of null (reading 'message')")
  | _ =>
      match match result with
            | JObj o => obj_get "message" o
            | _ => JUndefined
            end with
      | JStr msg =>
          let msg :=
            if nonce_is_too_small msg then msg ++ HELP_TEXT else msg in
          let* _ := invoke cb (Some (Error msg)) JUndefined in
          ret tt
      | _ =>
          let* _ := invoke cb None result in
          ret tt
      end
  end.

(** [JSON.stringify(this._generateNonce())]: the JSON text of the value
    drawn, which is what the event records. A numeric nonce 1 gives the
    text 1, a string nonce "1" the text "1" with its quotes. *)
Definition generate_nonce (self : RESTv1) : Eff string :=
  fun s =>
    match _generateNonce self s with
    | (n, s1) =>
        let text := JSON_stringify (nonce_value n) in
        (Normal text, s1, [NonceDrawn text])
    end.

(** The try-block shared by the two request methods: [resp.json()] reads
    the body and parses it. *)
Definition dispatch (self : RESTv1) (url : string) (reqOpts : RequestInit)
    (cb : CallbackFn) : Eff Returned :=
  try_catch
    (let* _ := emit (Fetched url reqOpts) in
     let* resp := lift (_fetch self url reqOpts) in
     if negb (resp_ok resp) && negb (resp_status resp =? 400)%N
     then
       throw (Error ("HTTP code " ++ string_of_N (resp_status resp) ++ " "
                     ++ str_or (resp_statusText resp) ""))
     else
       let* raw := lift (resp_text resp) in
       let* json := lift (JSON_parse raw) in
       let* _ := _parse_req_body json cb in
       ret (Plain JUndefined))
    (fun err => invoke cb (Some err) JUndefined).

Definition make_request (self : RESTv1) (path : string) (params : Obj)
    (cb : CallbackFn) : Async :=
  async
    (if (_apiKey self =? "") || (_apiSecret self =? "")
     then invoke cb (Some (Error "missing api key or secret")) JUndefined
     else if path =? ""
     then invoke cb (Some (Error "path is missing")) JUndefined
     else
       let* n := generate_nonce self in
       let payload :=
         spread_into [("request", JStr ("/v1/" ++ path)); ("nonce", JStr n)]
           params in
       let payloadBase64 := base64 (JSON_stringify (JObj payload)) in
       let* sig := sign NonceState genAuthSig (_apiSecret self) payloadBase64 in
       let url := _url self ++ "/v1/" ++ path in
       let* signal := lift (AbortSignal_timeout (_timeout self)) in
       let reqOpts := {|
         method := "POST";
         signal := signal;
         headers :=
           [("X-BFX-APIKEY", _apiKey self);
            ("X-BFX-PAYLOAD", payloadBase64);
            ("X-BFX-SIGNATURE", sig)];
         body := None
       |} in
       dispatch self url reqOpts cb).

Definition make_public_request (self : RESTv1) (path : string)
    (cb : CallbackFn) : Async :=
  async
    (if path =? ""
     then invoke cb (Some (Error "path is missing")) JUndefined
     else
       let url := _url self ++ "/v1/" ++ path in
       let* signal := lift (AbortSignal_timeout (_timeout self)) in
       let reqOpts := {|
         method := "GET"; signal := signal; headers := []; body := None
       |} in
       dispatch self url reqOpts cb).

End Client.

End V1.

Arguments await {NonceState} r.
Arguments and_then {NonceState} a f.

(** The completion, final state and events of a call. *)
Definition value_of {A S} (r : A * S * list Event) : A := fst (fst r).
Definition state_of {A S} (r : A * S * list Event) : S := snd (fst r).
Definition events_of {A S} (r : A * S * list Event) : list Event := snd r.

(** *** Vocabulary of the statements *)

(** What [_cb] makes of the failure [e] of a dispatch, for which it is
    called with [null] as result. Without callback function: a promise
    rejected with [e] (the help text appended where that applies), or,
    when [e] is falsy, a promise resolved with [null]. *)
Definition failure_promise (e : JsError) : Promise :=
  if truthy_thrown e then Rejected (enrich e) else Resolved JNull.

(** With a callback function: the arguments of its call, [(err)] or, when
    [e] is falsy, [(null, null)]. *)
Definition failure_call (e : JsError) : option JsError * JsVal :=
  if truthy_thrown e then (Some (enrich e), JUndefined) else (None, JNull).

(** A number that is integral and greater than zero. *)
Definition positive_integer (v : JsVal) : bool :=
  match v with
  | JNum (Finite q) => Number_isInteger v && negb (Qle_bool q 0)
  | _ => false
  end.

(** Options that only set [timeout]. *)
Definition timeout_only (v : JsVal) : RESTv2Options :=
  mkOptions JUndefined None None None None None None v None.


(** ** A mock platform for closed examples *)

Module Mock.

Definition quote : string := String (ascii_of_nat 34) EmptyString.
Definition quoted (s : string) : string := quote ++ s ++ quote.

(** Renders the numbers the examples use: integers, in decimal. *)
Definition Number_toString (n : number) : string :=
  match n with
  | Finite q =>
      (if (Qfloor q <? 0)%Z then "-" else "")
      ++ string_of_N (Z.abs_N (Qfloor q))
  | NaN => "NaN"
  | PosInfinity => "Infinity"
  | NegInfinity => "-Infinity"
  end.

(** Serializes values whose strings need no escaping; properties come out
    in [Object.keys] order, [undefined] ones are left out. *)
Fixpoint JSON_stringify (v : JsVal) : string :=
  match v with
  | JUndefined | JNull => "null"
  | JBool true => "true"
  | JBool false => "false"
  | JNum n => Number_toString n
  | JStr s => quoted s
  | JArr l => "[" ++ String.concat "," (map JSON_stringify l) ++ "]"
  | JObj props =>
      let rendered :=
        map (fun e =>
               match e with
               | (k, JUndefined) => (k, JUndefined)
               | (k, v') => (k, JStr (JSON_stringify v'))
               end) props in
      "{" ++ String.concat ","
               (omap (fun k =>
                        match obj_get k rendered with
                        | JStr r => Some (quoted k ++ ":" ++ r)
                        | _ => None
                        end)
                     (Object_keys props))
          ++ "}"
  end.

Definition rate_limit_body : string :=
  "[" ++ quoted "error" ++ ",10010," ++ quoted "ERR_RATE_LIMIT" ++ "]".
Definition internal_body : string :=
  "{" ++ quoted "error" ++ ":" ++ quoted "internal" ++ "}".
Definition nonce_small_body : string :=
  "[" ++ quoted "error" ++ ",10114," ++ quoted "nonce: small" ++ "]".

(** Parses the bodies the examples send; anything else is a syntax error. *)
Definition JSON_parse (s : string) : Completion JsVal :=
  if s =? rate_limit_body
  then Normal (JArr [JStr "error"; num_of_Z 10010; JStr "ERR_RATE_LIMIT"])
  else if s =? internal_body
  then Normal (JObj [("error", JStr "internal")])
  else if s =? nonce_small_body
  then Normal (JArr [JStr "error"; num_of_Z 10114; JStr "nonce: small"])
  else Throw (Error "Unexpected token").

(** A counter as nonce source. *)
Definition nonce (s : N) : string * N := (string_of_N s, N.succ s).

(** A signer that draws a nonce from the same counter for the record it
    returns. *)
Definition genAuthSig (secret payload : string) (s : N) : string * N :=
  ("hmac(" ++ secret ++ "," ++ payload ++ ")", snd (nonce s)).

Definition AbortSignal_timeout (ms : number) : Completion AbortSignal :=
  match ms with
  | Finite q =>
      if Qle_bool 0 q then Normal (TimeoutSignal ms)
      else Throw (Error "The value of delay is out of range")
  | _ => Throw (Error "The value of delay is out of range")
  end.

(** A transport with no network. *)
Definition offline : FetchFn := fun _ _ => Throw (Error "fetch failed").

(** A transport whose promise is rejected with a primitive value. *)
Definition rejecting_with (p : Primitive) : FetchFn :=
  fun _ _ => Throw (ThrownPrimitive p).

(** A transport that answers every request the same way. *)
Definition respond (st : N) (stText body : string) : FetchFn :=
  fun _ _ =>
    Normal {| resp_status := st;
              resp_statusText := stText;
              resp_ok := (200 <=? st)%N && (st <=? 299)%N;
              resp_text := Normal body |}.

(** A client over [transport], with or without credentials. *)
Definition rest (key secret token : string) (tr : bool) (transport : FetchFn)
  : RESTv2 :=
  {| _url := API_URL; _apiKey := key; _apiSecret := secret;
     _authToken := token; _company := ""; _transform := tr;
     _timeout := BASE_TIMEOUT; _affCode := JUndefined; _fetch := transport |}.

Definition get : RequestInit :=
  {| method := "GET"; signal := TimeoutSignal BASE_TIMEOUT;
     headers := []; body := None |}.

(** A callback that throws whatever it is called with. *)
Definition throwing_callback : CallbackFn :=
  fun _ _ => Throw (Error "callback failed").

(** A callback that returns nothing. *)
Definition quiet_callback : CallbackFn :=
  fun _ _ => Normal (Plain JUndefined).

(** A model class that keeps the row it is built from. *)
Definition Model : JsVal -> RESTv2 -> Completion JsVal :=
  fun row _ => Normal (JObj [("data", row)]).

(** A callback that throws when handed a result and returns nothing when
    handed an error. *)
Definition fussy_callback : CallbackFn :=
  fun err _ =>
    match err with
    | None => Throw (Error "callback failed")
    | Some _ => Normal (Plain JUndefined)
    end.

(** The client [r] with another timeout. *)
Definition with_timeout (ms : number) (r : RESTv2) : RESTv2 :=
  {| _url := _url r; _apiKey := _apiKey r; _apiSecret := _apiSecret r;
     _authToken := _authToken r; _company := _company r;
     _transform := _transform r; _timeout := ms; _affCode := _affCode r;
     _fetch := _fetch r |}.

(** [new Notification(data)], keeping the data it is built from. *)
Definition Notification : JsVal -> Completion JsVal :=
  fun data => Normal (JObj [("notifyInfo", data)]).

(** The six-part currency configuration of the merger's test: USDT, in
    the pool of ETH, which has an explorer. *)
Definition currency_conf : JsVal :=
  JArr [JArr [JStr "USDT"];
        JArr [JArr [JStr "USDT"; JStr "USDT"]];
        JArr [JArr [JStr "USDT"; JStr "Tether"]];
        JArr [JArr [JStr "USDT"; JStr "ETH"]];
        JArr [JArr [JStr "ETH"; JArr [JStr "https://etherscan.io"]]];
        JArr []].

Definition currency_conf_body : string := JSON_stringify currency_conf.

(** The parser above, extended with the body of the currency example. *)
Definition JSON_parse_conf (s : string) : Completion JsVal :=
  if s =? currency_conf_body then Normal currency_conf else JSON_parse s.

(** A model class whose constructor refuses an empty row. *)
Definition Strict : JsVal -> RESTv2 -> Completion JsVal :=
  fun row _ =>
    if (length (elems row) =? 0)%nat then Throw (Error "empty row")
    else Normal (JObj [("data", row)]).

(** The client [r] with an affiliate code. *)
Definition with_affiliate (code : string) (r : RESTv2) : RESTv2 :=
  {| _url := _url r; _apiKey := _apiKey r; _apiSecret := _apiSecret r;
     _authToken := _authToken r; _company := _company r;
     _transform := _transform r; _timeout := _timeout r;
     _affCode := JStr code; _fetch := _fetch r |}.

(** A RESTv1 client over [transport], with the default nonce generator:
    the counter, as a number. *)
Definition v1 (key secret : string) (transport : FetchFn) : V1.RESTv1 N :=
  {| V1._url := API_URL; V1._apiKey := key; V1._apiSecret := secret;
     V1._generateNonce :=
       (fun s => (V1.NonceNumber (Finite (inject_Z (Z.of_N s))), N.succ s));
     V1._timeout := BASE_TIMEOUT;
     V1._fetch := transport |}.

Definition base64 (s : string) : string := "base64(" ++ s ++ ")".

Definition nonce_message_body : string :=
  "{" ++ quoted "message" ++ ":" ++ quoted "Nonce is too small." ++ "}".

(** The parser above, extended with the body of a RESTv1 nonce error. *)
Definition JSON_parse_v1 (s : string) : Completion JsVal :=
  if s =? nonce_message_body
  then Normal (JObj [("message", JStr "Nonce is too small.")])
  else JSON_parse s.

End Mock.

(** * Properties *)

(** ** Strings *)

Lemma prefix_app (p s : string) : String.prefix p (p ++ s) = true.
Proof.
  induction p as [|c p IH]; simpl.
  - now destruct s.
  - destruct (Ascii.ascii_dec c c); [exact IH | congruence].
Qed.

Lemma includes_skip (pre s sub : string) :
  includes s sub = true -> includes (pre ++ s) sub = true.
Proof.
  intros H. induction pre as [|c pre IH]; simpl; [exact H |].
  rewrite IH. apply orb_true_r.
Qed.

Lemma includes_of_prefix (s sub : string) :
  String.prefix sub s = true -> includes s sub = true.
Proof. intros H. destruct s; simpl in *; now rewrite H. Qed.

Lemma includes_infix (pre sub post : string) :
  includes (pre ++ sub ++ post) sub = true.
Proof. apply includes_skip, includes_of_prefix, prefix_app. Qed.

Lemma includes_prefix (s t : string) : includes (s ++ t) s = true.
Proof. exact (includes_infix "" s t). Qed.

Lemma str_or_empty (s : string) : str_or s "" = s.
Proof.
  unfold str_or. destruct (s =? "") eqn:E; [|reflexivity].
  apply String.eqb_eq in E. now subst.
Qed.

(** ** Objects *)

Lemma obj_lookup_set_eq (k : string) (v : JsVal) (o : Obj) :
  obj_lookup k (obj_set k v o) = Some v.
Proof.
  induction o as [|[k' v'] o IH]; simpl.
  - now rewrite String.eqb_refl.
  - destruct (k' =? k) eqn:E; simpl.
    + now rewrite String.eqb_refl.
    + now rewrite E.
Qed.

Lemma obj_lookup_set_ne (k k' : string) (v : JsVal) (o : Obj) :
  k <> k' -> obj_lookup k' (obj_set k v o) = obj_lookup k' o.
Proof.
  intros Hne. induction o as [|[k0 v0] o IH]; simpl.
  - apply String.eqb_neq in Hne. now rewrite Hne.
  - destruct (k0 =? k) eqn:E; simpl.
    + apply String.eqb_eq in E. subst k0.
      apply String.eqb_neq in Hne. now rewrite Hne.
    + now rewrite IH.
Qed.

Lemma obj_get_set_eq (k : string) (v : JsVal) (o : Obj) :
  obj_get k (obj_set k v o) = v.
Proof. unfold obj_get. now rewrite obj_lookup_set_eq. Qed.

Lemma obj_get_set_ne (k k' : string) (v : JsVal) (o : Obj) :
  k <> k' -> obj_get k' (obj_set k v o) = obj_get k' o.
Proof. intros H. unfold obj_get. now rewrite obj_lookup_set_ne. Qed.

Lemma obj_lookup_In (k : string) (o : Obj) :
  In k (created_keys o) <-> obj_lookup k o <> None.
Proof.
  induction o as [|[k' v'] o IH]; simpl.
  - split; [tauto | congruence].
  - destruct (k' =? k) eqn:E.
    + apply String.eqb_eq in E. split; [congruence | auto].
    + apply String.eqb_neq in E. rewrite <- IH. tauto.
Qed.

Lemma created_keys_set (k : string) (v : JsVal) (o : Obj) :
  created_keys (obj_set k v o)
  = if in_dec string_dec k (created_keys o)
    then created_keys o
    else (created_keys o ++ [k])%list.
Proof.
  unfold created_keys.
  induction o as [|[k' v'] o IH]; simpl.
  - reflexivity.
  - destruct (k' =? k) eqn:E.
    + apply String.eqb_eq in E. subst k'. simpl.
      destruct (string_dec k k); [|congruence]. reflexivity.
    + apply String.eqb_neq in E. simpl. rewrite IH.
      destruct (string_dec k' k); [congruence|].
      destruct (in_dec string_dec k (map fst o)); reflexivity.
Qed.

Lemma insert_keys_In (seen ks : list string) (k : string) :
  In k (insert_keys seen ks) <-> In k ks /\ ~ In k seen.
Proof.
  revert seen. induction ks as [|x ks IH]; intros seen; simpl.
  - tauto.
  - destruct (in_dec string_dec x seen) as [Hin|Hnin].
    + rewrite IH. split; [tauto|]. intros [[->|H] Hn]; tauto.
    + simpl. rewrite IH, in_app_iff. simpl.
      destruct (string_dec x k) as [->|Hne]; [tauto|]. tauto.
Qed.

Lemma insert_keys_NoDup (seen ks : list string) :
  NoDup seen -> NoDup (seen ++ insert_keys seen ks)%list.
Proof.
  revert seen. induction ks as [|x ks IH]; intros seen Hnd; simpl.
  - now rewrite app_nil_r.
  - destruct (in_dec string_dec x seen) as [Hin|Hnin]; [now apply IH|].
    replace (seen ++ x :: insert_keys (seen ++ [x]) ks)%list
      with ((seen ++ [x]) ++ insert_keys (seen ++ [x]) ks)%list
      by now rewrite <- app_assoc.
    apply IH. apply NoDup_app. repeat split; auto.
    + intros y Hy [->|[]]%list_elem_of_In. apply Hnin. now apply list_elem_of_In.
    + constructor; [|constructor]. intros H%list_elem_of_In. destruct H.
Qed.

Lemma insertion_order_NoDup (ks : list string) : NoDup (insertion_order ks).
Proof. apply (insert_keys_NoDup [] ks). constructor. Qed.

Lemma insertion_order_In (ks : list string) (k : string) :
  In k (insertion_order ks) <-> In k ks.
Proof. unfold insertion_order. rewrite insert_keys_In. simpl. tauto. Qed.

Lemma insert_keys_app (seen a b : list string) :
  insert_keys seen (a ++ b)
  = (insert_keys seen a ++ insert_keys (seen ++ insert_keys seen a) b)%list.
Proof.
  revert seen. induction a as [|x a IH]; intros seen; simpl.
  - now rewrite app_nil_r.
  - destruct (in_dec string_dec x seen); [apply IH|].
    simpl. rewrite IH. now rewrite <- app_assoc.
Qed.

Lemma insert_keys_id (seen ks : list string) :
  NoDup ks -> (forall k, In k ks -> ~ In k seen) -> insert_keys seen ks = ks.
Proof.
  revert seen. induction ks as [|x ks IH]; intros seen Hnd Hdis; simpl.
  - reflexivity.
  - apply NoDup_cons in Hnd as [Hx Hnd].
    destruct (in_dec string_dec x seen) as [Hin|_].
    + exfalso. apply (Hdis x); simpl; auto.
    + f_equal. apply IH; [exact Hnd|].
      intros k Hk. rewrite in_app_iff. simpl. intros [H|[->|[]]].
      * apply (Hdis k); simpl; auto.
      * apply Hx. now apply list_elem_of_In.
Qed.

Lemma created_keys_assign_all (es : list (string * JsVal)) (o : Obj) :
  created_keys (assign_all es o)
  = (created_keys o ++ insert_keys (created_keys o) (map fst es))%list.
Proof.
  unfold assign_all. revert o. induction es as [|[k v] es IH]; intros o; simpl.
  - now rewrite app_nil_r.
  - rewrite IH, created_keys_set.
    destruct (in_dec string_dec k (created_keys o)); [reflexivity|].
    now rewrite <- app_assoc.
Qed.

Lemma obj_lookup_assign_all (k : string) (es : list (string * JsVal)) (o : Obj) :
  obj_lookup k (assign_all es o) = last_assigned k es (obj_lookup k o).
Proof.
  unfold assign_all, last_assigned. revert o.
  induction es as [|[k' v] es IH]; intros o; simpl; [reflexivity|].
  rewrite IH. f_equal.
  destruct (k' =? k) eqn:E.
  - apply String.eqb_eq in E. subst. apply obj_lookup_set_eq.
  - apply String.eqb_neq in E. now apply obj_lookup_set_ne.
Qed.

(** ** Key enumeration *)

Lemma array_index_Some (k : string) (n : N) :
  array_index k = Some n -> string_of_N n = k.
Proof.
  unfold array_index. destruct (NilEmpty.uint_of_string k) as [d|]; [|discriminate].
  simpl. destruct (string_of_N (N.of_uint d) =? k) eqn:E; simpl; [|discriminate].
  destruct (N.of_uint d <? 4294967295)%N; [|discriminate].
  intros [= <-]. now apply String.eqb_eq.
Qed.

Lemma index_keys_filter (ks : list string) :
  map string_of_N (omap array_index ks) = List.filter is_array_index ks.
Proof.
  induction ks as [|k ks IH]; simpl; [reflexivity|].
  unfold is_array_index at 1. destruct (array_index k) as [n|] eqn:E; simpl.
  - f_equal; [now apply array_index_Some | exact IH].
  - exact IH.
Qed.

Lemma filter_partition_Permutation {A} (p : A -> bool) (l : list A) :
  Permutation (List.filter p l ++ List.filter (fun x => negb (p x)) l) l.
Proof.
  induction l as [|x l IH]; simpl; [constructor|].
  destruct (p x); simpl.
  - now constructor.
  - apply Permutation_sym, Permutation_cons_app, Permutation_sym, IH.
Qed.

Lemma Object_keys_Permutation (o : Obj) :
  Permutation (Object_keys o) (created_keys o).
Proof.
  unfold Object_keys.
  rewrite <- (filter_partition_Permutation is_array_index (created_keys o)) at 3.
  apply Permutation_app_tail. rewrite <- index_keys_filter.
  apply Permutation_map, merge_sort_Permutation.
Qed.

Lemma Object_keys_In (o : Obj) (k : string) :
  In k (Object_keys o) <-> In k (created_keys o).
Proof.
  split; apply Permutation_in;
    [|apply Permutation_sym]; apply Object_keys_Permutation.
Qed.

Lemma Object_keys_NoDup (o : Obj) :
  NoDup (created_keys o) -> NoDup (Object_keys o).
Proof.
  intros H. now rewrite Object_keys_Permutation.
Qed.

(** Without array-index keys, enumeration order is creation order. *)
Lemma Object_keys_created (o : Obj) :
  (forall k, In k (created_keys o) -> is_array_index k = false) ->
  Object_keys o = created_keys o.
Proof.
  unfold Object_keys. generalize (created_keys o) as ks. intros ks H.
  assert (E : List.filter is_array_index ks = []).
  { induction ks as [|k ks IH]; simpl; [reflexivity|].
    rewrite (H k) by (simpl; auto). apply IH. intros; apply H; simpl; auto. }
  assert (E' : omap array_index ks = []).
  { rewrite <- index_keys_filter in E. now destruct (omap array_index ks). }
  rewrite E'. simpl.
  induction ks as [|k ks IH]; simpl; [reflexivity|].
  rewrite (H k) by (simpl; auto). simpl. f_equal. apply IH.
  - intros; apply H; simpl; auto.
  - simpl in E. rewrite (H k) in E by (simpl; auto). exact E.
  - simpl in E'. unfold is_array_index in H. specialize (H k (or_introl eq_refl)).
    destruct (array_index k); [discriminate | exact E'].
Qed.

(** The array-index keys come out in ascending numeric order. *)
Lemma Object_keys_indices_sorted (o : Obj) :
  StronglySorted N.le (merge_sort N.le (omap array_index (created_keys o))).
Proof. apply StronglySorted_merge_sort; apply _. Qed.

Lemma Object_entries_keys (o : Obj) : map fst (Object_entries o) = Object_keys o.
Proof.
  unfold Object_entries. rewrite map_map. simpl. apply map_id.
Qed.

Lemma created_keys_NoDup_assign_all (es : list (string * JsVal)) (o : Obj) :
  NoDup (created_keys o) -> NoDup (created_keys (assign_all es o)).
Proof. intros H. rewrite created_keys_assign_all. now apply insert_keys_NoDup. Qed.

Lemma last_assigned_const (k : string) (v : JsVal) (es : list (string * JsVal))
    (d : option JsVal) :
  (forall e, In e es -> fst e = k -> snd e = v) ->
  last_assigned k es d
  = if existsb (fun e => fst e =? k) es then Some v else d.
Proof.
  unfold last_assigned. revert d.
  induction es as [|[k' v'] es IH]; intros d H; simpl; [reflexivity|].
  rewrite IH by (intros; apply H; simpl; auto).
  destruct (k' =? k) eqn:E; simpl.
  - apply String.eqb_eq in E.
    pose proof (H (k', v') (or_introl eq_refl) E) as Hv. simpl in Hv. subst v'.
    now destruct (existsb _ es).
  - reflexivity.
Qed.

Lemma obj_get_lookup (k : string) (o : Obj) (v : JsVal) :
  obj_lookup k o = Some v -> obj_get k o = v.
Proof. unfold obj_get. now intros ->. Qed.

(** ** [omitNil] *)

Lemma omitNil_lookup (o : Obj) (k : string) :
  obj_lookup k (omitNil o)
  = match obj_lookup k o with
    | Some v => if is_nil v then None else Some v
    | None => None
    end.
Proof.
  unfold omitNil, Object_fromEntries. rewrite obj_lookup_assign_all. simpl.
  rewrite (last_assigned_const k (obj_get k o)).
  2:{ intros [k' v'] [Hin _]%filter_In Hk. simpl in *. subst k'.
      unfold Object_entries in Hin. apply in_map_iff in Hin as (x & [= -> <-] & _).
      reflexivity. }
  destruct (existsb _ _) eqn:Ex.
  - apply existsb_exists in Ex as ([k' v'] & [Hin Hnil]%filter_In & Hk).
    simpl in *. apply String.eqb_eq in Hk. subst k'.
    unfold Object_entries in Hin. apply in_map_iff in Hin as (x & [= -> <-] & Hx).
    apply Object_keys_In, obj_lookup_In in Hx.
    destruct (obj_lookup k o) as [v|] eqn:El; [|congruence].
    rewrite (obj_get_lookup _ _ _ El) in *.
    now destruct (is_nil v).
  - destruct (obj_lookup k o) as [v|] eqn:El; [|reflexivity].
    destruct (is_nil v) eqn:En; [reflexivity|]. exfalso.
    assert (Hin : In k (Object_keys o)).
    { apply Object_keys_In, obj_lookup_In. congruence. }
    assert (Hex : existsb (fun e : string * JsVal => fst e =? k)
              (List.filter (fun e => negb (is_nil (snd e))) (Object_entries o)) = true).
    { apply existsb_exists. exists (k, v). split; [|apply String.eqb_refl].
      apply filter_In. simpl. rewrite En. split; [|reflexivity].
      unfold Object_entries. apply in_map_iff. exists k.
      now rewrite (obj_get_lookup _ _ _ El). }
    congruence.
Qed.


(** ** The dispatch pipeline *)

Section Pipeline.

Variable JSON_parse : string -> Completion JsVal.
Variable NonceState : Type.

Implicit Types (self : RESTv2) (url : string) (reqOpts : RequestInit).
Implicit Types (tr : Transformer) (cb : CallbackArg) (f : CallbackFn).
Implicit Types (s : NonceState) (e : JsError).

(** *** Error classification *)

Lemma apiError_error_unset (resp : Response) (raw : string) :
  error (_apiError JSON_parse resp raw) = JUndefined.
Proof.
  unfold _apiError. destruct (JSON_parse raw) as [parsed|]; [|reflexivity].
  now destruct (Array_isArray parsed && (3 <=? length (elems parsed))%nat).
Qed.

(** [_cb] never touches the message of an error made by [_apiError],
    whatever its [code]. *)
Lemma apiError_not_enriched (resp : Response) (raw : string) :
  enrich (_apiError JSON_parse resp raw) = _apiError JSON_parse resp raw.
Proof.
  unfold enrich, nonce_too_small. now rewrite apiError_error_unset.
Qed.

Lemma apiError_truthy (resp : Response) (raw : string) :
  truthy_thrown (_apiError JSON_parse resp raw) = true.
Proof.
  unfold _apiError. destruct (JSON_parse raw) as [parsed|]; [|reflexivity].
  now destruct (Array_isArray parsed && (3 <=? length (elems parsed))%nat).
Qed.

Ltac run_pipeline :=
  unfold _request, _response, _cb, invoke, outcome, async, call_async,
    try_catch, bind, cbind, lift, emit, ret, throw, promise_of, trace_of,
    failure_promise, failure_call, settle in *;
  simpl in *.

(** Case analysis on what [_cb] is given and on what the callback does
    at each of its calls. *)
Ltac split_cases :=
  repeat match goal with
         | |- context [truthy_thrown (_apiError ?p ?r ?b)] =>
             rewrite (apiError_truthy r b); simpl in *
         | |- context [truthy_thrown ?e] =>
             destruct (truthy_thrown e) eqn:?; simpl in *
         | f : CallbackFn |- context [match ?g ?a ?b with _ => _ end] =>
             constr_eq f g; destruct (f a b) as [[?|[?|?]]|?] eqn:?; simpl in *
         end.

(** Follow one dispatch stage by stage: transport, body, status, parse,
    transform. *)
Ltac walk :=
  run_pipeline;
  repeat match goal with
         | |- context [_fetch ?self ?url ?o] =>
             destruct (_fetch self url o) eqn:?; simpl in *
         | |- context [resp_text ?r] =>
             destruct (resp_text r) eqn:?; simpl in *
         | |- context [resp_ok ?r] =>
             destruct (resp_ok r) eqn:?; simpl in *
         | |- context [JSON_parse ?raw] =>
             destruct (JSON_parse raw) eqn:?; simpl in *
         | |- context [transformed ?a ?b ?c] =>
             destruct (transformed a b c) eqn:?; simpl in *
         end.

(** Names the thrown value behind a call of the callback. *)
Ltac name_failure :=
  match goal with
  | H : truthy_thrown ?e = _ |- exists x, _ = CallbackInvoked _ _ =>
      exists e; unfold failure_call; rewrite H; reflexivity
  end.

(** A failure is classified exactly when the try-body throws it. *)
Lemma outcome_Classified self url reqOpts tr e :
  outcome JSON_parse self url reqOpts tr = Throw e
  <-> Classified JSON_parse self url reqOpts tr e.
Proof.
  split.
  - unfold outcome, cbind.
    destruct (_fetch self url reqOpts) as [resp|e0] eqn:Hf;
      [|intros [= <-]; now apply TransportFailed].
    destruct (resp_text resp) as [raw|e0] eqn:Ht;
      [|intros [= <-]; now apply (BodyUnreadable _ _ _ _ _ resp)].
    destruct (resp_ok resp) eqn:Hok; simpl;
      [|intros [= <-]; now apply HttpFailure].
    destruct (JSON_parse raw) as [json|e0] eqn:Hp;
      [|intros [= <-]; now apply (InvalidResponse _ _ _ _ _ resp raw)].
    intros Htr. now apply (TransformFailure _ _ _ _ _ resp raw json).
  - intros [e0 Hf|resp e0 Hf Ht|resp raw Hf Ht Hok|resp raw e0 Hf Ht Hok Hp
            |resp raw json e0 Hf Ht Hok Hp Htr];
      unfold outcome, cbind; rewrite Hf; try rewrite Ht; try rewrite Hok;
      simpl; try rewrite Hp; auto.
Qed.

(** Without a callback function the promise carries the outcome; the
    transport is called once. *)
Lemma request_no_callback self url reqOpts tr (v : JsVal) s :
  _request JSON_parse self url reqOpts tr (CbOther v) s
  = (match outcome JSON_parse self url reqOpts tr with
     | Normal res => Resolved res
     | Throw e => failure_promise e
     end, s, [Fetched url reqOpts]).
Proof. walk; split_cases; reflexivity. Qed.

(** With a callback function: the first call of the callback carries the
    outcome, and every event after the fetch is a call of the callback
    for an exception of its own. *)
Lemma request_callback_first self url reqOpts tr f s :
  exists rest,
    trace_of (_request JSON_parse self url reqOpts tr (CbFunction f) s)
    = Fetched url reqOpts
      :: match outcome JSON_parse self url reqOpts tr with
         | Normal res => CallbackInvoked None res
         | Throw e =>
             CallbackInvoked (fst (failure_call e)) (snd (failure_call e))
         end
      :: rest
    /\ Forall (fun ev =>
                 exists e,
                   ev = CallbackInvoked (fst (failure_call e))
                          (snd (failure_call e))) rest.
Proof.
  walk; split_cases; eexists; (split; [reflexivity|]);
    repeat (constructor; try name_failure).
Qed.

(** A callback that returns normally is called exactly once, and its
    return value settles the promise. *)
Lemma request_callback_once self url reqOpts tr f s :
  (forall err res, exists v, settle (f err res) = Resolved v) ->
  _request JSON_parse self url reqOpts tr (CbFunction f) s
  = match outcome JSON_parse self url reqOpts tr with
    | Normal res =>
        (settle (f None res), s, [Fetched url reqOpts; CallbackInvoked None res])
    | Throw e =>
        (settle (f (fst (failure_call e)) (snd (failure_call e))), s,
         [Fetched url reqOpts;
          CallbackInvoked (fst (failure_call e)) (snd (failure_call e))])
    end.
Proof.
  intros Hf. walk; split_cases; try reflexivity;
    match goal with
    | H : f ?a ?b = Throw _ |- _ =>
        destruct (Hf a b) as [? Hs]; rewrite H in Hs; discriminate
    end.
Qed.

Lemma request_fetches_once self url reqOpts tr cb s :
  List.filter is_fetch (trace_of (_request JSON_parse self url reqOpts tr cb s))
  = [Fetched url reqOpts].
Proof.
  destruct cb as [f|v].
  - destruct (request_callback_first self url reqOpts tr f s) as (rest & -> & Hrest).
    simpl. destruct (outcome _ _ _ _ _); simpl; f_equal;
      induction Hrest as [|ev rest [x ->] _ IH]; simpl; auto.
  - now rewrite request_no_callback.
Qed.

Lemma request_signs_nothing self url reqOpts tr cb s :
  omap sign_call (trace_of (_request JSON_parse self url reqOpts tr cb s)) = [].
Proof.
  destruct cb as [f|v].
  - destruct (request_callback_first self url reqOpts tr f s) as (rest & -> & Hrest).
    simpl. destruct (outcome _ _ _ _ _); simpl;
      induction Hrest as [|ev rest [x ->] _ IH]; simpl; auto.
  - now rewrite request_no_callback.
Qed.

(** C3. For a non-success response with status [s], status text [t] and
    raw body [b], [_apiError] returns an error whose message is
    "HTTP code s t" and whose [status] and [statustext] are [s] and [t];
    when [b] parses to an array of at least three elements, [code] is its
    element 1 and [response] its element 2; when [b] parses to anything
    else, [response] is the parsed value and [code] stays unset; when [b]
    does not parse, [response] is the string [b] and [code] stays unset. *)
Theorem C3_api_error_shape (resp : Response) (raw : string) :
  let err := _apiError JSON_parse resp raw in
  message err
  = "HTTP code " ++ string_of_N (resp_status resp) ++ " " ++ resp_statusText resp
  /\ status err = Some (resp_status resp)
  /\ statustext err = Some (resp_statusText resp)
  /\ (forall l, JSON_parse raw = Normal (JArr l) -> (3 <= length l)%nat ->
      code err = Some (index l 1) /\ response err = Some (index l 2))
  /\ (forall parsed, JSON_parse raw = Normal parsed ->
      (forall l, parsed = JArr l -> (length l < 3)%nat) ->
      code err = None /\ response err = Some parsed)
  /\ (forall x, JSON_parse raw = Throw x ->
      code err = None /\ response err = Some (JStr raw)).
Proof.
  cbv zeta. unfold _apiError. rewrite str_or_empty.
  split; [|split; [|split; [|split; [|split]]]].
  1-3: destruct (JSON_parse raw) as [p|]; [|reflexivity];
       now destruct (Array_isArray p && (3 <=? length (elems p))%nat).
  - intros l -> Hlen. apply Nat.leb_le in Hlen.
    cbn [Array_isArray elems andb]. rewrite Hlen. auto.
  - intros parsed -> Hshort.
    destruct parsed as [| | | | |l|]; cbn [Array_isArray elems andb]; auto.
    specialize (Hshort l eq_refl).
    destruct (3 <=? length l)%nat eqn:E; [apply Nat.leb_le in E; lia|auto].
  - intros x ->. auto.
Qed.

(** *** Surfacing *)

(** An exception of a row constructor makes the transform step throw:
    the rows before it are constructed, the rest is not looked at. *)
Lemma row_failure_transformed self (M : JsVal -> RESTv2 -> Completion JsVal)
    (pre post : list JsVal) (row : JsVal) e :
  _transform self = true ->
  Array_isArray (index (pre ++ row :: post) 0) = true ->
  Forall (fun r => exists inst, M r self = Normal inst) pre ->
  M row self = Throw e ->
  transformed self (JArr (pre ++ row :: post)) (TClass M) = Throw e.
Proof.
  intros Hflag Hfirst Hpre Hrow. unfold transformed. rewrite Hflag.
  cbn [_doTransform]. unfold _classTransform. rewrite Hflag.
  cbn [truthy negb orb Array_isArray elems andb]. rewrite Hfirst.
  assert (Hlen : (length (pre ++ row :: post) =? 0)%nat = false)
    by now destruct pre.
  rewrite Hlen.
  assert (Hmap : map_completion (fun r => M r self) (pre ++ row :: post)
                 = Throw e).
  { clear Hfirst Hlen. induction Hpre as [|r pre [inst Hr] _ IH]; simpl.
    - now rewrite Hrow.
    - now rewrite Hr, IH. }
  now rewrite Hmap.
Qed.

(** C9 (amended). Every classified failure of a dispatch (transport
    failure, unreadable body, non-success status, unparsable success
    body, an exception thrown inside the transformer) whose thrown value
    is truthy, as every object is and so every [Error], reaches the caller
    as a rejected outcome carrying it, as [_cb] hands it on: it rejects
    the returned promise, or, when the caller passed a callback function,
    it is the first argument of the callback's first call. The transport
    is called once (no retry); the callback is never handed a result,
    partial or whole (a call without error carries [null]); and the
    pipeline itself never resolves the promise of such a dispatch. An
    exception of a model constructor on a row of a two-dimensional answer
    is such a failure. A falsy thrown value ([undefined], [null], [0],
    the empty string, [false], [NaN]) is no error to [_cb]: the dispatch
    then ends like a success with the result [null]. *)
Theorem C9_errors_reach_the_caller self url reqOpts tr cb s :
  let out := _request JSON_parse self url reqOpts tr cb s in
  (forall e,
     Classified JSON_parse self url reqOpts tr e ->
     truthy_thrown e = true ->
     surfaced e cb out
     /\ List.filter is_fetch (trace_of out) = [Fetched url reqOpts]
     /\ (forall res, In (CallbackInvoked None res) (trace_of out) -> res = JNull)
     /\ (forall v, promise_of out = Resolved v -> exists f, cb = CbFunction f))
  /\ (forall e,
        Classified JSON_parse self url reqOpts tr e ->
        truthy_thrown e = false ->
        match cb with
        | CbOther _ => promise_of out = Resolved JNull
        | CbFunction _ =>
            exists rest,
              omap callback_call (trace_of out) = (None, JNull) :: rest
        end)
  /\ (forall M resp raw pre row post e,
        tr = TClass M ->
        _transform self = true ->
        _fetch self url reqOpts = Normal resp ->
        resp_text resp = Normal raw ->
        resp_ok resp = true ->
        JSON_parse raw = Normal (JArr (pre ++ row :: post)) ->
        Array_isArray (index (pre ++ row :: post) 0) = true ->
        Forall (fun r => exists inst, M r self = Normal inst) pre ->
        M row self = Throw e ->
        Classified JSON_parse self url reqOpts tr e).
Proof.
  cbv zeta. split; [|split].
  2:{ intros e Hc%outcome_Classified He. destruct cb as [f|v].
      - destruct (request_callback_first self url reqOpts tr f s)
          as (rest & -> & _).
        rewrite Hc. unfold failure_call. rewrite He. simpl. eauto.
      - rewrite request_no_callback, Hc. unfold failure_promise.
        now rewrite He. }
  - intros e Hc%outcome_Classified He.
    split; [|split; [apply request_fetches_once|]].
    + destruct cb as [f|v]; simpl.
      * destruct (request_callback_first self url reqOpts tr f s)
          as (rest & -> & _).
        rewrite Hc. unfold failure_call. rewrite He. simpl. eauto.
      * rewrite request_no_callback, Hc. unfold failure_promise.
        now rewrite He.
    + destruct cb as [f|v].
      * destruct (request_callback_first self url reqOpts tr f s)
          as (rest & -> & Hrest).
        rewrite Hc. unfold failure_call at 1 2. rewrite He. split; [|eauto].
        intros res [H|[H|H]]; try discriminate.
        rewrite Forall_forall in Hrest.
        apply list_elem_of_In, Hrest in H as [x H]. unfold failure_call in H.
        destruct (truthy_thrown x); [discriminate|]. now injection H.
      * rewrite request_no_callback, Hc. unfold failure_promise. rewrite He.
        simpl. split.
        -- intros res [H|[]]. discriminate.
        -- discriminate.
  - intros M resp raw pre row post e -> Hflag Hfetch Htext Hok Hparse Hfirst
      Hpre Hrow.
    apply (TransformFailure _ _ _ _ _ resp raw (JArr (pre ++ row :: post)));
      auto.
    now apply row_failure_transformed.
Qed.

(** C10 (amended). When the caller passes a callback function that
    returns normally at each call (it neither throws nor returns a
    rejected promise), the promise of the dispatch never rejects: the
    callback is called exactly once, on success with [(null, result)], on
    failure with the error as its first argument (with [(null, null)]
    when the thrown value is falsy), and the promise settles as the
    callback's return value does. *)
Theorem C10_callback_settles_promise self url reqOpts tr f s :
  (forall err res, exists v, settle (f err res) = Resolved v) ->
  let out := _request JSON_parse self url reqOpts tr (CbFunction f) s in
  (exists v, promise_of out = Resolved v)
  /\ match outcome JSON_parse self url reqOpts tr with
     | Throw e =>
         if truthy_thrown e
         then
           omap callback_call (trace_of out) = [(Some (enrich e), JUndefined)]
           /\ promise_of out = settle (f (Some (enrich e)) JUndefined)
         else
           omap callback_call (trace_of out) = [(None, JNull)]
           /\ promise_of out = settle (f None JNull)
     | Normal res =>
         omap callback_call (trace_of out) = [(None, res)]
         /\ promise_of out = settle (f None res)
     end.
Proof.
  intros Hf out. subst out. rewrite (request_callback_once _ _ _ _ _ _ Hf).
  destruct (outcome JSON_parse self url reqOpts tr) as [res|e]; simpl;
    [split; [apply Hf | split; reflexivity]|].
  unfold failure_call. destruct (truthy_thrown e); simpl;
    (split; [apply Hf | split; reflexivity]).
Qed.

End Pipeline.

(** ** Response transformation *)

Lemma map_completion_all {A B} (f : A -> Completion B) (l : list A) (ys : list B) :
  Forall2 (fun x y => f x = Normal y) l ys -> map_completion f l = Normal ys.
Proof.
  induction 1 as [|x y l ys Hx _ IH]; simpl; [reflexivity|].
  now rewrite Hx, IH.
Qed.

Lemma map_completion_throw {A B} (f : A -> Completion B) (l : list A) (e : JsError) :
  map_completion f l = Throw e -> exists x, In x l /\ f x = Throw e.
Proof.
  induction l as [|x l IH]; simpl; [discriminate|].
  destruct (f x) as [y|e0] eqn:Hx.
  - destruct (map_completion f l) as [ys|e1]; [discriminate|].
    intros [= ->]. destruct (IH eq_refl) as (x' & Hin & Hx'). eauto.
  - intros [= ->]. eauto.
Qed.

(** C4. The transform step of [_response] returns the datum unchanged when
    the client's transform flag is off or the transformer is [null]. With
    the flag on and a model class: a falsy or empty datum gives the empty
    array; an array whose first element is an array gives one constructed
    instance per element, in order; any other datum gives the single
    instance constructed from all of it. With the flag on and a plain
    function, the result is the function's result on the datum. *)
Theorem C4_transform_step (self : RESTv2) (data : JsVal) (tr : Transformer) :
  (_transform self = false \/ tr = TNull -> transformed self data tr = Normal data)
  /\ (forall M, tr = TClass M -> _transform self = true ->
      (truthy data = false \/ data = JArr [] ->
       transformed self data tr = Normal (JArr []))
      /\ (forall rows, data = JArr rows -> Array_isArray (index rows 0) = true ->
          (forall insts,
              Forall2 (fun row inst => M row self = Normal inst) rows insts ->
              transformed self data tr = Normal (JArr insts))
          /\ (forall e, transformed self data tr = Throw e ->
              exists row, In row rows /\ M row self = Throw e))
      /\ (truthy data = true -> data <> JArr [] ->
          (forall rows, data = JArr rows -> Array_isArray (index rows 0) = false) ->
          transformed self data tr = M data self))
  /\ (forall g, tr = TFunction g -> _transform self = true ->
      transformed self data tr = g data).
Proof.
  unfold transformed. split; [|split].
  - intros [->| ->]; [reflexivity|]. now destruct (_transform self).
  - intros M -> Hflag. rewrite Hflag. cbn [_doTransform].
    unfold _classTransform. rewrite Hflag. simpl.
    split; [|split].
    + intros [->| ->]; reflexivity.
    + intros rows -> Hrow.
      assert (Hne : (length rows =? 0)%nat = false) by now destruct rows.
      cbn [truthy negb orb Array_isArray elems andb]. rewrite Hne, Hrow.
      split.
      * intros insts Hall. now rewrite (map_completion_all _ _ _ Hall).
      * intros e. destruct (map_completion _ rows) as [ys|e0] eqn:Hm;
          [discriminate|]. intros [= ->]. now apply map_completion_throw.
    + intros Ht Hne Hflat. rewrite Ht. cbn [negb orb].
      destruct data as [| | | | |rows|]; cbn [Array_isArray elems andb]; auto.
      destruct rows as [|r rows]; [congruence|]. cbn [length Nat.eqb].
      now rewrite (Hflat _ eq_refl).
  - intros g -> ->. reflexivity.
Qed.

(** ** Construction *)

Section Construction.

Variable globalThis_fetch : FetchFn.

(** What [_checkOpts] does check: construction throws
    [ERR_TIMEOUT_DATA_TYPE_ERROR], as a synchronous throw of the
    constructor, exactly when a timeout is supplied (neither [undefined]
    nor [null]) and is not an integer. Without a timeout it succeeds with
    the default of 15000; with any integer it succeeds and keeps it. *)
Lemma timeout_validation (opts : RESTv2Options) :
  (is_nil (timeout opts) = false -> Number_isInteger (timeout opts) = false ->
   new_RESTv2 globalThis_fetch opts = Throw (Error "ERR_TIMEOUT_DATA_TYPE_ERROR"))
  /\ (is_nil (timeout opts) = true ->
      exists rest, new_RESTv2 globalThis_fetch opts = Normal rest
                   /\ _timeout rest = BASE_TIMEOUT)
  /\ (forall n, timeout opts = JNum n -> Number_isInteger (JNum n) = true ->
      exists rest, new_RESTv2 globalThis_fetch opts = Normal rest
                   /\ _timeout rest = n).
Proof.
  unfold new_RESTv2, _checkOpts. split; [|split].
  - intros -> ->. reflexivity.
  - intros Hnil. rewrite Hnil. simpl. eexists. split; [reflexivity|]. simpl.
    destruct (timeout opts); try reflexivity; discriminate.
  - intros n Ht Hint. rewrite Ht, Hint. rewrite andb_false_r.
    eexists. split; reflexivity.
Qed.

End Construction.

(** The constructor calls of the test suite: 1.5, a string and [NaN] are
    refused, 5000 and no timeout are accepted. *)
Lemma timeout_validation_examples :
  new_RESTv2 Mock.offline (timeout_only (JNum (Finite (3 # 2))))
  = Throw (Error "ERR_TIMEOUT_DATA_TYPE_ERROR")
  /\ new_RESTv2 Mock.offline (timeout_only (JStr "abc"))
     = Throw (Error "ERR_TIMEOUT_DATA_TYPE_ERROR")
  /\ new_RESTv2 Mock.offline (timeout_only (JNum NaN))
     = Throw (Error "ERR_TIMEOUT_DATA_TYPE_ERROR")
  /\ (exists rest, new_RESTv2 Mock.offline (timeout_only (num_of_Z 5000)) = Normal rest
                   /\ _timeout rest = Finite (inject_Z 5000))
  /\ (exists rest, new_RESTv2 Mock.offline no_options = Normal rest
                   /\ _timeout rest = BASE_TIMEOUT).
Proof.
  split; [|split; [|split; [|split]]].
  - apply (proj1 (timeout_validation Mock.offline _)); reflexivity.
  - apply (proj1 (timeout_validation Mock.offline _)); reflexivity.
  - apply (proj1 (timeout_validation Mock.offline _)); reflexivity.
  - apply (proj2 (proj2 (timeout_validation Mock.offline
                           (timeout_only (num_of_Z 5000))))); reflexivity.
  - apply (proj1 (proj2 (timeout_validation Mock.offline no_options)));
      reflexivity.
Defined.

(** C5, at the failing input [new RESTv2({ timeout: -1 })]: the timeout
    is supplied and is not a positive integer, as the documentation of
    the option requires, yet construction succeeds and keeps -1. The
    failure is deferred to the first request, where [AbortSignal.timeout]
    refuses the delay: the promise of the request is rejected, and
    nothing is sent. *)
Theorem C5_negative_timeout_accepted :
  is_nil (num_of_Z (-1)) = false
  /\ positive_integer (num_of_Z (-1)) = false
  /\ exists rest,
       new_RESTv2 Mock.offline (timeout_only (num_of_Z (-1))) = Normal rest
       /\ rest = {| _url := API_URL; _apiKey := ""; _apiSecret := "";
                    _authToken := ""; _company := ""; _transform := false;
                    _timeout := Finite (inject_Z (-1)); _affCode := JUndefined;
                    _fetch := Mock.offline |}
       /\ _makePublicRequest Mock.JSON_parse Mock.AbortSignal_timeout N rest
            "/platform/status" (CbOther JNull) TNull 0%N
          = (Rejected (Error "The value of delay is out of range"), 0%N, []).
Proof.
  split; [reflexivity|]. split; [reflexivity|].
  eexists. split; [reflexivity|]. split; reflexivity.
Qed.

(** ** Authenticated requests *)

Section AuthRequest.

Variable JSON_parse : string -> Completion JsVal.
Variable JSON_stringify : JsVal -> string.
Variable AbortSignal_timeout : number -> Completion AbortSignal.
Variable NonceState : Type.
Variable nonce : NonceState -> string * NonceState.
Variable genAuthSig : string -> string -> NonceState -> string * NonceState.

Local Abbreviation makeAuthRequest :=
  (_makeAuthRequest JSON_parse JSON_stringify AbortSignal_timeout NonceState
     nonce genAuthSig).

Local Abbreviation canonical_string :=
  (canonical_string JSON_stringify NonceState nonce).

Lemma makeAuthRequest_sign_calls (self : RESTv2) (path : string)
    (payload : option Obj) (cb : CallbackArg) (tr : Transformer) (s : NonceState) :
  omap sign_call (trace_of (makeAuthRequest self path payload cb tr s))
  = if ((_apiKey self =? "") || (_apiSecret self =? "")) && (_authToken self =? "")
    then []
    else if negb (_authToken self =? "") then []
    else [(_apiSecret self, canonical_string path payload s)].
Proof.
  unfold _makeAuthRequest, canonical_string, async, trace_of.
  destruct (((_apiKey self =? "") || (_apiSecret self =? ""))
            && (_authToken self =? "")) eqn:Hmiss.
  - unfold _cb, invoke, bind, emit, lift, ret. destruct cb; reflexivity.
  - unfold bind at 1, draw_nonce. destruct (nonce s) as [n s1] eqn:Hn.
    cbn [fst].
    destruct (negb (_authToken self =? "")) eqn:Htok;
      unfold sign, bind, ret, emit, lift, call_async; cbn [app];
      try match goal with
          | |- context [genAuthSig ?k ?p ?st] =>
              destruct (genAuthSig k p st) as [sg sx]
          end;
      destruct (AbortSignal_timeout (_timeout self)) as [sig|e]; try reflexivity;
      match goal with
      | |- context [_request ?p ?c ?u ?o ?t ?k ?st] =>
          pose proof (request_signs_nothing p NonceState c u o t k st) as Hreq;
          destruct (_request p c u o t k st) as [[pr s2] tq]
      end;
      unfold trace_of in Hreq; cbn [snd] in Hreq; cbn; now rewrite Hreq.
Qed.

(** C1. Whenever [_makeAuthRequest] calls the signer for path [p] and a
    payload, it passes the client's secret and the string made of
    "/api/v2", then [p], then the nonce drawn for the call, then the JSON
    serialization of the nil-stripped payload, with nothing in between;
    with key and secret set and no token, it signs exactly once.
    Nil-stripping keeps a property exactly when its value is neither [null]
    nor [undefined]: an empty string stays. *)
Theorem C1_canonical_string (self : RESTv2) (path : string)
    (payload : option Obj) (cb : CallbackArg) (tr : Transformer) (s : NonceState) :
  let out := makeAuthRequest self path payload cb tr s in
  let body := match payload with Some o => o | None => [] end in
  let canonical :=
    "/api/v2" ++ path ++ fst (nonce s) ++ JSON_stringify (JObj (omitNil body)) in
  (forall secret str, In (secret, str) (omap sign_call (trace_of out)) ->
     secret = _apiSecret self /\ str = canonical)
  /\ (_apiKey self <> "" -> _apiSecret self <> "" -> _authToken self = "" ->
      omap sign_call (trace_of out) = [(_apiSecret self, canonical)])
  /\ (forall k,
        obj_lookup k (omitNil body)
        = match obj_lookup k body with
          | Some v => if is_nil v then None else Some v
          | None => None
          end)
  /\ (forall k, obj_lookup k body = Some (JStr "") ->
        obj_lookup k (omitNil body) = Some (JStr "")).
Proof.
  cbv zeta. rewrite makeAuthRequest_sign_calls. unfold canonical_string.
  split; [|split; [|split]].
  - intros secret str.
    destruct (((_apiKey self =? "") || (_apiSecret self =? ""))
              && (_authToken self =? "")); [intros []|].
    destruct (negb (_authToken self =? "")); [intros []|].
    intros [[= <- <-]|[]]. auto.
  - intros Hk%String.eqb_neq Hs%String.eqb_neq ->.
    rewrite Hk, Hs. reflexivity.
  - intros k. apply omitNil_lookup.
  - intros k Hk. now rewrite omitNil_lookup, Hk.
Qed.

(** C2. On a client that has neither (a non-empty key and a non-empty
    secret) nor a non-empty token, [_makeAuthRequest] fails with the
    missing-credentials error and never calls the transport: without a
    callback function the promise rejects with that error and nothing else
    happens; with one, the callback is called once with that error and
    nothing else happens. The call comes out the same whatever transport
    is injected. *)
Theorem C2_missing_credentials (self : RESTv2) (path : string)
    (payload : option Obj) (cb : CallbackArg) (tr : Transformer) (s : NonceState) :
  _apiKey self = "" \/ _apiSecret self = "" ->
  _authToken self = "" ->
  let out := makeAuthRequest self path payload cb tr s in
  let e := Error "missing api key or secret" in
  List.filter is_fetch (trace_of out) = []
  /\ match cb with
     | CbOther _ => promise_of out = Rejected e /\ trace_of out = []
     | CbFunction f =>
         trace_of out = [CallbackInvoked (Some e) JUndefined]
         /\ promise_of out = settle (f (Some e) JUndefined)
     end
  /\ (forall transport,
        makeAuthRequest (set_fetch self transport) path payload cb tr s = out).
Proof.
  intros Hcred Htok. cbv zeta. unfold _makeAuthRequest, async.
  assert (Hmiss : ((_apiKey self =? "") || (_apiSecret self =? ""))
                  && (_authToken self =? "") = true).
  { rewrite Htok. destruct Hcred as [-> | ->]; simpl; [reflexivity|].
    now rewrite orb_true_r. }
  cbn [set_fetch _apiKey _apiSecret _authToken].
  rewrite Hmiss. destruct cb as [f|v]; simpl; auto.
Qed.

End AuthRequest.

(** ** Closed instances on the mock platform *)

(** The golden case of the signer: secret "secret", path /auth/r/orders,
    nonce "1", empty body. *)
Lemma C1_canonical_string_example :
  omap sign_call
    (trace_of
       (_makeAuthRequest Mock.JSON_parse Mock.JSON_stringify
          Mock.AbortSignal_timeout N Mock.nonce Mock.genAuthSig
          (Mock.rest "key" "secret" "" false Mock.offline)
          "/auth/r/orders" (Some []) (CbOther JNull) TNull 1%N))
  = [("secret", "/api/v2/auth/r/orders1{}")].
Proof.
  exact (proj1 (proj2 (C1_canonical_string Mock.JSON_parse Mock.JSON_stringify
                         Mock.AbortSignal_timeout N Mock.nonce Mock.genAuthSig
                         (Mock.rest "key" "secret" "" false Mock.offline)
                         "/auth/r/orders" (Some []) (CbOther JNull) TNull 1%N))
               ltac:(discriminate) ltac:(discriminate) eq_refl).
Defined.

Lemma C2_missing_credentials_witness :
  (_apiKey (Mock.rest "" "" "" false Mock.offline) = ""
   \/ _apiSecret (Mock.rest "" "" "" false Mock.offline) = "")
  /\ _authToken (Mock.rest "" "" "" false Mock.offline) = ""
  /\ List.filter is_fetch
       (trace_of
          (_makeAuthRequest Mock.JSON_parse Mock.JSON_stringify
             Mock.AbortSignal_timeout N Mock.nonce Mock.genAuthSig
             (Mock.rest "" "" "" false Mock.offline)
             "/auth/r/wallets" None (CbOther JNull) TNull 0%N)) = []
  /\ promise_of
       (_makeAuthRequest Mock.JSON_parse Mock.JSON_stringify
          Mock.AbortSignal_timeout N Mock.nonce Mock.genAuthSig
          (Mock.rest "" "" "" false Mock.offline)
          "/auth/r/wallets" None (CbOther JNull) TNull 0%N)
     = Rejected (Error "missing api key or secret").
Proof.
  split; [left; reflexivity|]. split; [reflexivity|].
  pose proof (C2_missing_credentials Mock.JSON_parse Mock.JSON_stringify
                Mock.AbortSignal_timeout N Mock.nonce Mock.genAuthSig
                (Mock.rest "" "" "" false Mock.offline)
                "/auth/r/wallets" None (CbOther JNull) TNull 0%N
                (or_introl eq_refl) eq_refl) as [Hfetch [[Hrej _] _]].
  split; [exact Hfetch | exact Hrej].
Defined.

(** The three bodies of the error classifier's tests. *)
Lemma C3_api_error_examples :
  (let err := _apiError Mock.JSON_parse
                (mkResponse 400 "Bad Request" false (Normal Mock.rate_limit_body))
                Mock.rate_limit_body in
   status err = Some 400%N /\ code err = Some (num_of_Z 10010)
   /\ response err = Some (JStr "ERR_RATE_LIMIT"))
  /\ (let err := _apiError Mock.JSON_parse
                   (mkResponse 500 "Internal Server Error" false
                      (Normal Mock.internal_body))
                   Mock.internal_body in
      status err = Some 500%N /\ code err = None
      /\ response err = Some (JObj [("error", JStr "internal")]))
  /\ (let err := _apiError Mock.JSON_parse
                   (mkResponse 502 "Bad Gateway" false (Normal "Bad Gateway"))
                   "Bad Gateway" in
      status err = Some 502%N /\ code err = None
      /\ response err = Some (JStr "Bad Gateway")).
Proof.
  split; [|split]; cbv zeta.
  - destruct (C3_api_error_shape Mock.JSON_parse
                (mkResponse 400 "Bad Request" false (Normal Mock.rate_limit_body))
                Mock.rate_limit_body) as (_ & Hs & _ & Harr & _).
    split; [exact Hs|]. exact (Harr _ eq_refl ltac:(simpl; lia)).
  - destruct (C3_api_error_shape Mock.JSON_parse
                (mkResponse 500 "Internal Server Error" false
                   (Normal Mock.internal_body))
                Mock.internal_body) as (_ & Hs & _ & _ & Hother & _).
    split; [exact Hs|]. apply (Hother _ eq_refl). discriminate.
  - destruct (C3_api_error_shape Mock.JSON_parse
                (mkResponse 502 "Bad Gateway" false (Normal "Bad Gateway"))
                "Bad Gateway") as (_ & Hs & _ & _ & _ & Hraw).
    split; [exact Hs|]. apply (Hraw _ eq_refl).
Defined.

(** A 500 answer rejects the promise of a call without callback, and so
    does a model constructor that throws on the last of six rows. *)
Lemma C9_errors_reach_the_caller_witness :
  Classified Mock.JSON_parse
    (Mock.rest "" "" "" false
       (Mock.respond 500 "Internal Server Error" Mock.internal_body))
    "https://api.bitfinex.com/v2/platform/status" Mock.get TNull
    (_apiError Mock.JSON_parse
       (mkResponse 500 "Internal Server Error" false (Normal Mock.internal_body))
       Mock.internal_body)
  /\ promise_of
       (_request Mock.JSON_parse
          (Mock.rest "" "" "" false
             (Mock.respond 500 "Internal Server Error" Mock.internal_body))
          "https://api.bitfinex.com/v2/platform/status" Mock.get TNull
          (CbOther JNull) 0%N)
     = Rejected
         (mkError "HTTP code 500 Internal Server Error" (Some 500%N)
            (Some "Internal Server Error") None
            (Some (JObj [("error", JStr "internal")])) JUndefined)
  /\ promise_of
       (_request Mock.JSON_parse_conf
          (Mock.rest "" "" "" true
             (Mock.respond 200 "OK" Mock.currency_conf_body))
          "https://api.bitfinex.com/v2/conf/pub:list:currency" Mock.get
          (TClass Mock.Strict) (CbOther JNull) 0%N)
     = Rejected (Error "empty row").
Proof.
  assert (H : Classified Mock.JSON_parse
    (Mock.rest "" "" "" false
       (Mock.respond 500 "Internal Server Error" Mock.internal_body))
    "https://api.bitfinex.com/v2/platform/status" Mock.get TNull
    (_apiError Mock.JSON_parse
       (mkResponse 500 "Internal Server Error" false (Normal Mock.internal_body))
       Mock.internal_body)).
  { apply (HttpFailure _ _ _ _ _
             (mkResponse 500 "Internal Server Error" false
                (Normal Mock.internal_body)) Mock.internal_body);
      reflexivity. }
  split; [exact H|]. split.
  - exact (proj1 (proj1 (C9_errors_reach_the_caller Mock.JSON_parse N _ _ _ _
                           (CbOther JNull) 0%N) _ H eq_refl)).
  - assert (H2 : Classified Mock.JSON_parse_conf
              (Mock.rest "" "" "" true
                 (Mock.respond 200 "OK" Mock.currency_conf_body))
              "https://api.bitfinex.com/v2/conf/pub:list:currency" Mock.get
              (TClass Mock.Strict) (Error "empty row")).
    { apply (proj2 (proj2 (C9_errors_reach_the_caller Mock.JSON_parse_conf N
                      (Mock.rest "" "" "" true
                         (Mock.respond 200 "OK" Mock.currency_conf_body))
                      "https://api.bitfinex.com/v2/conf/pub:list:currency"
                      Mock.get (TClass Mock.Strict) (CbOther JNull) 0%N))
               Mock.Strict
               (mkResponse 200 "OK" true (Normal Mock.currency_conf_body))
               Mock.currency_conf_body
               [JArr [JStr "USDT"];
                JArr [JArr [JStr "USDT"; JStr "USDT"]];
                JArr [JArr [JStr "USDT"; JStr "Tether"]];
                JArr [JArr [JStr "USDT"; JStr "ETH"]];
                JArr [JArr [JStr "ETH"; JArr [JStr "https://etherscan.io"]]]]
               (JArr []) []);
        try reflexivity.
      repeat constructor; eexists; reflexivity. }
    exact (proj1 (proj1 (C9_errors_reach_the_caller Mock.JSON_parse_conf N _ _
                           _ _ (CbOther JNull) 0%N) _ H2 eq_refl)).
Defined.

(** C9, as stated, fails: [_cb] tests the error for truthiness, so a
    transport whose promise is rejected with [undefined] is a classified
    failure that the caller never sees; the promise of the dispatch
    resolves, with [null]. *)
Lemma C9_falsy_rejection_is_swallowed :
  Classified Mock.JSON_parse
    (Mock.rest "" "" "" false (Mock.rejecting_with PUndefined))
    "https://api.bitfinex.com/v2/platform/status" Mock.get TNull
    (ThrownPrimitive PUndefined)
  /\ promise_of
       (_request Mock.JSON_parse
          (Mock.rest "" "" "" false (Mock.rejecting_with PUndefined))
          "https://api.bitfinex.com/v2/platform/status" Mock.get TNull
          (CbOther JNull) 0%N)
     = Resolved JNull.
Proof.
  split; [|reflexivity].
  apply TransportFailed. reflexivity.
Qed.

(** A quiet callback receives the error of an offline transport, and the
    promise resolves. *)
Lemma C10_callback_settles_promise_witness :
  (forall err res, exists v, settle (Mock.quiet_callback err res) = Resolved v)
  /\ exists v,
       promise_of
         (_request Mock.JSON_parse (Mock.rest "" "" "" false Mock.offline)
            "https://api.bitfinex.com/v2/platform/status" Mock.get TNull
            (CbFunction Mock.quiet_callback) 0%N)
       = Resolved v.
Proof.
  assert (H : forall err res,
             exists v, settle (Mock.quiet_callback err res) = Resolved v)
    by (intros; eexists; reflexivity).
  split; [exact H|].
  exact (proj1 (C10_callback_settles_promise Mock.JSON_parse N
                  (Mock.rest "" "" "" false Mock.offline)
                  "https://api.bitfinex.com/v2/platform/status" Mock.get TNull
                  Mock.quiet_callback 0%N H)).
Defined.

(** C10, as stated, fails: a callback function that throws makes the
    promise of the dispatch reject, here with the callback's own error. *)
Lemma C10_throwing_callback_rejects :
  promise_of
    (_request Mock.JSON_parse (Mock.rest "" "" "" false Mock.offline)
       "https://api.bitfinex.com/v2/platform/status" Mock.get TNull
       (CbFunction Mock.throwing_callback) 0%N)
  = Rejected (Error "callback failed").
Proof. reflexivity. Qed.

(** C6 at the failing input: a 500 answer whose body is the exchange's
    error triple with code 10114. The surfaced error has that [code], and
    its message is the bare "HTTP code ..." text, without the help link. *)
Theorem C6_nonce_error_without_help_link :
  promise_of
    (_request Mock.JSON_parse
       (Mock.rest "key" "secret" "" false
          (Mock.respond 500 "Internal Server Error" Mock.nonce_small_body))
       "https://api.bitfinex.com/v2/auth/r/wallets" Mock.get TNull
       (CbOther JNull) 0%N)
  = Rejected
      (mkError "HTTP code 500 Internal Server Error" (Some 500%N)
         (Some "Internal Server Error") (Some (num_of_Z 10114))
         (Some (JStr "nonce: small")) JUndefined)
  /\ includes "HTTP code 500 Internal Server Error" HELP_LINK = false.
Proof. split; reflexivity. Qed.

(** What [_cb] does enrich: an error object that itself carries an [error]
    array whose element 1 is 10114 (the case of the repository's test). *)
Lemma enrich_error_property (e : JsError) :
  nonce_too_small e = true ->
  message (enrich e) = message e ++ HELP_TEXT
  /\ includes (message (enrich e)) (message e) = true
  /\ includes (message (enrich e)) HELP_LINK = true.
Proof.
  intros H. unfold enrich. rewrite H.
  destruct e as [msg st stt c r er|p]; [|discriminate H]. simpl.
  split; [reflexivity|]. split.
  - apply includes_prefix.
  - apply includes_skip.
    exact (includes_infix " see " HELP_LINK " for help").
Qed.

Lemma enrich_other (e : JsError) : nonce_too_small e = false -> enrich e = e.
Proof. intros H. unfold enrich. now rewrite H. Qed.

(** ** The currency-list merger *)

Section CurrencyList.

Variable Number_toString : number -> string.

Local Abbreviation toKey := (ToString Number_toString).
Local Abbreviation entries := (arr_entries Number_toString).
Local Abbreviation toObj l := (assign_all (arr_entries Number_toString l) []).
Local Abbreviation visit := (assign_explorer Number_toString).

Lemma fold_left_pointwise {A B} (f g : A -> B -> A) (l : list B) (a : A) :
  (forall a x, f a x = g a x) -> fold_left f l a = fold_left g l a.
Proof.
  intros H. revert a. induction l as [|x l IH]; intros a; simpl; [reflexivity|].
  now rewrite H, IH.
Qed.

Lemma fold_left_flat_map {A B C} (f : A -> B -> A) (g : C -> list B)
    (l : list C) (a : A) :
  fold_left f (flat_map g l) a = fold_left (fun a x => fold_left f (g x) a) l a.
Proof.
  revert a. induction l as [|x l IH]; intros a; simpl; [reflexivity|].
  now rewrite fold_left_app, IH.
Qed.

(** [transformArrToObj] performs the assignments of [arr_entries]. *)
Lemma transformArrToObj_entries (l : list JsVal) :
  transformArrToObj Number_toString (JArr l) = Normal (toObj l).
Proof.
  unfold transformArrToObj, assign_all, arr_entries.
  f_equal. rewrite fold_left_flat_map. apply fold_left_pointwise. intros o c.
  destruct (negb (Array_isArray c)); [reflexivity|].
  now destruct (1 <? length (elems c))%nat.
Qed.

Lemma toObj_created_keys (l : list JsVal) :
  created_keys (toObj l) = insertion_order (map fst (entries l)).
Proof. now rewrite created_keys_assign_all. Qed.

Lemma toObj_NoDup (l : list JsVal) : NoDup (created_keys (toObj l)).
Proof. rewrite toObj_created_keys. apply insertion_order_NoDup. Qed.

(** *** Explorer inheritance *)

Lemma assign_explorer_other (pool explorer : Obj) (key x : string) :
  x <> key -> obj_get x (visit pool explorer key) = obj_get x explorer.
Proof.
  intros Hne. unfold assign_explorer.
  destruct (negb (truthy (obj_get key explorer))); [|reflexivity].
  destruct (truthy (obj_get _ explorer)); [|reflexivity].
  apply obj_get_set_ne. congruence.
Qed.

Lemma assign_explorer_self (pool explorer : Obj) (key : string) :
  obj_get key (visit pool explorer key)
  = if truthy (obj_get key explorer) then obj_get key explorer
    else if truthy (obj_get (toKey (obj_get key pool)) explorer)
         then obj_get (toKey (obj_get key pool)) explorer
         else obj_get key explorer.
Proof.
  unfold assign_explorer.
  destruct (truthy (obj_get key explorer)); simpl; [reflexivity|].
  destruct (truthy (obj_get _ explorer)); [|reflexivity].
  apply obj_get_set_eq.
Qed.

(** A pass over [keys] leaves the entries of all other keys alone. *)
Lemma assign_explorers_other (pool : Obj) (keys : list string)
    (explorer : Obj) (x : string) :
  ~ In x keys ->
  obj_get x (fold_left (visit pool) keys explorer) = obj_get x explorer.
Proof.
  revert explorer. induction keys as [|k keys IH]; intros explorer Hx; simpl.
  - reflexivity.
  - rewrite IH by (simpl in Hx; tauto).
    apply assign_explorer_other. simpl in Hx. intros ->. tauto.
Qed.

(** The entry of a pool key after the whole pass, by its position in the
    pass: its own entry when that is present; otherwise the entry its
    pool-mate has when the key is visited, which is the mate's final entry
    if the mate was visited earlier, and the mate's original entry if not. *)
Lemma assign_explorers_at (pool explorer : Obj) (l1 l2 : list string) (k : string) :
  NoDup (l1 ++ k :: l2) ->
  let final := fold_left (visit pool) (l1 ++ k :: l2) explorer in
  let mate := toKey (obj_get k pool) in
  let seen :=
    if in_dec string_dec mate l1 then obj_get mate final
    else obj_get mate explorer in
  obj_get k final
  = if truthy (obj_get k explorer) then obj_get k explorer
    else if truthy seen then seen else obj_get k explorer.
Proof.
  intros Hnd. cbv zeta.
  apply NoDup_app in Hnd as (Hnd1 & Hdisj & Hnd2).
  apply NoDup_cons in Hnd2 as [Hk2 Hnd2].
  assert (Hk1 : ~ In k l1).
  { intros H%list_elem_of_In. apply (Hdisj k H). left. }
  rewrite fold_left_app. cbn [fold_left].
  set (E1 := fold_left (visit pool) l1 explorer).
  assert (HE1k : obj_get k E1 = obj_get k explorer)
    by now apply assign_explorers_other.
  rewrite (assign_explorers_other pool l2 _ k)
    by (intros H%list_elem_of_In; contradiction).
  rewrite assign_explorer_self, HE1k.
  destruct (truthy (obj_get k explorer)); [reflexivity|].
  set (mate := toKey (obj_get k pool)).
  assert (Hmate : (if in_dec string_dec mate l1
                   then obj_get mate (fold_left (visit pool) l2 (visit pool E1 k))
                   else obj_get mate explorer) = obj_get mate E1).
  { destruct (in_dec string_dec mate l1) as [Hin|Hnin].
    - assert (Hm2 : ~ In mate l2).
      { intros H%list_elem_of_In. apply list_elem_of_In in Hin.
        apply (Hdisj mate Hin). now right. }
      rewrite assign_explorers_other by exact Hm2.
      apply assign_explorer_other. intros ->. contradiction.
    - symmetry. now apply assign_explorers_other. }
  rewrite Hmate. reflexivity.
Qed.

(** The merger on six arrays, with every intermediate object named. *)
Lemma genCurrencyList_six (a0 a1 a2 a3 a4 a5 : list JsVal) :
  _genCurrencyList Number_toString
    (JArr [JArr a0; JArr a1; JArr a2; JArr a3; JArr a4; JArr a5])
  = let allCurrObj :=
      spread_into (spread_into (spread_into [] (toObj a0)) (toObj a1)) (toObj a2) in
    Normal
      (JArr
         (map (currency_record allCurrObj (toObj a3)
                 (assign_explorers Number_toString (toObj a3) (toObj a4))
                 (toObj a1) (toObj a5))
              (Object_keys allCurrObj))).
Proof.
  unfold _genCurrencyList. cbn [Array_isArray elems length Nat.eqb negb orb index nth].
  rewrite !transformArrToObj_entries. reflexivity.
Qed.

(** An entry that is present is never overwritten. *)
Lemma assign_explorers_keep (pool : Obj) (keys : list string)
    (explorer : Obj) (x : string) :
  truthy (obj_get x explorer) = true ->
  obj_get x (fold_left (visit pool) keys explorer) = obj_get x explorer.
Proof.
  revert explorer. induction keys as [|k keys IH]; intros explorer Hx; simpl.
  - reflexivity.
  - assert (Hstep : obj_get x (visit pool explorer k) = obj_get x explorer).
    { destruct (string_dec x k) as [->|Hne].
      - now rewrite assign_explorer_self, Hx.
      - now apply assign_explorer_other. }
    rewrite IH by now rewrite Hstep. exact Hstep.
Qed.

(** *** The unioned key set *)

Lemma insert_keys_incl (seen seen' ks : list string) :
  incl seen' seen -> insert_keys seen (insert_keys seen' ks) = insert_keys seen ks.
Proof.
  revert seen seen'. induction ks as [|x ks IH]; intros seen seen' Hincl; simpl.
  - reflexivity.
  - destruct (in_dec string_dec x seen') as [Hin'|Hnin'].
    + destruct (in_dec string_dec x seen) as [_|Hnin]; [now apply IH|].
      exfalso. apply Hnin, Hincl, Hin'.
    + simpl. destruct (in_dec string_dec x seen) as [Hin|Hnin].
      * apply IH. intros y [Hy|[->|[]]]%in_app_iff; auto.
      * f_equal. apply IH. intros y [Hy|[->|[]]]%in_app_iff;
          apply in_app_iff; simpl; auto.
Qed.

Lemma insertion_order_idempotent (seen ks : list string) :
  insert_keys seen (insertion_order ks) = insert_keys seen ks.
Proof. apply insert_keys_incl. intros y []. Qed.

Lemma insertion_order_union (a b c : list string) :
  insertion_order (insertion_order a ++ insertion_order b ++ insertion_order c)
  = insertion_order (a ++ b ++ c).
Proof.
  unfold insertion_order at 1 5.
  rewrite !insert_keys_app, !insertion_order_idempotent. reflexivity.
Qed.

Lemma spread_created_keys (target src : Obj) :
  created_keys (spread_into target src)
  = (created_keys target
     ++ insert_keys (created_keys target) (Object_keys src))%list.
Proof.
  unfold spread_into. now rewrite created_keys_assign_all, Object_entries_keys.
Qed.

(** The keys of [{...a, ...b, ...c}] are created in the order in which the
    three sources enumerate them, each at its first occurrence. *)
Lemma spread3_created_keys (a b c : Obj) :
  created_keys (spread_into (spread_into (spread_into [] a) b) c)
  = insertion_order (Object_keys a ++ Object_keys b ++ Object_keys c).
Proof.
  rewrite !spread_created_keys. unfold insertion_order.
  rewrite !insert_keys_app. simpl. now rewrite <- app_assoc.
Qed.

Lemma spread_lookup (target src : Obj) (k : string) :
  obj_lookup k (spread_into target src)
  = match obj_lookup k src with
    | Some v => Some v
    | None => obj_lookup k target
    end.
Proof.
  unfold spread_into. rewrite obj_lookup_assign_all.
  rewrite (last_assigned_const k (obj_get k src)).
  2:{ intros [k' v'] Hin Hk. simpl in *. subst k'.
      unfold Object_entries in Hin. apply in_map_iff in Hin as (x & [= -> <-] & _).
      reflexivity. }
  destruct (existsb _ _) eqn:Ex.
  - apply existsb_exists in Ex as ([k' v'] & Hin & Hk).
    simpl in *. apply String.eqb_eq in Hk. subst k'.
    unfold Object_entries in Hin. apply in_map_iff in Hin as (x & [= -> <-] & Hx).
    apply Object_keys_In, obj_lookup_In in Hx.
    destruct (obj_lookup k src) as [v|] eqn:El; [|congruence].
    now rewrite (obj_get_lookup _ _ _ El).
  - destruct (obj_lookup k src) as [v|] eqn:El; [|reflexivity]. exfalso.
    assert (Hex : existsb (fun e : string * JsVal => fst e =? k)
                    (Object_entries src) = true).
    { apply existsb_exists. exists (k, v). split; [|apply String.eqb_refl].
      unfold Object_entries. apply in_map_iff. exists k.
      rewrite (obj_get_lookup _ _ _ El). split; [reflexivity|].
      apply Object_keys_In, obj_lookup_In. congruence. }
    congruence.
Qed.



End CurrencyList.



(** With the two pool entries in the other order USDT0 is visited before
    its pool-mate has inherited anything, and stays without explorer. *)
Lemma inheritance_depends_on_pool_order :
  _genCurrencyList Mock.Number_toString
    (JArr [JArr [JStr "USDT0"; JStr "USDT"; JStr "ETH"];
           JArr [];
           JArr [];
           JArr [JArr [JStr "USDT0"; JStr "USDT"];
                 JArr [JStr "USDT"; JStr "ETH"]];
           JArr [JArr [JStr "ETH"; JArr [JStr "https://etherscan.io"]]];
           JArr []])
  = Normal
      (JArr [JArr [JStr "USDT0"; JStr "USDT0"; JStr "USDT"; JArr [];
                   JStr "USDT0"; JArr []];
             JArr [JStr "USDT"; JStr "USDT"; JStr "ETH";
                   JArr [JStr "https://etherscan.io"]; JStr "USDT"; JArr []];
             JArr [JStr "ETH"; JStr "ETH"; JNull;
                   JArr [JStr "https://etherscan.io"]; JStr "ETH"; JArr []]]).
Proof. reflexivity. Qed.


(** A 6-element array whose elements are not arrays is outside the
    merger's domain: [arr.forEach] is not there to call, or, on [null],
    to read. *)
Lemma genCurrencyList_needs_arrays :
  _genCurrencyList Mock.Number_toString
    (JArr [num_of_Z 1; num_of_Z 2; num_of_Z 3; num_of_Z 4; num_of_Z 5;
           num_of_Z 6])
  = Throw (Error "arr.forEach is not a function")
  /\ _genCurrencyList Mock.Number_toString
       (JArr [JNull; JArr []; JArr []; JArr []; JArr []; JArr []])
     = Throw (Error "Cannot read properties of null (reading 'forEach')").
Proof. split; reflexivity. Qed.


(** The transform cases of the test suite, on a model class that keeps its
    row: a 2-D array, a flat array, an empty array, and the flag off. *)
Lemma C4_transform_examples :
  transformed (Mock.rest "" "" "" true Mock.offline)
    (JArr [JArr [num_of_Z 1; num_of_Z 2]; JArr [num_of_Z 3; num_of_Z 4]])
    (TClass Mock.Model)
  = Normal (JArr [JObj [("data", JArr [num_of_Z 1; num_of_Z 2])];
                  JObj [("data", JArr [num_of_Z 3; num_of_Z 4])]])
  /\ transformed (Mock.rest "" "" "" true Mock.offline)
       (JArr [num_of_Z 1; num_of_Z 2; num_of_Z 3]) (TClass Mock.Model)
     = Normal (JObj [("data", JArr [num_of_Z 1; num_of_Z 2; num_of_Z 3])])
  /\ transformed (Mock.rest "" "" "" true Mock.offline) (JArr [])
       (TClass Mock.Model)
     = Normal (JArr [])
  /\ transformed (Mock.rest "" "" "" false Mock.offline)
       (JArr [JArr [num_of_Z 1; num_of_Z 2]; JArr [num_of_Z 3; num_of_Z 4]])
       (TClass Mock.Model)
     = Normal (JArr [JArr [num_of_Z 1; num_of_Z 2];
                     JArr [num_of_Z 3; num_of_Z 4]]).
Proof.
  split; [|split; [|split]].
  - destruct (C4_transform_step (Mock.rest "" "" "" true Mock.offline)
                (JArr [JArr [num_of_Z 1; num_of_Z 2];
                       JArr [num_of_Z 3; num_of_Z 4]])
                (TClass Mock.Model)) as (_ & Hclass & _).
    destruct (Hclass Mock.Model eq_refl eq_refl) as (_ & Hrows & _).
    apply (Hrows _ eq_refl eq_refl). repeat constructor.
  - destruct (C4_transform_step (Mock.rest "" "" "" true Mock.offline)
                (JArr [num_of_Z 1; num_of_Z 2; num_of_Z 3])
                (TClass Mock.Model)) as (_ & Hclass & _).
    destruct (Hclass Mock.Model eq_refl eq_refl) as (_ & _ & Hflat).
    apply Hflat; [reflexivity|discriminate|].
    intros rows [= <-]. reflexivity.
  - destruct (C4_transform_step (Mock.rest "" "" "" true Mock.offline)
                (JArr []) (TClass Mock.Model)) as (_ & Hclass & _).
    destruct (Hclass Mock.Model eq_refl eq_refl) as (Hempty & _).
    apply Hempty. now right.
  - apply (proj1 (C4_transform_step (Mock.rest "" "" "" false Mock.offline) _
                    (TClass Mock.Model))). now left.
Defined.

(** * Further properties of the client *)

(** ** One dispatch, seen from the caller *)

Section Dispatch.

Variable JSON_parse : string -> Completion JsVal.
Variable NonceState : Type.

Implicit Types (self : RESTv2) (url : string) (reqOpts : RequestInit).
Implicit Types (tr : Transformer) (cb : CallbackArg) (f : CallbackFn).
Implicit Types (s : NonceState) (e : JsError).

Ltac run_dispatch :=
  unfold _request, _response, _cb, invoke, outcome, async, call_async,
    try_catch, bind, cbind, lift, emit, ret, throw, promise_of, trace_of,
    value_of, state_of, events_of, failure_promise, failure_call, settle in *;
  simpl in *.

Ltac callback_cases :=
  repeat match goal with
         | |- context [truthy_thrown (_apiError ?p ?r ?b)] =>
             rewrite (apiError_truthy p r b); simpl in *
         | |- context [truthy_thrown ?e] =>
             destruct (truthy_thrown e) eqn:?; simpl in *
         | f : CallbackFn |- context [match ?g ?a ?b with _ => _ end] =>
             constr_eq f g; destruct (f a b) as [[?|[?|?]]|?] eqn:?; simpl in *
         end.

Ltac stages :=
  run_dispatch;
  repeat match goal with
         | |- context [_fetch ?self ?url ?o] =>
             destruct (_fetch self url o) eqn:?; simpl in *
         | |- context [resp_text ?r] =>
             destruct (resp_text r) eqn:?; simpl in *
         | |- context [resp_ok ?r] =>
             destruct (resp_ok r) eqn:?; simpl in *
         | |- context [JSON_parse ?raw] =>
             destruct (JSON_parse raw) eqn:?; simpl in *
         | |- context [transformed ?a ?b ?c] =>
             destruct (transformed a b c) eqn:?; simpl in *
         end.

(** A dispatch leaves the nonce source alone. *)
Lemma request_state self url reqOpts tr cb s :
  state_of (_request JSON_parse self url reqOpts tr cb s) = s.
Proof. destruct cb as [f|v]; stages; callback_cases; reflexivity. Qed.

Lemma request_draws_no_nonce self url reqOpts tr cb s :
  omap nonce_drawn (trace_of (_request JSON_parse self url reqOpts tr cb s)) = [].
Proof. destruct cb as [f|v]; stages; callback_cases; reflexivity. Qed.

Lemma outcome_Normal self url reqOpts tr (res : JsVal) :
  outcome JSON_parse self url reqOpts tr = Normal res
  <-> exists resp raw json,
        _fetch self url reqOpts = Normal resp
        /\ resp_text resp = Normal raw
        /\ resp_ok resp = true
        /\ JSON_parse raw = Normal json
        /\ transformed self json tr = Normal res.
Proof.
  unfold outcome, cbind. split.
  - destruct (_fetch self url reqOpts) as [resp|] eqn:Hf; [|discriminate].
    destruct (resp_text resp) as [raw|] eqn:Ht; [|discriminate].
    destruct (resp_ok resp) eqn:Hok; simpl; [|discriminate].
    destruct (JSON_parse raw) as [json|] eqn:Hp; [|discriminate].
    intros Htr. exists resp, raw, json. auto.
  - intros (resp & raw & json & -> & -> & -> & -> & Htr). exact Htr.
Qed.

(** X1. Called without a callback function, a dispatch resolves its
    promise with [res] exactly when every stage succeeds and the transform
    step returns [res], or, for [res = null] only, when a stage throws a
    falsy value ([_cb] tests the error for truthiness); in every other
    case the promise is rejected, with the value thrown. Whatever happens,
    the transport is called once and nothing else is done: no nonce is
    drawn, nothing is signed, the nonce source is left as it was. *)
Theorem X1_request_resolves_iff self url reqOpts tr (v : JsVal) s (res : JsVal) :
  let out := _request JSON_parse self url reqOpts tr (CbOther v) s in
  (promise_of out = Resolved res
   <-> (exists resp raw json,
          _fetch self url reqOpts = Normal resp
          /\ resp_text resp = Normal raw
          /\ resp_ok resp = true
          /\ JSON_parse raw = Normal json
          /\ transformed self json tr = Normal res)
       \/ (res = JNull
           /\ exists e, Classified JSON_parse self url reqOpts tr e
                        /\ truthy_thrown e = false))
  /\ (forall e, Classified JSON_parse self url reqOpts tr e ->
                truthy_thrown e = true ->
                promise_of out = Rejected (enrich e))
  /\ trace_of out = [Fetched url reqOpts]
  /\ state_of out = s.
Proof.
  cbv zeta. rewrite request_no_callback. unfold promise_of, trace_of, state_of.
  cbn [fst snd]. split; [|split; [|split; reflexivity]].
  - rewrite <- outcome_Normal.
    destruct (outcome JSON_parse self url reqOpts tr) as [r|e] eqn:Hout.
    + split; [intros [= ->]; now left|].
      intros [H|(_ & e & Hc%outcome_Classified & _)]; congruence.
    + unfold failure_promise.
      destruct (truthy_thrown e) eqn:He; split.
      * discriminate.
      * intros [H|(_ & e' & Hc%outcome_Classified & He')]; [discriminate|].
        congruence.
      * intros [= <-]. right. split; [reflexivity|]. exists e.
        split; [now apply outcome_Classified|exact He].
      * intros [H|(-> & _)]; [discriminate|reflexivity].
  - intros e Hc%outcome_Classified He. rewrite Hc. unfold failure_promise.
    now rewrite He.
Qed.

(** X2. A callback that throws when it is handed the result of a
    successful dispatch is called again, with its own exception as the
    error: after [(null, res)] it sees [(err)], or [(null, null)] when
    what it threw is falsy. If that second call returns, its return value
    settles the promise, which therefore does not carry the exception; if
    it throws again, the callback is called a third and last time, in the
    same way with the second exception, and what that call does settles
    the promise. *)
Theorem X2_throwing_callback_is_called_again self url reqOpts tr f s
    (res : JsVal) e :
  outcome JSON_parse self url reqOpts tr = Normal res ->
  f None res = Throw e ->
  let out := _request JSON_parse self url reqOpts tr (CbFunction f) s in
  let again e := f (fst (failure_call e)) (snd (failure_call e)) in
  match again e with
  | Normal r =>
      omap callback_call (trace_of out) = [(None, res); failure_call e]
      /\ promise_of out = settle (Normal r)
  | Throw e2 =>
      omap callback_call (trace_of out)
      = [(None, res); failure_call e; failure_call e2]
      /\ promise_of out = settle (again e2)
  end.
Proof.
  intros Hout Hthrow. cbv zeta. revert Hout.
  stages; intros [= <-]; rewrite Hthrow; simpl;
    destruct (truthy_thrown e); simpl;
    match goal with
    | |- context [match f ?a ?b with _ => _ end] =>
        destruct (f a b) as [r|e2] eqn:Hsecond; simpl
    end;
    try (split; reflexivity);
    destruct (truthy_thrown e2); simpl;
    try rewrite Hsecond; simpl;
    try match goal with
        | |- context [match f ?a ?b with _ => _ end] =>
            destruct (f a b) as [r|e3]; simpl
        end;
    split; reflexivity.
Qed.

(** X3. In one dispatch a callback function is called at least once and
    at most three times; at most twice when the dispatch failed; exactly
    once when it never throws (even if it returns a rejected promise).
    Only the first call can carry a result: every later one carries an
    error and no result, or, after a falsy exception, [(null, null)]. *)
Theorem X3_callback_call_count self url reqOpts tr f s :
  let out := _request JSON_parse self url reqOpts tr (CbFunction f) s in
  let calls := omap callback_call (trace_of out) in
  (1 <= length calls <= 3)%nat
  /\ (forall e, outcome JSON_parse self url reqOpts tr = Throw e ->
      (length calls <= 2)%nat)
  /\ ((forall err res e, f err res <> Throw e) -> length calls = 1%nat)
  /\ (forall err res, In (err, res) (tl calls) ->
        (exists e, truthy_thrown e = true /\ err = Some (enrich e)
                   /\ res = JUndefined)
        \/ (err = None /\ res = JNull)).
Proof.
  cbv zeta. split; [|split; [|split]].
  - stages; callback_cases; simpl; lia.
  - intros e. stages; callback_cases; simpl; intros; try discriminate; lia.
  - intros Hf. stages; callback_cases; simpl; try reflexivity;
      match goal with
      | H : f ?a ?b = Throw ?x |- _ => destruct (Hf a b x H)
      end.
  - intros err res.
    destruct (request_callback_first JSON_parse NonceState self url reqOpts tr f s)
      as (rest & -> & Hrest).
    assert (Htl : tl (omap callback_call
                        (Fetched url reqOpts
                         :: match outcome JSON_parse self url reqOpts tr with
                            | Normal r => CallbackInvoked None r
                            | Throw x =>
                                CallbackInvoked (fst (failure_call x))
                                  (snd (failure_call x))
                            end :: rest))
                  = omap callback_call rest)
      by (destruct (outcome JSON_parse self url reqOpts tr); reflexivity).
    rewrite Htl. intros Hin%list_elem_of_In%list_elem_of_omap.
    destruct Hin as (ev & Hev & Hcall).
    rewrite Forall_forall in Hrest. destruct (Hrest ev Hev) as [x ->].
    simpl in Hcall. unfold failure_call in Hcall.
    destruct (truthy_thrown x) eqn:Hx; injection Hcall as <- <-.
    + left. exists x. auto.
    + right. auto.
Qed.

(** X18. A non-success status is reported as it is classified: the
    error that reaches the caller is the one [_apiError] made, with the
    message "HTTP code <status> <status text>" and nothing appended to it,
    whatever the body says (an error code of 10114 included). The body is
    not handed to the transformer: the call comes out the same with any
    transformer. *)
Theorem X18_http_failure_reported_as_classified self url reqOpts tr cb s
    (resp : Response) (raw : string) :
  _fetch self url reqOpts = Normal resp ->
  resp_text resp = Normal raw ->
  resp_ok resp = false ->
  let out := _request JSON_parse self url reqOpts tr cb s in
  let err := _apiError JSON_parse resp raw in
  match cb with
  | CbOther _ => out = (Rejected err, s, [Fetched url reqOpts])
  | CbFunction f =>
      hd_error (omap callback_call (trace_of out)) = Some (Some err, JUndefined)
  end
  /\ message err
     = "HTTP code " ++ string_of_N (resp_status resp) ++ " "
       ++ resp_statusText resp
  /\ (forall tr', _request JSON_parse self url reqOpts tr' cb s = out).
Proof.
  intros Hfetch Htext Hok. cbv zeta.
  assert (Hout : forall t, outcome JSON_parse self url reqOpts t
                           = Throw (_apiError JSON_parse resp raw)).
  { intros t. unfold outcome, cbind. now rewrite Hfetch, Htext, Hok. }
  split; [|split].
  - destruct cb as [f|v].
    + destruct (request_callback_first JSON_parse NonceState self url reqOpts tr f s)
        as (rest & -> & _).
      rewrite Hout. unfold failure_call.
      now rewrite apiError_truthy, apiError_not_enriched.
    + rewrite request_no_callback, Hout. unfold failure_promise.
      now rewrite apiError_truthy, apiError_not_enriched.
  - unfold _apiError. rewrite str_or_empty.
    destruct (JSON_parse raw) as [p|]; [|reflexivity].
    now destruct (Array_isArray p && (3 <=? length (elems p))%nat).
  - intros tr'. unfold _request, async, try_catch, bind, lift, emit, throw.
    rewrite Hfetch, Htext, Hok. reflexivity.
Qed.

End Dispatch.

(** ** The three request makers *)

Section Makers.

Variable JSON_parse : string -> Completion JsVal.
Variable JSON_stringify : JsVal -> string.
Variable AbortSignal_timeout : number -> Completion AbortSignal.
Variable NonceState : Type.
Variable nonce : NonceState -> string * NonceState.
Variable genAuthSig : string -> string -> NonceState -> string * NonceState.

Local Abbreviation authRequest :=
  (_makeAuthRequest JSON_parse JSON_stringify AbortSignal_timeout NonceState
     nonce genAuthSig).
Local Abbreviation publicRequest :=
  (_makePublicRequest JSON_parse AbortSignal_timeout NonceState).
Local Abbreviation publicPostRequest :=
  (_makePublicPostRequest JSON_parse JSON_stringify AbortSignal_timeout
     NonceState).

(** What one dispatch contributes to the trace and the state of a maker. *)
Ltac dispatch_facts :=
  match goal with
  | |- context [_request ?p ?c ?u ?o ?t ?k ?st] =>
      let Hf := fresh "Hfetch" in
      let Hs := fresh "Hsign" in
      let Hn := fresh "Hnonce" in
      let Hst := fresh "Hstate" in
      pose proof (request_fetches_once p NonceState c u o t k st) as Hf;
      pose proof (request_signs_nothing p NonceState c u o t k st) as Hs;
      pose proof (request_draws_no_nonce p NonceState c u o t k st) as Hn;
      pose proof (request_state p NonceState c u o t k st) as Hst;
      destruct (_request p c u o t k st) as [[? ?] ?];
      unfold trace_of, state_of in Hf, Hs, Hn, Hst;
      cbn [fst snd] in Hf, Hs, Hn, Hst
  end.

(** X4. A public GET request is never authenticated: whatever credentials
    the client holds, no nonce is drawn, nothing is signed, and the nonce
    source is left as it was. A callback argument that is neither nil nor
    a function rejects the promise before anything else happens. When
    the callback is accepted and the abort signal can be made, the
    transport is called exactly once, with method GET on
    [url + "/v2" + path], no header and no body; when the signal cannot
    be made the transport is not called at all. *)
Theorem X4_public_request (self : RESTv2) (path : string) (cb : CallbackArg)
    (tr : Transformer) (s : NonceState) :
  let out := publicRequest self path cb tr s in
  let accepted :=
    match cb with
    | CbOther v => is_nil v
    | CbFunction _ => true
    end in
  List.filter is_fetch (trace_of out)
  = (if accepted
     then
       match AbortSignal_timeout (_timeout self) with
       | Normal sig =>
           [Fetched (_url self ++ "/v2" ++ path)
              {| method := "GET"; signal := sig; headers := []; body := None |}]
       | Throw _ => []
       end
     else [])
  /\ (accepted = false ->
      out = (Rejected (Error "_makePublicRequest cb param must be a function"),
             s, []))
  /\ omap nonce_drawn (trace_of out) = []
  /\ omap sign_call (trace_of out) = []
  /\ state_of out = s.
Proof.
  cbv zeta. unfold _makePublicRequest, async, bind, lift, ret, throw, call_async.
  destruct cb as [f|v]; [|destruct (is_nil v) eqn:Hnil]; cbn [negb];
    try (repeat split; reflexivity || discriminate);
    destruct (AbortSignal_timeout (_timeout self)) as [sig|e];
    try (repeat split; reflexivity || discriminate);
    dispatch_facts; unfold trace_of, state_of; cbn [fst snd app];
    repeat split; auto; discriminate.
Qed.

(** The run of an authenticated request on a client with credentials:
    a nonce, a signature if no token is set, the abort signal, one
    dispatch. *)
Lemma authRequest_run (self : RESTv2) (path : string) (payload : option Obj)
    (cb : CallbackArg) (tr : Transformer) (s : NonceState) :
  _authToken self <> "" \/ (_apiKey self <> "" /\ _apiSecret self <> "") ->
  let n := fst (nonce s) in
  let text :=
    JSON_stringify
      (JObj (omitNil (match payload with Some o => o | None => [] end))) in
  let canonical := "/api/v2" ++ path ++ n ++ text in
  let signed := genAuthSig (_apiSecret self) canonical (snd (nonce s)) in
  let signing :=
    if _authToken self =? "" then [Signed (_apiSecret self) canonical] else [] in
  let auth :=
    if _authToken self =? ""
    then [("bfx-apikey", _apiKey self); ("bfx-signature", fst signed)]
    else [("bfx-token", _authToken self)] in
  let s' := if _authToken self =? "" then snd signed else snd (nonce s) in
  authRequest self path payload cb tr s
  = match AbortSignal_timeout (_timeout self) with
    | Throw e => (Rejected e, s', NonceDrawn n :: signing)
    | Normal sig =>
        let r :=
          _request JSON_parse self (_url self ++ "/v2" ++ path)
            {| method := "POST";
               signal := sig;
               headers :=
                 ([("content-type", "application/json"); ("bfx-nonce", n)]
                  ++ auth)%list;
               body := Some text |} tr cb s' in
        (promise_of r, state_of r, (NonceDrawn n :: signing ++ trace_of r)%list)
    end.
Proof.
  intros Hcred. cbv zeta. unfold _makeAuthRequest, async.
  assert (Hmiss : ((_apiKey self =? "") || (_apiSecret self =? ""))
                  && (_authToken self =? "") = false).
  { destruct Hcred as [Ht%String.eqb_neq|[Hk%String.eqb_neq Hs%String.eqb_neq]].
    - rewrite Ht. apply andb_false_r.
    - now rewrite Hk, Hs. }
  rewrite Hmiss. unfold bind at 1, draw_nonce.
  destruct (nonce s) as [n s1] eqn:Hn. cbn [fst snd].
  destruct (_authToken self =? "") eqn:Htok; cbn [negb];
    unfold sign, bind, ret, emit, lift, call_async; cbn [app];
    try match goal with
        | |- context [genAuthSig ?k ?p ?st] =>
            destruct (genAuthSig k p st) as [sg sx]
        end;
    cbn [fst snd];
    destruct (AbortSignal_timeout (_timeout self)) as [sig|e];
    try reflexivity;
    match goal with
    | |- context [_request ?p ?c ?u ?o ?t ?k ?st] =>
        destruct (_request p c u o t k st) as [[? ?] ?]
    end; reflexivity.
Qed.

(** Whatever the credentials, an authenticated request sends nothing but
    a POST of the nil-stripped payload to its own path. *)
Lemma authRequest_sends (self : RESTv2) (path : string) (payload : option Obj)
    (cb : CallbackArg) (tr : Transformer) (s : NonceState)
    (url : string) (ro : RequestInit) :
  In (Fetched url ro) (trace_of (authRequest self path payload cb tr s)) ->
  url = _url self ++ "/v2" ++ path
  /\ method ro = "POST"
  /\ body ro
     = Some (JSON_stringify
               (JObj (omitNil (match payload with Some o => o | None => [] end)))).
Proof.
  destruct (((_apiKey self =? "") || (_apiSecret self =? ""))
            && (_authToken self =? "")) eqn:Hmiss.
  - unfold _makeAuthRequest, async. rewrite Hmiss.
    destruct cb as [f|v]; unfold _cb, invoke, bind, emit, lift, ret, trace_of;
      simpl; intros Hin; intuition discriminate.
  - assert (Hcred : _authToken self <> ""
                    \/ (_apiKey self <> "" /\ _apiSecret self <> "")).
    { destruct (_authToken self =? "") eqn:Ht.
      - right. rewrite andb_true_r in Hmiss.
        apply orb_false_iff in Hmiss as [Hk%String.eqb_neq Hs%String.eqb_neq].
        auto.
      - left. now apply String.eqb_neq. }
    rewrite (authRequest_run _ _ _ _ _ _ Hcred). cbv zeta.
    destruct (AbortSignal_timeout (_timeout self)) as [sig|e].
    + match goal with
      | |- context [_request ?p ?c ?u ?o ?t ?k ?st] =>
          pose proof (request_fetches_once p NonceState c u o t k st) as Hfetch;
          set (r := _request p c u o t k st) in *
      end.
      change (trace_of (?a, ?b, ?c)) with c. intros Hin.
      assert (Hin' : In (Fetched url ro) (List.filter is_fetch (trace_of r))).
      { apply filter_In. split; [|reflexivity].
        destruct Hin as [H|Hin]; [discriminate|].
        apply in_app_iff in Hin as [Hin|Hin]; [|exact Hin].
        destruct (_authToken self =? ""); simpl in Hin; [|tauto].
        destruct Hin as [H|[]]. discriminate. }
      rewrite Hfetch in Hin'. destruct Hin' as [[= <- <-]|[]].
      repeat split; reflexivity.
    + unfold trace_of. cbn [snd]. intros [H|Hin]; [discriminate|].
      destruct (_authToken self =? ""); simpl in Hin; [|tauto].
      destruct Hin as [H|[]]. discriminate.
Qed.

(** With credentials and an abort signal, exactly one request is sent:
    the POST of the nil-stripped payload. *)
Lemma authRequest_fetches (self : RESTv2) (path : string) (payload : option Obj)
    (cb : CallbackArg) (tr : Transformer) (s : NonceState) (sig : AbortSignal) :
  _authToken self <> "" \/ (_apiKey self <> "" /\ _apiSecret self <> "") ->
  AbortSignal_timeout (_timeout self) = Normal sig ->
  exists ro,
    List.filter is_fetch (trace_of (authRequest self path payload cb tr s))
    = [Fetched (_url self ++ "/v2" ++ path) ro]
    /\ method ro = "POST"
    /\ signal ro = sig
    /\ body ro
       = Some (JSON_stringify
                 (JObj (omitNil (match payload with Some o => o | None => [] end)))).
Proof.
  intros Hcred Hsig. rewrite (authRequest_run _ _ _ _ _ _ Hcred). cbv zeta.
  rewrite Hsig.
  destruct (_authToken self =? "");
    match goal with
    | |- context [_request ?p ?c ?u ?o ?t ?k ?st] =>
        pose proof (request_fetches_once p NonceState c u o t k st) as Hfetch;
        set (r := _request p c u o t k st) in *
    end;
    change (trace_of (?a, ?b, ?c)) with c;
    cbn [app List.filter is_fetch]; rewrite Hfetch;
    eexists; repeat split; reflexivity.
Qed.

(** X5. An authenticated request on a client that holds credentials
    calls [nonce()] exactly once itself, and sends (when the abort signal
    can be made) exactly one POST to [url + "/v2" + path] whose body is
    the JSON text of the nil-stripped payload. Its headers are the content
    type, the nonce in [bfx-nonce], and then: with a token, [bfx-token]
    alone, with no key and no signature even when key and secret are set
    too; without a token, [bfx-apikey] and the [bfx-signature] the signer
    makes, right after the nonce is drawn, over
    ["/api/v2" + path + nonce + body], the same nonce and the very text
    sent as the body. The nonce is consumed even when the request is
    never sent: the call leaves the nonce source as the draw left it when
    a token is used, and as the signer left it after the draw otherwise. *)
Theorem X5_auth_request_on_the_wire (self : RESTv2) (path : string)
    (payload : option Obj) (cb : CallbackArg) (tr : Transformer)
    (s : NonceState) :
  _authToken self <> "" \/ (_apiKey self <> "" /\ _apiSecret self <> "") ->
  let out := authRequest self path payload cb tr s in
  let n := fst (nonce s) in
  let text :=
    JSON_stringify
      (JObj (omitNil (match payload with Some o => o | None => [] end))) in
  let signed :=
    genAuthSig (_apiSecret self) ("/api/v2" ++ path ++ n ++ text)
      (snd (nonce s)) in
  let auth :=
    if _authToken self =? ""
    then [("bfx-apikey", _apiKey self); ("bfx-signature", fst signed)]
    else [("bfx-token", _authToken self)] in
  omap nonce_drawn (trace_of out) = [n]
  /\ state_of out
     = (if _authToken self =? "" then snd signed else snd (nonce s))
  /\ List.filter is_fetch (trace_of out)
     = match AbortSignal_timeout (_timeout self) with
       | Normal sig =>
           [Fetched (_url self ++ "/v2" ++ path)
              {| method := "POST";
                 signal := sig;
                 headers :=
                   ([("content-type", "application/json"); ("bfx-nonce", n)]
                    ++ auth)%list;
                 body := Some text |}]
       | Throw _ => []
       end.
Proof.
  intros Hcred. cbv zeta. rewrite (authRequest_run _ _ _ _ _ _ Hcred).
  cbv zeta. destruct (AbortSignal_timeout (_timeout self)) as [sig|e].
  - match goal with
    | |- context [_request ?p ?c ?u ?o ?t ?k ?st] =>
        pose proof (request_fetches_once p NonceState c u o t k st) as Hfetch;
        pose proof (request_draws_no_nonce p NonceState c u o t k st) as Hnonce;
        pose proof (request_state p NonceState c u o t k st) as Hstate;
        set (r := _request p c u o t k st) in *
    end.
    repeat change (trace_of (?a, ?b, ?c)) with c.
    change (state_of (?a, ?b, ?c)) with b. rewrite Hstate.
    destruct (_authToken self =? "");
      cbn [app omap list_omap nonce_drawn List.filter is_fetch];
      rewrite Hnonce, Hfetch; repeat split; reflexivity.
  - unfold trace_of, state_of. cbn [fst snd].
    destruct (_authToken self =? ""); repeat split; reflexivity.
Qed.

(** X6. When [AbortSignal.timeout] refuses the client's timeout (the
    constructor accepts any integer, a negative one included), each of the
    three request makers rejects its promise with that exception, as it
    was thrown; the transport is not called and a callback function, even
    if one was passed, is never called. *)
Theorem X6_signal_failure_bypasses_callback (self : RESTv2) (path : string)
    (payload : Obj) (f : CallbackFn) (tr : Transformer) (s : NonceState)
    (e : JsError) :
  AbortSignal_timeout (_timeout self) = Throw e ->
  publicRequest self path (CbFunction f) tr s = (Rejected e, s, [])
  /\ publicPostRequest self path payload (CbFunction f) tr s = (Rejected e, s, [])
  /\ (_authToken self <> "" \/ (_apiKey self <> "" /\ _apiSecret self <> "") ->
      let out := authRequest self path (Some payload) (CbFunction f) tr s in
      promise_of out = Rejected e
      /\ List.filter is_fetch (trace_of out) = []
      /\ omap callback_call (trace_of out) = []).
Proof.
  intros Hsig. split; [|split].
  - unfold _makePublicRequest, async, bind, lift, ret, call_async.
    now rewrite Hsig.
  - unfold _makePublicPostRequest, async, bind, lift, ret, call_async.
    now rewrite Hsig.
  - intros Hcred. cbv zeta. rewrite (authRequest_run _ _ _ _ _ _ Hcred).
    cbv zeta. rewrite Hsig. unfold promise_of, trace_of. cbn [fst snd].
    destruct (_authToken self =? ""); repeat split; reflexivity.
Qed.

End Makers.

(** ** Nil-stripping and picking *)

(** Proves [NoDup] of a list of distinct literal keys. *)
Ltac distinct_keys :=
  repeat (constructor;
          [let H := fresh in
           intros H%list_elem_of_In; simpl in H; intuition discriminate|]);
  constructor.

Lemma obj_set_fresh (k : string) (v : JsVal) (o : Obj) :
  ~ In k (created_keys o) -> obj_set k v o = (o ++ [(k, v)])%list.
Proof.
  induction o as [|[k' v'] o IH]; simpl; intros Hk; [reflexivity|].
  destruct (k' =? k) eqn:E.
  - apply String.eqb_eq in E. tauto.
  - rewrite IH by tauto. reflexivity.
Qed.

(** Assigning entries with fresh, distinct keys appends them. *)
Lemma assign_all_fresh (es : list (string * JsVal)) (o : Obj) :
  NoDup (created_keys o ++ map fst es)%list ->
  assign_all es o = (o ++ es)%list.
Proof.
  unfold assign_all. revert o. induction es as [|[k v] es IH]; intros o Hnd; simpl.
  - now rewrite app_nil_r.
  - assert (Hk : ~ In k (created_keys o)).
    { apply NoDup_app in Hnd as (_ & Hdis & _). intros Hin.
      apply (Hdis k); [now apply list_elem_of_In|]. simpl. left. }
    rewrite (obj_set_fresh _ _ _ Hk), IH.
    + now rewrite <- app_assoc.
    + unfold created_keys in *. rewrite map_app. simpl.
      rewrite <- app_assoc. exact Hnd.
Qed.

(** An object with one entry per key is the list of its own entries. *)
Lemma entries_self (o : Obj) :
  NoDup (created_keys o) ->
  map (fun k => (k, obj_get k o)) (created_keys o) = o.
Proof.
  induction o as [|[k v] o IH]; simpl; intros Hnd; [reflexivity|].
  apply NoDup_cons in Hnd as [Hk Hnd].
  unfold obj_get at 1. simpl. rewrite String.eqb_refl. f_equal.
  rewrite <- (IH Hnd) at 2. apply map_ext_in. intros k' Hin.
  unfold obj_get. simpl. destruct (k =? k') eqn:E; [|reflexivity].
  apply String.eqb_eq in E. subst k'. exfalso. apply Hk.
  now apply list_elem_of_In.
Qed.

Lemma StronglySorted_filter {A} (R : A -> A -> Prop) (p : A -> bool) (l : list A) :
  StronglySorted R l -> StronglySorted R (List.filter p l).
Proof.
  induction 1 as [|x l Hl IH Hx]; simpl; [constructor|].
  destruct (p x); [|exact IH]. constructor; [exact IH|].
  rewrite Forall_forall in *. intros y Hy%list_elem_of_In%filter_In.
  apply Hx, list_elem_of_In, Hy.
Qed.

(** A key list made of increasing array indices followed by other keys
    is already in enumeration order. *)
Lemma enumeration_fixed (o : Obj) (ns : list N) (others : list string) :
  created_keys o = (map string_of_N ns ++ others)%list ->
  Forall (fun n => array_index (string_of_N n) = Some n) ns ->
  StronglySorted N.le ns ->
  Forall (fun k => is_array_index k = false) others ->
  Object_keys o = created_keys o.
Proof.
  intros Hkeys Hidx Hsorted Hothers. unfold Object_keys. rewrite Hkeys.
  assert (H1 : omap array_index (map string_of_N ns) = ns).
  { clear - Hidx. induction Hidx as [|n ns Hn _ IH]; simpl; [reflexivity|].
    rewrite Hn. simpl. now f_equal. }
  assert (H2 : omap array_index others = []).
  { clear - Hothers. induction Hothers as [|k ks Hk _ IH]; simpl; [reflexivity|].
    unfold is_array_index in Hk. destruct (array_index k); [discriminate|exact IH]. }
  assert (H3 : List.filter (fun k => negb (is_array_index k)) (map string_of_N ns) = []).
  { clear - Hidx. induction Hidx as [|n ns Hn _ IH]; simpl; [reflexivity|].
    unfold is_array_index at 1. rewrite Hn. exact IH. }
  assert (H4 : List.filter (fun k => negb (is_array_index k)) others = others).
  { clear - Hothers. induction Hothers as [|k ks Hk _ IH]; simpl; [reflexivity|].
    rewrite Hk. simpl. now f_equal. }
  rewrite omap_app, H1, H2, app_nil_r, List.filter_app, H3, H4. simpl.
  f_equal. f_equal.
  apply (StronglySorted_unique N.le).
  - apply StronglySorted_merge_sort; apply _.
  - exact Hsorted.
  - apply merge_sort_Permutation.
Qed.

Lemma filter_entries_keys (p : JsVal -> bool) (o : Obj) (ks : list string) :
  map fst (List.filter (fun e => p (snd e)) (map (fun k => (k, obj_get k o)) ks))
  = List.filter (fun k => p (obj_get k o)) ks.
Proof.
  induction ks as [|k ks IH]; simpl; [reflexivity|].
  destruct (p (obj_get k o)); simpl; now rewrite IH.
Qed.

Lemma filter_map_comm {A B} (p : B -> bool) (g : A -> B) (l : list A) :
  List.filter p (map g l) = map g (List.filter (fun x => p (g x)) l).
Proof.
  induction l as [|x l IH]; simpl; [reflexivity|].
  destruct (p (g x)); simpl; now rewrite IH.
Qed.

Lemma NoDup_filter_list {A} (p : A -> bool) (l : list A) :
  NoDup l -> NoDup (List.filter p l).
Proof.
  induction 1 as [|x l Hx Hl IH]; simpl; [constructor|].
  destruct (p x); [|exact IH]. constructor; [|exact IH].
  intros Hin%list_elem_of_In%filter_In. apply Hx, list_elem_of_In, Hin.
Qed.

(** The keys [omitNil] creates, in creation order. *)
Lemma omitNil_created_keys (o : Obj) :
  NoDup (created_keys o) ->
  created_keys (omitNil o)
  = List.filter (fun k => negb (is_nil (obj_get k o))) (Object_keys o).
Proof.
  intros Hnd. unfold omitNil, Object_fromEntries.
  rewrite created_keys_assign_all. simpl. unfold Object_entries.
  rewrite (filter_entries_keys (fun v => negb (is_nil v))).
  apply insert_keys_id.
  - apply NoDup_filter_list, Object_keys_NoDup, Hnd.
  - intros k _ [].
Qed.

Lemma omitNil_enumeration (o : Obj) :
  NoDup (created_keys o) ->
  Object_keys (omitNil o) = created_keys (omitNil o).
Proof.
  intros Hnd.
  set (p := fun k => negb (is_nil (obj_get k o))).
  apply (enumeration_fixed _
           (List.filter (fun n => p (string_of_N n))
              (merge_sort N.le (omap array_index (created_keys o))))
           (List.filter p
              (List.filter (fun k => negb (is_array_index k)) (created_keys o)))).
  - rewrite (omitNil_created_keys _ Hnd). unfold Object_keys.
    now rewrite List.filter_app, filter_map_comm.
  - apply Forall_forall. intros n [Hin _]%list_elem_of_In%filter_In.
    assert (Hin' : In n (omap array_index (created_keys o))).
    { exact (Permutation_in _ (merge_sort_Permutation N.le _) Hin). }
    apply list_elem_of_In, list_elem_of_omap in Hin' as (k & _ & Hk).
    now rewrite (array_index_Some _ _ Hk).
  - apply StronglySorted_filter, StronglySorted_merge_sort; apply _.
  - apply Forall_forall.
    intros k [[_ Hk]%filter_In _]%list_elem_of_In%filter_In.
    now destruct (is_array_index k).
Qed.

Lemma omitNil_NoDup (o : Obj) : NoDup (created_keys (omitNil o)).
Proof. apply created_keys_NoDup_assign_all. constructor. Qed.

(** [omitNil] leaves an object it made as it is. *)
Lemma omitNil_fixed (o : Obj) :
  NoDup (created_keys o) -> omitNil (omitNil o) = omitNil o.
Proof.
  intros Hnd.
  assert (Hself : Object_entries (omitNil o) = omitNil o).
  { unfold Object_entries. rewrite (omitNil_enumeration _ Hnd).
    apply entries_self, omitNil_NoDup. }
  assert (Hkeep : List.filter (fun e : string * JsVal => negb (is_nil (snd e)))
                    (omitNil o) = omitNil o).
  { apply forallb_filter_id. apply forallb_forall. intros [k v] Hin. simpl.
    assert (Hl : obj_lookup k (omitNil o) = Some v).
    { pose proof (omitNil_NoDup o) as Hn. revert Hin Hn.
      generalize (omitNil o) as l. intros l.
      induction l as [|[k' v'] l IH]; simpl; [tauto|].
      intros [[= -> ->]|Hin] Hn%NoDup_cons; [now rewrite String.eqb_refl|].
      destruct Hn as [Hk' Hn]. destruct (k' =? k) eqn:E; [|now apply IH].
      apply String.eqb_eq in E. subst k'. exfalso. apply Hk'.
      apply list_elem_of_In. unfold created_keys.
      change k with (fst (k, v)). now apply in_map. }
    rewrite omitNil_lookup in Hl.
    destruct (obj_lookup k o) as [w|]; [|discriminate].
    destruct (is_nil w) eqn:Hw; [discriminate|]. injection Hl as <-.
    now rewrite Hw. }
  unfold omitNil at 1. rewrite Hself, Hkeep. unfold Object_fromEntries.
  rewrite assign_all_fresh; [reflexivity|]. simpl. apply omitNil_NoDup.
Qed.

(** X7. [omitNil] keeps the properties that survive in the order in which
    the object enumerates them: the keys of the stripped object are the
    keys of the original, in [Object.keys] order, without those holding
    [null] or [undefined]. (The object has one entry per key.) *)
Theorem X7_omitNil_keeps_key_order (o : Obj) :
  NoDup (created_keys o) ->
  Object_keys (omitNil o)
  = List.filter (fun k => negb (is_nil (obj_get k o))) (Object_keys o).
Proof.
  intros Hnd. now rewrite omitNil_enumeration, omitNil_created_keys.
Qed.

(** X8. [omitNil] is idempotent, and no property of its result holds
    [null] or [undefined]: stripping a payload that a caller has already
    stripped changes nothing. *)
Theorem X8_omitNil_idempotent (o : Obj) :
  NoDup (created_keys o) ->
  omitNil (omitNil o) = omitNil o
  /\ (forall k v, obj_lookup k (omitNil o) = Some v -> is_nil v = false).
Proof.
  intros Hnd. split; [now apply omitNil_fixed|].
  intros k v. rewrite omitNil_lookup.
  destruct (obj_lookup k o) as [w|]; [|discriminate].
  destruct (is_nil w) eqn:Hw; [discriminate|]. now intros [= <-].
Qed.

Lemma pick_lookup (obj : Obj) (keys : list string) (k : string) :
  obj_lookup k (pick obj keys)
  = if in_dec string_dec k keys then obj_lookup k obj else None.
Proof.
  unfold pick, Object_fromEntries. rewrite obj_lookup_assign_all. simpl.
  rewrite (last_assigned_const k (obj_get k obj)).
  2:{ intros [k' v'] Hin Hk. simpl in *. subst k'.
      apply in_map_iff in Hin as (x & [= -> <-] & _). reflexivity. }
  destruct (existsb _ _) eqn:Ex.
  - apply existsb_exists in Ex as ([k' v'] & Hin & Hk). simpl in Hk.
    apply String.eqb_eq in Hk. subst k'.
    apply in_map_iff in Hin as (x & [= -> <-] & [Hx Hhas]%filter_In).
    destruct (in_dec string_dec k keys); [|tauto].
    unfold has_key in Hhas. unfold obj_get.
    now destruct (obj_lookup k obj).
  - destruct (in_dec string_dec k keys) as [Hin|]; [|reflexivity].
    destruct (obj_lookup k obj) as [v|] eqn:El; [|reflexivity]. exfalso.
    assert (Hex : existsb (fun e : string * JsVal => fst e =? k)
              (map (fun k0 => (k0, obj_get k0 obj))
                 (List.filter (fun k0 => has_key k0 obj) keys)) = true).
    { apply existsb_exists. exists (k, obj_get k obj).
      split; [|apply String.eqb_refl]. apply in_map_iff. exists k.
      split; [reflexivity|]. apply filter_In. split; [exact Hin|].
      unfold has_key. now rewrite El. }
    congruence.
Qed.

Lemma pick_created_keys (obj : Obj) (keys : list string) :
  created_keys (pick obj keys)
  = insertion_order (List.filter (fun k => has_key k obj) keys).
Proof.
  unfold pick, Object_fromEntries. rewrite created_keys_assign_all. simpl.
  rewrite map_map. simpl. now rewrite map_id.
Qed.

Lemma pick_NoDup (obj : Obj) (keys : list string) :
  NoDup (created_keys (pick obj keys)).
Proof. apply created_keys_NoDup_assign_all. constructor. Qed.

(** X9. [pick] keeps of an object exactly the listed properties it has,
    with their values: a listed key reads as in the object, any other key
    is absent. The picked object is created in the order of the list, not
    in the order of the object. *)
Theorem X9_pick_whitelist (obj : Obj) (keys : list string) :
  (forall k, In k keys -> obj_lookup k (pick obj keys) = obj_lookup k obj)
  /\ (forall k, ~ In k keys -> obj_lookup k (pick obj keys) = None)
  /\ created_keys (pick obj keys)
     = insertion_order (List.filter (fun k => has_key k obj) keys).
Proof.
  split; [|split].
  - intros k Hin. rewrite pick_lookup. now destruct (in_dec string_dec k keys).
  - intros k Hin. rewrite pick_lookup. now destruct (in_dec string_dec k keys).
  - apply pick_created_keys.
Qed.

(** The enumeration of a stripped pick: the listed keys whose value in the
    object is neither [null] nor [undefined], in the order of the list. *)
Lemma omitNil_pick_keys (obj : Obj) (keys : list string) :
  NoDup keys ->
  (forall k, In k keys -> is_array_index k = false) ->
  Object_keys (omitNil (pick obj keys))
  = List.filter (fun k => negb (is_nil (obj_get k obj))) keys.
Proof.
  intros Hnd Hplain.
  rewrite omitNil_enumeration, omitNil_created_keys by apply pick_NoDup.
  assert (Hkeys : created_keys (pick obj keys)
                  = List.filter (fun k => has_key k obj) keys).
  { rewrite pick_created_keys. apply insert_keys_id.
    - now apply NoDup_filter_list.
    - intros k _ []. }
  rewrite Object_keys_created, Hkeys.
  2:{ intros k. rewrite Hkeys. intros [Hin _]%filter_In. now apply Hplain. }
  clear Hnd Hplain Hkeys.
  assert (Hget : forall k, In k keys -> obj_get k (pick obj keys) = obj_get k obj).
  { intros k Hin. unfold obj_get. rewrite pick_lookup.
    now destruct (in_dec string_dec k keys). }
  revert Hget. generalize (pick obj keys) as picked. intros picked.
  induction keys as [|k keys IH]; intros Hget; simpl; [reflexivity|].
  unfold has_key at 1. destruct (obj_lookup k obj) as [v|] eqn:El; simpl.
  - rewrite (Hget k) by (simpl; auto).
    destruct (negb (is_nil (obj_get k obj)));
      [f_equal|]; apply IH; intros; apply Hget; simpl; auto.
  - unfold obj_get at 2. rewrite El. simpl.
    apply IH; intros; apply Hget; simpl; auto.
Qed.

(** ** Endpoint methods *)

Section EndpointProperties.

Variable JSON_parse : string -> Completion JsVal.
Variable JSON_stringify : JsVal -> string.
Variable Number_toString : number -> string.
Variable AbortSignal_timeout : number -> Completion AbortSignal.
Variable NonceState : Type.
Variable nonce : NonceState -> string * NonceState.
Variable genAuthSig : string -> string -> NonceState -> string * NonceState.
Variable Currency : JsVal -> RESTv2 -> Completion JsVal.
Variable Notification : JsVal -> Completion JsVal.

Local Abbreviation authRequest :=
  (_makeAuthRequest JSON_parse JSON_stringify AbortSignal_timeout NonceState
     nonce genAuthSig).
Local Abbreviation publicRequest :=
  (_makePublicRequest JSON_parse AbortSignal_timeout NonceState).
Local Abbreviation publicPostRequest :=
  (_makePublicPostRequest JSON_parse JSON_stringify AbortSignal_timeout
     NonceState).
Local Abbreviation token_request :=
  (generateToken JSON_parse JSON_stringify AbortSignal_timeout NonceState
     nonce genAuthSig).
Local Abbreviation conf_request :=
  (conf JSON_parse AbortSignal_timeout NonceState).
Local Abbreviation currencies_request :=
  (currencies JSON_parse Number_toString AbortSignal_timeout NonceState
     Currency).
Local Abbreviation rate_request :=
  (exchangeRate JSON_parse JSON_stringify AbortSignal_timeout NonceState).
Local Abbreviation update_orders :=
  (updateOrderMulti JSON_parse JSON_stringify AbortSignal_timeout NonceState
     nonce genAuthSig Notification).
Local Abbreviation cancel_orders :=
  (cancelOrders JSON_parse JSON_stringify AbortSignal_timeout NonceState
     nonce genAuthSig Notification).
Local Abbreviation transfer_request :=
  (transfer JSON_parse JSON_stringify AbortSignal_timeout NonceState
     nonce genAuthSig Notification).

(** What [_cb] does with a fresh [Error]: nothing but hand it on. *)
Lemma cb_fresh_error (msg : string) (cb : CallbackArg) (s : NonceState) :
  _cb (Some (Error msg)) JNull cb s
  = match cb with
    | CbFunction f =>
        (f (Some (Error msg)) JUndefined, s,
         [CallbackInvoked (Some (Error msg)) JUndefined])
    | CbOther _ => (Normal (Promised (Rejected (Error msg))), s, [])
    end.
Proof.
  destruct cb as [f|v]; unfold _cb, invoke, bind, emit, lift, ret;
    change (enrich (Error msg)) with (Error msg); simpl; [|reflexivity].
  now destruct (f (Some (Error msg)) JUndefined).
Qed.

Lemma token_scope (params : Obj) :
  truthy (obj_get "scope" (omitNil (pick params TOKEN_PARAMS)))
  = truthy (obj_get "scope" params).
Proof.
  unfold obj_get. rewrite omitNil_lookup, pick_lookup.
  destruct (in_dec string_dec "scope" TOKEN_PARAMS) as [_|Hn];
    [|exfalso; apply Hn; simpl; auto].
  destruct (obj_lookup "scope" params) as [v|]; [|reflexivity].
  now destruct v.
Qed.

(** X10. [generateToken] without a usable scope (no parameters at all, no
    [scope] property, or a falsy one such as the empty string) fails with
    "scope param is required" before anything else is looked at: without
    a callback function it returns a promise rejected with that error,
    with one it calls it once with the error and returns what it returns.
    No nonce is drawn, nothing is signed or sent, and the credentials of
    the client are not even checked. *)
Theorem X10_generateToken_requires_scope (self : RESTv2) (params : option Obj)
    (cb : CallbackArg) (s : NonceState) :
  truthy (obj_get "scope" (match params with Some o => o | None => [] end))
  = false ->
  token_request self params cb s
  = match cb with
    | CbFunction f =>
        (f (Some (Error "scope param is required")) JUndefined, s,
         [CallbackInvoked (Some (Error "scope param is required")) JUndefined])
    | CbOther _ =>
        (Normal (Promised (Rejected (Error "scope param is required"))), s, [])
    end.
Proof.
  intros Hscope. unfold generateToken. rewrite token_scope, Hscope.
  apply cb_fresh_error.
Qed.

(** X11. [generateToken] with a scope forwards to the exchange only the
    five documented parameters (ttl, scope, caps, writePermission,
    _cust_ip), each with the caller's value and only if that value is
    neither [null] nor [undefined]; any other property of [params] is
    dropped. The request goes to /auth/w/token, and its body is the JSON
    text of exactly that object, whose properties are enumerated in the
    order of the list of five, not in the order the caller wrote them. *)
Theorem X11_generateToken_payload (self : RESTv2) (params : Obj)
    (cb : CallbackArg) (s : NonceState) :
  truthy (obj_get "scope" params) = true ->
  let opts := omitNil (pick params TOKEN_PARAMS) in
  let out := token_request self (Some params) cb s in
  (forall url ro, In (Fetched url ro) (events_of out) ->
     url = _url self ++ "/v2/auth/w/token"
     /\ body ro = Some (JSON_stringify (JObj opts)))
  /\ (forall k,
        obj_lookup k opts
        = if in_dec string_dec k TOKEN_PARAMS
          then match obj_lookup k params with
               | Some v => if is_nil v then None else Some v
               | None => None
               end
          else None)
  /\ Object_keys opts
     = List.filter (fun k => negb (is_nil (obj_get k params))) TOKEN_PARAMS.
Proof.
  intros Hscope. cbv zeta. split; [|split].
  - unfold generateToken. rewrite token_scope, Hscope. cbn [negb].
    intros url ro Hin.
    assert (Hin' : In (Fetched url ro)
                     (trace_of (authRequest self "/auth/w/token"
                                  (Some (omitNil (pick params TOKEN_PARAMS)))
                                  cb TNull s))).
    { revert Hin. unfold call_async, events_of, trace_of.
      now destruct (authRequest _ _ _ _ _ _) as [[? ?] ?]. }
    apply authRequest_sends in Hin' as (-> & _ & ->).
    rewrite omitNil_fixed by apply pick_NoDup. split; reflexivity.
  - intros k. rewrite omitNil_lookup, pick_lookup.
    now destruct (in_dec string_dec k TOKEN_PARAMS).
  - apply omitNil_pick_keys.
    + distinct_keys.
    + intros k Hin. simpl in Hin.
      repeat destruct Hin as [<-|Hin]; try reflexivity. destruct Hin.
Qed.

(** X12. [conf] called without keys (none given, or an empty list) makes
    no request at all: whatever the transport and the transform flag, it
    answers with the empty array, as a resolved promise or as the
    [(null, [])] call of the callback, and leaves the nonce source alone. *)
Theorem X12_conf_without_keys (self : RESTv2) (keys : option (list string))
    (cb : CallbackArg) (s : NonceState) :
  keys = None \/ keys = Some [] ->
  let out := conf_request self keys cb s in
  List.filter is_fetch (events_of out) = []
  /\ state_of out = s
  /\ match cb with
     | CbOther _ => out = (Normal (Promised (Resolved (JArr []))), s, [])
     | CbFunction f =>
         exists rest, events_of out = CallbackInvoked None (JArr []) :: rest
     end.
Proof.
  intros Hkeys. cbv zeta.
  assert (Hconf : conf_request self keys cb s
                  = _response self (JArr []) TNull cb s)
    by (destruct Hkeys as [-> | ->]; reflexivity).
  rewrite Hconf. unfold _response, transformed, _doTransform, _cb, invoke,
    try_catch, bind, lift, emit, ret, events_of, state_of.
  destruct (_transform self); destruct cb as [f|v]; simpl;
    try (repeat split; reflexivity);
    destruct (f None (JArr [])) as [r|e]; simpl;
    try solve [repeat split; eauto];
    destruct (truthy_thrown e); simpl; repeat split; eauto.
Qed.


(** A public POST made without callback. *)
Lemma publicPost_no_callback (self : RESTv2) (path : string) (payload : Obj)
    (v : JsVal) (tr : Transformer) (s : NonceState) (sig : AbortSignal) :
  AbortSignal_timeout (_timeout self) = Normal sig ->
  let url := _url self ++ "/v2" ++ path in
  let ro :=
    {| method := "POST";
       signal := sig;
       headers := [("content-type", "application/json")];
       body := Some (JSON_stringify (JObj (omitNil payload))) |} in
  publicPostRequest self path payload (CbOther v) tr s
  = (match outcome JSON_parse self url ro tr with
     | Normal res => Resolved res
     | Throw e => failure_promise e
     end, s, [Fetched url ro]).
Proof.
  intros Hsig. cbv zeta.
  unfold _makePublicPostRequest, async, bind, lift, call_async.
  rewrite Hsig, request_no_callback.
  now destruct (outcome _ _ _ _ _).
Qed.

(** X14. [exchangeRate] does not hand its error to the callback: the
    inner POST to /calc/fx is made without callback and awaited, so when
    it fails the promise rejects and a callback function, if one was
    passed, is never called. The rejection carries the error; when the
    thrown value is falsy, the inner promise resolves with [null] and the
    rejection carries the [TypeError] of reading [null[0]]. When the
    exchange answers with an array, its first element is the result: the
    promise resolves with it, or the callback is called with
    [(null, first)]. *)
Theorem X14_exchangeRate (self : RESTv2) (params : Obj) (cb : CallbackArg)
    (s : NonceState) (sig : AbortSignal) :
  AbortSignal_timeout (_timeout self) = Normal sig ->
  let url := _url self ++ "/v2/calc/fx" in
  let ro :=
    {| method := "POST";
       signal := sig;
       headers := [("content-type", "application/json")];
       body :=
         Some (JSON_stringify
                 (JObj (omitNil [("ccy1", obj_get "ccy1" params);
                                 ("ccy2", obj_get "ccy2" params)]))) |} in
  let out := rate_request self params cb s in
  (forall e, outcome JSON_parse self url ro TNull = Throw e ->
     out = (Rejected
              (if truthy_thrown e then enrich e
               else Error "Cannot read properties of null (reading '0')"),
            s, [Fetched url ro]))
  /\ (forall l, outcome JSON_parse self url ro TNull = Normal (JArr l) ->
      match cb with
      | CbOther _ => out = (Resolved (index l 0), s, [Fetched url ro])
      | CbFunction f =>
          exists rest,
            trace_of out
            = Fetched url ro :: CallbackInvoked None (index l 0) :: rest
      end).
Proof.
  intros Hsig. cbv zeta.
  unfold exchangeRate, async, bind, call_async.
  rewrite (publicPost_no_callback _ _ _ _ _ _ _ Hsig). cbv zeta.
  change (_url self ++ "/v2" ++ "/calc/fx") with (_url self ++ "/v2/calc/fx").
  split.
  - intros e ->. unfold failure_promise.
    now destruct (truthy_thrown e).
  - intros l ->.
    unfold await, first_member, lift, ret, _response,
      transformed, _doTransform, _cb, invoke, try_catch, bind, emit, trace_of.
    destruct (_transform self); destruct cb as [f|v]; simpl;
      try reflexivity;
      destruct (f None (index l 0)) as [r|e]; simpl; eauto;
      destruct (truthy_thrown e); simpl; eauto.
Qed.

Lemma and_then_events (a : Async NonceState) (g : JsVal -> Completion JsVal)
    (s : NonceState) :
  events_of (and_then a g s) = trace_of (a s)
  /\ value_of (and_then a g s)
     = Normal (Promised (Promise_then (promise_of (a s)) g)).
Proof.
  unfold and_then, events_of, value_of, trace_of, promise_of.
  now destruct (a s) as [[? ?] ?].
Qed.

(** X15. [updateOrderMulti] and [cancelOrders] check their argument
    before anything else: when [orders] (respectively [ids]) is not an
    array, the call fails with "orders should be an array" ("ids should
    be an array") as a rejected promise or as the single call of the
    callback, without drawing a nonce, signing or sending, and without
    looking at the credentials. When it is an array, whatever is sent
    goes to /auth/w/order/multi with one operation per order,
    [["ou", order]] in the order given, respectively the single
    operation [["oc_multi", { id: ids }]]. *)
Theorem X15_multi_order_validation (self : RESTv2) (params : Obj)
    (cb : CallbackArg) (s : NonceState) :
  let refused := fun msg =>
    match cb with
    | CbFunction f =>
        (f (Some (Error msg)) JUndefined, s,
         [CallbackInvoked (Some (Error msg)) JUndefined])
    | CbOther _ => (Normal (Promised (Rejected (Error msg))), s, [])
    end in
  (Array_isArray (obj_get "orders" params) = false ->
   update_orders self params cb s = refused "orders should be an array")
  /\ (Array_isArray (obj_get "ids" params) = false ->
      cancel_orders self params cb s = refused "ids should be an array")
  /\ (forall l url ro,
        obj_get "orders" params = JArr l ->
        In (Fetched url ro) (events_of (update_orders self params cb s)) ->
        url = _url self ++ "/v2/auth/w/order/multi"
        /\ body ro
           = Some (JSON_stringify
                     (JObj [("ops",
                             JArr (map (fun order => JArr [JStr "ou"; order]) l))])))
  /\ (forall l url ro,
        obj_get "ids" params = JArr l ->
        In (Fetched url ro) (events_of (cancel_orders self params cb s)) ->
        url = _url self ++ "/v2/auth/w/order/multi"
        /\ body ro
           = Some (JSON_stringify
                     (JObj [("ops",
                             JArr [JArr [JStr "oc_multi";
                                         JObj [("id", JArr l)]]])]))).
Proof.
  cbv zeta. split; [|split; [|split]].
  - intros Harr. unfold updateOrderMulti. rewrite Harr. apply cb_fresh_error.
  - intros Harr. unfold cancelOrders. rewrite Harr. apply cb_fresh_error.
  - intros l url ro Harr. unfold updateOrderMulti. rewrite Harr.
    cbn [Array_isArray negb elems].
    rewrite (proj1 (and_then_events _ _ _)).
    intros Hin%authRequest_sends. destruct Hin as (-> & _ & ->).
    split; reflexivity.
  - intros l url ro Harr. unfold cancelOrders. rewrite Harr.
    cbn [Array_isArray negb].
    rewrite (proj1 (and_then_events _ _ _)).
    intros Hin%authRequest_sends. destruct Hin as (-> & _ & ->).
    split; reflexivity.
Qed.


(** X17. [transfer] sends to /auth/w/transfer the four parameters it
    copies (amount, from, to, currency) and [currency_to], which carries
    the caller's [currencyTo]; each is sent only if its value is neither
    [null] nor [undefined]. Nothing else of [params] is sent, the
    property named [currencyTo] in particular. On a client with
    credentials, when the abort signal can be made, the call sends
    exactly one request: the POST of that object. *)
Theorem X17_transfer_payload (self : RESTv2) (params : Obj)
    (cb : CallbackArg) (s : NonceState) :
  let opts :=
    omitNil (obj_set "currency_to" (obj_get "currencyTo" params)
               (pick params TRANSFER_PARAMS)) in
  let sent := fun o : option JsVal =>
    match o with
    | Some v => if is_nil v then None else Some v
    | None => None
    end in
  (forall url ro,
     In (Fetched url ro) (events_of (transfer_request self params cb s)) ->
     url = _url self ++ "/v2/auth/w/transfer"
     /\ body ro = Some (JSON_stringify (JObj opts)))
  /\ obj_lookup "currency_to" opts = sent (obj_lookup "currencyTo" params)
  /\ (forall k, In k TRANSFER_PARAMS ->
      obj_lookup k opts = sent (obj_lookup k params))
  /\ (forall k, k <> "currency_to" -> ~ In k TRANSFER_PARAMS ->
      obj_lookup k opts = None)
  /\ (_authToken self <> "" \/ (_apiKey self <> "" /\ _apiSecret self <> "") ->
      forall sig, AbortSignal_timeout (_timeout self) = Normal sig ->
      exists ro,
        List.filter is_fetch (events_of (transfer_request self params cb s))
        = [Fetched (_url self ++ "/v2/auth/w/transfer") ro]
        /\ method ro = "POST"
        /\ signal ro = sig
        /\ body ro = Some (JSON_stringify (JObj opts))).
Proof.
  cbv zeta. split; [|split; [|split; [|split]]].
  5:{ intros Hcred sig Hsig. unfold transfer.
      rewrite (proj1 (and_then_events _ _ _)).
      exact (authRequest_fetches _ _ _ _ _ _ _ _ _ _ _ _ _ Hcred Hsig). }
  - intros url ro. unfold transfer. rewrite (proj1 (and_then_events _ _ _)).
    intros Hin%authRequest_sends. destruct Hin as (-> & _ & ->).
    split; reflexivity.
  - rewrite omitNil_lookup, obj_lookup_set_eq. unfold obj_get.
    now destruct (obj_lookup "currencyTo" params).
  - intros k Hin. rewrite omitNil_lookup, obj_lookup_set_ne, pick_lookup.
    + now destruct (in_dec string_dec k TRANSFER_PARAMS).
    + intros <-. simpl in Hin. intuition discriminate.
  - intros k Hne Hin. rewrite omitNil_lookup, obj_lookup_set_ne, pick_lookup by auto.
    now destruct (in_dec string_dec k TRANSFER_PARAMS).
Qed.

End EndpointProperties.

(** ** The currency list, on malformed input *)

Section CurrencyListInput.

Variable Number_toString : number -> string.

Lemma transformArrToObj_not_array (x : JsVal) :
  Array_isArray x = false ->
  exists e, transformArrToObj Number_toString x = Throw e.
Proof. destruct x; try discriminate; intros _; eexists; reflexivity. Qed.

Lemma transformArrToObj_array (x : JsVal) :
  Array_isArray x = true ->
  exists o, transformArrToObj Number_toString x = Normal o.
Proof. destruct x; try discriminate. intros _. eexists. reflexivity. Qed.


End CurrencyListInput.

(** ** Closed instances of the further properties *)

(** A 200 answer handed to a callback that throws on results: the
    callback is called a second time, with its own exception, and the
    promise resolves. *)
Lemma X2_throwing_callback_is_called_again_witness :
  outcome Mock.JSON_parse
    (Mock.rest "" "" "" false (Mock.respond 200 "OK" Mock.rate_limit_body))
    "https://api.bitfinex.com/v2/platform/status" Mock.get TNull
  = Normal (JArr [JStr "error"; num_of_Z 10010; JStr "ERR_RATE_LIMIT"])
  /\ Mock.fussy_callback None
       (JArr [JStr "error"; num_of_Z 10010; JStr "ERR_RATE_LIMIT"])
     = Throw (Error "callback failed")
  /\ omap callback_call
       (trace_of
          (_request Mock.JSON_parse
             (Mock.rest "" "" "" false
                (Mock.respond 200 "OK" Mock.rate_limit_body))
             "https://api.bitfinex.com/v2/platform/status" Mock.get TNull
             (CbFunction Mock.fussy_callback) 0%N))
     = [(None, JArr [JStr "error"; num_of_Z 10010; JStr "ERR_RATE_LIMIT"]);
        (Some (Error "callback failed"), JUndefined)]
  /\ promise_of
       (_request Mock.JSON_parse
          (Mock.rest "" "" "" false
             (Mock.respond 200 "OK" Mock.rate_limit_body))
          "https://api.bitfinex.com/v2/platform/status" Mock.get TNull
          (CbFunction Mock.fussy_callback) 0%N)
     = Resolved JUndefined.
Proof.
  split; [reflexivity|]. split; [reflexivity|].
  exact (X2_throwing_callback_is_called_again Mock.JSON_parse N
           (Mock.rest "" "" "" false
              (Mock.respond 200 "OK" Mock.rate_limit_body))
           "https://api.bitfinex.com/v2/platform/status" Mock.get TNull
           Mock.fussy_callback 0%N _ _ eq_refl eq_refl).
Defined.

(** Key and secret, no token: the nonce "1" is drawn, and the request to
    /auth/r/wallets carries the key and the signature of
    "/api/v2/auth/r/wallets1{}". *)
Lemma X5_auth_request_on_the_wire_witness :
  (_authToken (Mock.rest "key" "secret" "" false Mock.offline) <> ""
   \/ (_apiKey (Mock.rest "key" "secret" "" false Mock.offline) <> ""
       /\ _apiSecret (Mock.rest "key" "secret" "" false Mock.offline) <> ""))
  /\ omap nonce_drawn
       (trace_of
          (_makeAuthRequest Mock.JSON_parse Mock.JSON_stringify
             Mock.AbortSignal_timeout N Mock.nonce Mock.genAuthSig
             (Mock.rest "key" "secret" "" false Mock.offline)
             "/auth/r/wallets" (Some []) (CbOther JNull) TNull 1%N))
     = ["1"]
  /\ List.filter is_fetch
       (trace_of
          (_makeAuthRequest Mock.JSON_parse Mock.JSON_stringify
             Mock.AbortSignal_timeout N Mock.nonce Mock.genAuthSig
             (Mock.rest "key" "secret" "" false Mock.offline)
             "/auth/r/wallets" (Some []) (CbOther JNull) TNull 1%N))
     = [Fetched "https://api.bitfinex.com/v2/auth/r/wallets"
          {| method := "POST";
             signal := TimeoutSignal BASE_TIMEOUT;
             headers :=
               [("content-type", "application/json"); ("bfx-nonce", "1");
                ("bfx-apikey", "key");
                ("bfx-signature", "hmac(secret,/api/v2/auth/r/wallets1{})")];
             body := Some "{}" |}].
Proof.
  assert (H : _authToken (Mock.rest "key" "secret" "" false Mock.offline) <> ""
              \/ (_apiKey (Mock.rest "key" "secret" "" false Mock.offline) <> ""
                  /\ _apiSecret (Mock.rest "key" "secret" "" false Mock.offline)
                     <> ""))
    by (right; split; discriminate).
  split; [exact H|].
  pose proof (X5_auth_request_on_the_wire Mock.JSON_parse Mock.JSON_stringify
                Mock.AbortSignal_timeout N Mock.nonce Mock.genAuthSig
                (Mock.rest "key" "secret" "" false Mock.offline)
                "/auth/r/wallets" (Some []) (CbOther JNull) TNull 1%N H)
    as (Hnonce & _ & Hfetch).
  split; [exact Hnonce | exact Hfetch].
Defined.

(** A client built with the timeout -1 (the constructor accepts it): a
    public request with a callback rejects, and the callback is not
    called. *)
Lemma X6_signal_failure_bypasses_callback_witness :
  Mock.AbortSignal_timeout
    (_timeout (Mock.with_timeout (Finite (inject_Z (-1)))
                 (Mock.rest "" "" "" false Mock.offline)))
  = Throw (Error "The value of delay is out of range")
  /\ _makePublicRequest Mock.JSON_parse Mock.AbortSignal_timeout N
       (Mock.with_timeout (Finite (inject_Z (-1)))
          (Mock.rest "" "" "" false Mock.offline))
       "/platform/status" (CbFunction Mock.quiet_callback) TNull 0%N
     = (Rejected (Error "The value of delay is out of range"), 0%N, []).
Proof.
  split; [reflexivity|].
  exact (proj1 (X6_signal_failure_bypasses_callback Mock.JSON_parse
                  Mock.JSON_stringify Mock.AbortSignal_timeout N Mock.nonce
                  Mock.genAuthSig
                  (Mock.with_timeout (Finite (inject_Z (-1)))
                     (Mock.rest "" "" "" false Mock.offline))
                  "/platform/status" [] Mock.quiet_callback TNull 0%N
                  (Error "The value of delay is out of range") eq_refl)).
Defined.

(** [{ b: null, a: "", 2: 0, 1: undefined, 0: false }] keeps "0", "2"
    and "a", in that order. *)
Lemma X7_omitNil_keeps_key_order_witness :
  NoDup (created_keys
           [("b", JNull); ("a", JStr ""); ("2", num_of_Z 0);
            ("1", JUndefined); ("0", JBool false)])
  /\ Object_keys
       (omitNil [("b", JNull); ("a", JStr ""); ("2", num_of_Z 0);
                 ("1", JUndefined); ("0", JBool false)])
     = ["0"; "2"; "a"].
Proof.
  assert (H : NoDup (created_keys
                       [("b", JNull); ("a", JStr ""); ("2", num_of_Z 0);
                        ("1", JUndefined); ("0", JBool false)]))
    by (simpl; distinct_keys).
  split; [exact H|].
  exact (eq_trans (X7_omitNil_keeps_key_order _ H) eq_refl).
Defined.

Lemma X8_omitNil_idempotent_witness :
  NoDup (created_keys [("b", JNull); ("a", JStr ""); ("1", num_of_Z 0)])
  /\ omitNil (omitNil [("b", JNull); ("a", JStr ""); ("1", num_of_Z 0)])
     = omitNil [("b", JNull); ("a", JStr ""); ("1", num_of_Z 0)].
Proof.
  assert (H : NoDup (created_keys
                       [("b", JNull); ("a", JStr ""); ("1", num_of_Z 0)]))
    by (simpl; distinct_keys).
  split; [exact H|].
  exact (proj1 (X8_omitNil_idempotent _ H)).
Defined.

(** [generateToken({ ttl: 10 })], without scope and without callback. *)
Lemma X10_generateToken_requires_scope_witness :
  truthy (obj_get "scope" [("ttl", num_of_Z 10)]) = false
  /\ generateToken Mock.JSON_parse Mock.JSON_stringify
       Mock.AbortSignal_timeout N Mock.nonce Mock.genAuthSig
       (Mock.rest "key" "secret" "" false Mock.offline)
       (Some [("ttl", num_of_Z 10)]) (CbOther JNull) 0%N
     = (Normal (Promised (Rejected (Error "scope param is required"))), 0%N, []).
Proof.
  split; [reflexivity|].
  exact (X10_generateToken_requires_scope Mock.JSON_parse Mock.JSON_stringify
           Mock.AbortSignal_timeout N Mock.nonce Mock.genAuthSig
           (Mock.rest "key" "secret" "" false Mock.offline)
           (Some [("ttl", num_of_Z 10)]) (CbOther JNull) 0%N eq_refl).
Defined.

(** [generateToken({ writePermission: false, scope: "api", ttl: 10,
    caps: null, admin: true })]: ttl, scope and writePermission are sent,
    in that order. *)
Lemma X11_generateToken_payload_witness :
  truthy (obj_get "scope"
            [("writePermission", JBool false); ("scope", JStr "api");
             ("ttl", num_of_Z 10); ("caps", JNull); ("admin", JBool true)])
  = true
  /\ Object_keys
       (omitNil
          (pick [("writePermission", JBool false); ("scope", JStr "api");
                 ("ttl", num_of_Z 10); ("caps", JNull); ("admin", JBool true)]
                TOKEN_PARAMS))
     = ["ttl"; "scope"; "writePermission"].
Proof.
  split; [reflexivity|].
  exact (eq_trans
           (proj2 (proj2
              (X11_generateToken_payload Mock.JSON_parse Mock.JSON_stringify
                 Mock.AbortSignal_timeout N Mock.nonce Mock.genAuthSig
                 (Mock.rest "key" "secret" "" false Mock.offline)
                 [("writePermission", JBool false); ("scope", JStr "api");
                  ("ttl", num_of_Z 10); ("caps", JNull); ("admin", JBool true)]
                 (CbOther JNull) 0%N eq_refl)))
           eq_refl).
Defined.

(** [conf({ keys: [] })] on a client without network. *)
Lemma X12_conf_without_keys_witness :
  (Some ([] : list string) = None \/ Some ([] : list string) = Some [])
  /\ conf Mock.JSON_parse Mock.AbortSignal_timeout N
       (Mock.rest "" "" "" true Mock.offline) (Some []) (CbOther JNull) 0%N
     = (Normal (Promised (Resolved (JArr []))), 0%N, []).
Proof.
  split; [right; reflexivity|].
  exact (proj2 (proj2
           (X12_conf_without_keys Mock.JSON_parse Mock.AbortSignal_timeout N
              (Mock.rest "" "" "" true Mock.offline) (Some []) (CbOther JNull)
              0%N (or_intror eq_refl)))).
Defined.


(** [exchangeRate] with a callback, on a client without network: the
    promise rejects with the transport's error and the callback is not
    called. *)
Lemma X14_exchangeRate_witness :
  Mock.AbortSignal_timeout BASE_TIMEOUT = Normal (TimeoutSignal BASE_TIMEOUT)
  /\ promise_of
       (exchangeRate Mock.JSON_parse Mock.JSON_stringify
          Mock.AbortSignal_timeout N
          (Mock.rest "" "" "" false Mock.offline)
          [("ccy1", JStr "BTC"); ("ccy2", JStr "USD")]
          (CbFunction Mock.quiet_callback) 0%N)
     = Rejected (Error "fetch failed")
  /\ omap callback_call
       (trace_of
          (exchangeRate Mock.JSON_parse Mock.JSON_stringify
             Mock.AbortSignal_timeout N
             (Mock.rest "" "" "" false Mock.offline)
             [("ccy1", JStr "BTC"); ("ccy2", JStr "USD")]
             (CbFunction Mock.quiet_callback) 0%N))
     = [].
Proof.
  split; [reflexivity|].
  pose proof (proj1 (X14_exchangeRate Mock.JSON_parse Mock.JSON_stringify
                       Mock.AbortSignal_timeout N
                       (Mock.rest "" "" "" false Mock.offline)
                       [("ccy1", JStr "BTC"); ("ccy2", JStr "USD")]
                       (CbFunction Mock.quiet_callback) 0%N
                       (TimeoutSignal BASE_TIMEOUT) eq_refl)
                (Error "fetch failed") eq_refl) as H.
  rewrite H. split; reflexivity.
Defined.


(** A 500 answer carrying the exchange's nonce error: the rejection is the
    classified error, its message untouched. *)
Lemma X18_http_failure_reported_as_classified_witness :
  resp_ok (mkResponse 500 "Internal Server Error" false
             (Normal Mock.nonce_small_body)) = false
  /\ _request Mock.JSON_parse
       (Mock.rest "key" "secret" "" true
          (Mock.respond 500 "Internal Server Error" Mock.nonce_small_body))
       "https://api.bitfinex.com/v2/auth/r/wallets" Mock.get
       (TClass Mock.Model) (CbOther JNull) 0%N
     = (Rejected
          (mkError "HTTP code 500 Internal Server Error" (Some 500%N)
             (Some "Internal Server Error") (Some (num_of_Z 10114))
             (Some (JStr "nonce: small")) JUndefined),
        0%N,
        [Fetched "https://api.bitfinex.com/v2/auth/r/wallets" Mock.get]).
Proof.
  split; [reflexivity|].
  exact (proj1
           (X18_http_failure_reported_as_classified Mock.JSON_parse N
              (Mock.rest "key" "secret" "" true
                 (Mock.respond 500 "Internal Server Error"
                    Mock.nonce_small_body))
              "https://api.bitfinex.com/v2/auth/r/wallets" Mock.get
              (TClass Mock.Model) (CbOther JNull) 0%N
              (mkResponse 500 "Internal Server Error" false
                 (Normal Mock.nonce_small_body))
              Mock.nonce_small_body eq_refl eq_refl eq_refl)).
Defined.

(** ** The affiliate code *)

Section AffiliateCode.

Variable JSON_parse : string -> Completion JsVal.
Variable JSON_stringify : JsVal -> string.
Variable Number_toString : number -> string.
Variable AbortSignal_timeout : number -> Completion AbortSignal.
Variable NonceState : Type.
Variable nonce : NonceState -> string * NonceState.
Variable genAuthSig : string -> string -> NonceState -> string * NonceState.
Variable Notification : JsVal -> Completion JsVal.

Local Abbreviation submit_offer :=
  (submitFundingOffer JSON_parse JSON_stringify Number_toString
     AbortSignal_timeout NonceState nonce genAuthSig Notification).

(** X20. [submitFundingOffer] sends the offer's packet to
    /auth/w/funding/offer/submit (nil-stripped, as JSON): on a client with
    credentials, when the abort signal can be made, it sends exactly one
    request, the POST of that packet. On a client without affiliate code
    the packet is sent as the offer made it. On a client with one, and a
    packet whose [meta] is an object or is missing or falsy, only
    [meta.aff_code] is touched: an affiliate code the offer carries itself
    is kept, otherwise the client's is set; every other property of
    [meta] and of the packet stays as it was. *)
Theorem X20_affiliate_code (self : RESTv2) (packet : Obj) (cb : CallbackArg)
    (s : NonceState) :
  truthy (obj_get "meta" packet) = false
  \/ (exists m, obj_get "meta" packet = JObj m) ->
  let meta :=
    match obj_get "meta" packet with
    | JObj m => m
    | _ => []
    end in
  let own := obj_get "aff_code" meta in
  exists sent,
    inject_aff_code Number_toString self packet = Normal sent
    /\ (forall url ro,
          In (Fetched url ro)
             (events_of (submit_offer self (Normal packet) cb s)) ->
          url = _url self ++ "/v2/auth/w/funding/offer/submit"
          /\ body ro = Some (JSON_stringify (JObj (omitNil sent))))
    /\ (_authToken self <> "" \/ (_apiKey self <> "" /\ _apiSecret self <> "") ->
        forall sig, AbortSignal_timeout (_timeout self) = Normal sig ->
        exists ro,
          List.filter is_fetch
            (events_of (submit_offer self (Normal packet) cb s))
          = [Fetched (_url self ++ "/v2/auth/w/funding/offer/submit") ro]
          /\ method ro = "POST"
          /\ signal ro = sig
          /\ body ro = Some (JSON_stringify (JObj (omitNil sent))))
    /\ (truthy (_affCode self) = false -> sent = packet)
    /\ (truthy (_affCode self) = true ->
        (forall k, k <> "meta" -> obj_lookup k sent = obj_lookup k packet)
        /\ exists meta',
             obj_lookup "meta" sent = Some (JObj meta')
             /\ obj_get "aff_code" meta'
                = (if truthy own then own else _affCode self)
             /\ (forall k, k <> "aff_code" ->
                 obj_lookup k meta' = obj_lookup k meta)).
Proof.
  intros Hmeta. cbv zeta.
  assert (Hsent : forall sent,
            inject_aff_code Number_toString self packet = Normal sent ->
            forall url ro,
              In (Fetched url ro)
                 (events_of (submit_offer self (Normal packet) cb s)) ->
              url = _url self ++ "/v2/auth/w/funding/offer/submit"
              /\ body ro = Some (JSON_stringify (JObj (omitNil sent)))).
  { intros sent Hinj url ro. unfold submitFundingOffer, bind, lift.
    rewrite Hinj. intros Hin.
    assert (Hin' : In (Fetched url ro)
              (trace_of
                 (_makeAuthRequest JSON_parse JSON_stringify AbortSignal_timeout
                    NonceState nonce genAuthSig self
                    "/auth/w/funding/offer/submit" (Some sent) cb TNull s))).
    { revert Hin. unfold and_then, events_of, trace_of.
      destruct (_makeAuthRequest _ _ _ _ _ _ _ _ _ _ _ _) as [[? ?] ?].
      simpl. tauto. }
    apply authRequest_sends in Hin' as (-> & _ & ->). split; reflexivity. }
  assert (Hone : forall sent,
            inject_aff_code Number_toString self packet = Normal sent ->
            _authToken self <> "" \/ (_apiKey self <> "" /\ _apiSecret self <> "") ->
            forall sig, AbortSignal_timeout (_timeout self) = Normal sig ->
            exists ro,
              List.filter is_fetch
                (events_of (submit_offer self (Normal packet) cb s))
              = [Fetched (_url self ++ "/v2/auth/w/funding/offer/submit") ro]
              /\ method ro = "POST"
              /\ signal ro = sig
              /\ body ro = Some (JSON_stringify (JObj (omitNil sent)))).
  { intros sent Hinj Hcred sig Hsig.
    destruct (authRequest_fetches JSON_parse JSON_stringify AbortSignal_timeout
                NonceState nonce genAuthSig self
                "/auth/w/funding/offer/submit" (Some sent) cb TNull s sig
                Hcred Hsig) as (ro & Hro & Hrest).
    exists ro. split; [|exact Hrest].
    etransitivity; [|exact Hro].
    unfold submitFundingOffer, bind, lift. rewrite Hinj.
    unfold and_then, events_of, trace_of.
    now destruct (_makeAuthRequest _ _ _ _ _ _ _ _ _ _ _ _) as [[? ?] ?]. }
  unfold inject_aff_code in *.
  destruct (truthy (_affCode self)) eqn:Haff.
  - destruct Hmeta as [Hfalsy|[m Hm]].
    + rewrite Hfalsy in *. cbn [negb] in *.
      rewrite obj_get_set_eq in *.
      assert (Hno : match obj_get "meta" packet with
                    | JObj m => m
                    | _ => []
                    end = []).
      { destruct (obj_get "meta" packet) as [| | | | | |m]; try reflexivity.
        discriminate. }
      rewrite Hno. eexists. split; [reflexivity|].
      split; [now apply Hsent|]. split; [now apply Hone|].
      split; [discriminate|]. intros _. split.
      * intros k Hk. rewrite !obj_lookup_set_ne by congruence. reflexivity.
      * eexists. split; [apply obj_lookup_set_eq|]. split.
        -- rewrite obj_get_set_eq. reflexivity.
        -- intros k Hk. now rewrite obj_lookup_set_ne by congruence.
    + rewrite Hm in *. cbn [truthy negb] in *. rewrite Hm in *.
      eexists. split; [reflexivity|].
      split; [now apply Hsent|]. split; [now apply Hone|].
      split; [discriminate|]. intros _. split.
      * intros k Hk. now rewrite obj_lookup_set_ne by congruence.
      * eexists. split; [apply obj_lookup_set_eq|]. split.
        -- rewrite obj_get_set_eq. unfold or_else.
           now destruct (truthy (obj_get "aff_code" m)).
        -- intros k Hk. now rewrite obj_lookup_set_ne by congruence.
  - exists packet. split; [reflexivity|]. split; [now apply Hsent|].
    split; [now apply Hone|]. split; [reflexivity|discriminate].
Qed.

End AffiliateCode.

(** ** The RESTv1 client *)

Lemma lower_app (a b : string) : V1.lower (a ++ b) = V1.lower a ++ V1.lower b.
Proof. induction a as [|c a IH]; simpl; [reflexivity|]. now rewrite IH. Qed.

Section V1Properties.

Variable JSON_parse : string -> Completion JsVal.
Variable JSON_stringify : JsVal -> string.
Variable base64 : string -> string.
Variable AbortSignal_timeout : number -> Completion AbortSignal.
Variable NonceState : Type.
Variable genAuthSig : string -> string -> NonceState -> string * NonceState.

Local Abbreviation parse_req_body := (V1._parse_req_body NonceState).
Local Abbreviation v1_dispatch := (V1.dispatch JSON_parse NonceState).
Local Abbreviation v1_request :=
  (V1.make_request JSON_parse JSON_stringify base64 AbortSignal_timeout
     NonceState genAuthSig).
Local Abbreviation v1_public_request :=
  (V1.make_public_request JSON_parse AbortSignal_timeout NonceState).

Implicit Types (self : V1.RESTv1 NonceState) (cb : CallbackFn).
Implicit Types (s : NonceState).

Ltac v1_run :=
  unfold V1.dispatch, V1._parse_req_body, invoke, try_catch, bind, lift, emit,
    ret, throw, events_of, value_of, state_of, trace_of, promise_of in *;
  simpl in *.

Ltac v1_callback_cases :=
  repeat match goal with
         | f : CallbackFn |- context [match ?g ?a ?b with _ => _ end] =>
             constr_eq f g; destruct (f a b) as [?|?] eqn:?; simpl in *
         end.

(** The events of the shared try-block: the fetch, then calls of the
    callback only; the nonce source is not touched. *)
Lemma v1_dispatch_events self (url : string) (ro : RequestInit) cb s :
  exists rest,
    events_of (v1_dispatch self url ro cb s) = Fetched url ro :: rest
    /\ Forall (fun ev => exists e r, ev = CallbackInvoked e r) rest
    /\ state_of (v1_dispatch self url ro cb s) = s.
Proof.
  v1_run.
  destruct (V1._fetch self url ro) as [resp|e]; simpl.
  - destruct (negb (resp_ok resp) && negb (resp_status resp =? 400)%N); simpl.
    + v1_callback_cases; eexists; (split; [reflexivity|]);
        split; try reflexivity; repeat constructor; eauto.
    + destruct (resp_text resp) as [raw|e]; simpl;
        [destruct (JSON_parse raw) as [json|e]; simpl|].
      * destruct json as [| | | | | |o]; simpl;
          try destruct (obj_get "message" o) as [| | | |m| |]; simpl;
          v1_callback_cases; eexists; (split; [reflexivity|]);
          split; try reflexivity; repeat constructor; eauto.
      * v1_callback_cases; eexists; (split; [reflexivity|]);
          split; try reflexivity; repeat constructor; eauto.
      * v1_callback_cases; eexists; (split; [reflexivity|]);
          split; try reflexivity; repeat constructor; eauto.
  - v1_callback_cases; eexists; (split; [reflexivity|]);
      split; try reflexivity; repeat constructor; eauto.
Qed.

Lemma v1_dispatch_fetches self (url : string) (ro : RequestInit) cb s :
  List.filter is_fetch (events_of (v1_dispatch self url ro cb s))
  = [Fetched url ro]
  /\ omap sign_call (events_of (v1_dispatch self url ro cb s)) = []
  /\ omap nonce_drawn (events_of (v1_dispatch self url ro cb s)) = [].
Proof.
  destruct (v1_dispatch_events self url ro cb s) as (rest & -> & Hrest & _).
  simpl. repeat split; [f_equal| |];
    induction Hrest as [|ev rest (e & r & ->) _ IH]; simpl; auto.
Qed.

(** X21. RESTv1 refuses a request before doing anything else when it
    cannot be made: [make_request] on a client without key or without
    secret calls the callback once with "missing api key or secret", and
    with credentials but an empty path with "path is missing";
    [make_public_request] with an empty path does the same. Nothing is
    sent, no nonce is drawn, and what the callback returns settles the
    promise. *)
Theorem X21_v1_refusals self (path : string) (params : Obj) cb s :
  let refused := fun msg =>
    (settle (cb (Some (Error msg)) JUndefined), s,
     [CallbackInvoked (Some (Error msg)) JUndefined]) in
  (V1._apiKey self = "" \/ V1._apiSecret self = "" ->
   v1_request self path params cb s = refused "missing api key or secret")
  /\ (V1._apiKey self <> "" -> V1._apiSecret self <> "" -> path = "" ->
      v1_request self path params cb s = refused "path is missing")
  /\ (path = "" ->
      v1_public_request self path cb s = refused "path is missing").
Proof.
  cbv zeta. split; [|split].
  - intros Hcred. unfold V1.make_request, async.
    assert (H : (V1._apiKey self =? "") || (V1._apiSecret self =? "") = true).
    { destruct Hcred as [-> | ->]; [reflexivity|apply orb_true_r]. }
    rewrite H. unfold invoke, bind, emit, lift. simpl.
    now destruct (cb _ _).
  - intros Hk%String.eqb_neq Hs%String.eqb_neq ->.
    unfold V1.make_request, async. rewrite Hk, Hs. simpl.
    unfold invoke, bind, emit, lift. simpl. now destruct (cb _ _).
  - intros ->. unfold V1.make_public_request, async. simpl.
    unfold invoke, bind, emit, lift. simpl. now destruct (cb _ _).
Qed.

(** X22. How RESTv1 reads an answer ([make_public_request], request
    sent): a status that is neither a success nor 400 is reported to the
    callback as "HTTP code <status> <status text>", the body unread. On a
    success status or on 400 the body is parsed, and a JSON object with
    a string [message] is reported as an error carrying that message
    (with the nonce help text appended when the message matches), even
    under a success status; any other non-null JSON value is handed to
    the callback as the result, with a [null] error. The transport is
    called once. *)
Theorem X22_v1_answers self (path : string) cb s (sig : AbortSignal)
    (resp : Response) :
  path <> "" ->
  AbortSignal_timeout (V1._timeout self) = Normal sig ->
  let url := V1._url self ++ "/v1/" ++ path in
  let ro :=
    {| method := "GET"; signal := sig; headers := []; body := None |} in
  V1._fetch self url ro = Normal resp ->
  let out := v1_public_request self path cb s in
  let first := hd_error (omap callback_call (trace_of out)) in
  List.filter is_fetch (trace_of out) = [Fetched url ro]
  /\ (resp_ok resp = false -> resp_status resp <> 400%N ->
      first
      = Some (Some (Error ("HTTP code " ++ string_of_N (resp_status resp)
                           ++ " " ++ resp_statusText resp)), JUndefined))
  /\ (resp_ok resp = true \/ resp_status resp = 400%N ->
      forall raw json,
        resp_text resp = Normal raw ->
        JSON_parse raw = Normal json ->
        (forall o m,
           json = JObj o -> obj_get "message" o = JStr m ->
           first
           = Some (Some (Error (if V1.nonce_is_too_small m
                                then m ++ V1.HELP_TEXT else m)), JUndefined))
        /\ (is_nil json = false ->
            (forall o m, json = JObj o -> obj_get "message" o <> JStr m) ->
            first = Some (None, json))).
Proof.
  intros Hpath%String.eqb_neq Hsig. cbv zeta. intros Hfetch.
  unfold V1.make_public_request, async. rewrite Hpath.
  unfold bind at 1. unfold lift at 1. rewrite Hsig.
  split; [|split].
  - pose proof (v1_dispatch_fetches self (V1._url self ++ "/v1/" ++ path)
                  {| method := "GET"; signal := sig; headers := []; body := None |}
                  cb s) as [Hf _].
    unfold events_of, trace_of in *.
    destruct (v1_dispatch _ _ _ _ _) as [[? ?] ?]. simpl in *. exact Hf.
  - intros Hok Hst%N.eqb_neq. v1_run. rewrite Hfetch. simpl.
    rewrite Hok, Hst, str_or_empty. simpl.
    v1_callback_cases; reflexivity.
  - intros Hgood raw json Htext Hparse.
    assert (Hguard : negb (resp_ok resp) && negb (resp_status resp =? 400)%N = false).
    { destruct Hgood as [-> | ->]; [reflexivity|]. apply andb_false_r. }
    v1_run. rewrite Hfetch. simpl. rewrite Hguard, Htext. simpl.
    rewrite Hparse. simpl. split.
    + intros o m -> Hm. rewrite Hm. simpl. v1_callback_cases; reflexivity.
    + intros Hnil Hnot.
      destruct json as [| | | | | |o]; try discriminate; simpl;
        try (v1_callback_cases; reflexivity).
      destruct (obj_get "message" o) as [| | | |m| |] eqn:Hm; simpl;
        try (v1_callback_cases; reflexivity).
      destruct (Hnot o m eq_refl Hm).
Qed.

(** X23. RESTv1 recognises the nonce error by the text of the message,
    in any letter case: a [message] that contains "nonce is too small"
    (however capitalised) is handed to the callback with the help text
    appended, so the error message holds both the original text and the
    help link. *)
Theorem X23_v1_nonce_help_by_message (o : Obj) (pre phrase post : string)
    cb s :
  obj_get "message" o = JStr (pre ++ phrase ++ post) ->
  V1.lower phrase = "nonce is too small" ->
  let msg := pre ++ phrase ++ post in
  hd_error (events_of (parse_req_body (JObj o) cb s))
  = Some (CallbackInvoked (Some (Error (msg ++ V1.HELP_TEXT))) JUndefined)
  /\ includes (msg ++ V1.HELP_TEXT) msg = true
  /\ includes (msg ++ V1.HELP_TEXT) HELP_LINK = true.
Proof.
  intros Hm Hphrase. cbv zeta.
  assert (Hmatch : V1.nonce_is_too_small (pre ++ phrase ++ post) = true).
  { unfold V1.nonce_is_too_small. rewrite !lower_app, Hphrase.
    apply includes_infix. }
  split; [|split].
  - v1_run. rewrite Hm. simpl. rewrite Hmatch. simpl.
    now destruct (cb _ _).
  - apply includes_prefix.
  - apply includes_skip. exact (includes_infix " See " HELP_LINK " for help").
Qed.

Lemma v1_request_run self (path : string) (params : Obj) cb s :
  V1._apiKey self <> "" -> V1._apiSecret self <> "" -> path <> "" ->
  let n := JSON_stringify (V1.nonce_value (fst (V1._generateNonce self s))) in
  let text :=
    base64
      (JSON_stringify
         (JObj (spread_into
                  [("request", JStr ("/v1/" ++ path)); ("nonce", JStr n)]
                  params))) in
  let signed :=
    genAuthSig (V1._apiSecret self) text (snd (V1._generateNonce self s)) in
  v1_request self path params cb s
  = match AbortSignal_timeout (V1._timeout self) with
    | Throw e =>
        (Rejected e, snd signed,
         [NonceDrawn n; Signed (V1._apiSecret self) text])
    | Normal sig =>
        let r :=
          v1_dispatch self (V1._url self ++ "/v1/" ++ path)
            {| method := "POST";
               signal := sig;
               headers :=
                 [("X-BFX-APIKEY", V1._apiKey self);
                  ("X-BFX-PAYLOAD", text);
                  ("X-BFX-SIGNATURE", fst signed)];
               body := None |} cb (snd signed) in
        (settle (value_of r), state_of r,
         NonceDrawn n :: Signed (V1._apiSecret self) text :: events_of r)
    end.
Proof.
  intros Hk%String.eqb_neq Hs%String.eqb_neq Hp%String.eqb_neq. cbv zeta.
  unfold V1.make_request, async. rewrite Hk, Hs, Hp. cbn [orb].
  unfold bind at 1, V1.generate_nonce.
  destruct (V1._generateNonce self s) as [n s1]. cbn [fst snd].
  unfold sign, bind, ret, emit, lift. cbn [app].
  destruct (genAuthSig _ _ s1) as [sg s2]. cbn [fst snd].
  destruct (AbortSignal_timeout (V1._timeout self)) as [sig|e];
    [|reflexivity].
  unfold value_of, state_of, events_of.
  now destruct (V1.dispatch _ _ _ _ _ _ _) as [[? ?] ?].
Qed.

(** X24. An authenticated RESTv1 request calls its nonce generator once
    and signs, with the client's secret, the base64 text of the JSON
    payload; the same text travels in the X-BFX-PAYLOAD header next to the
    key and the signature, in a POST without body to
    [url + "/v1/" + path]. The payload holds [request] ("/v1/" and the
    path), [nonce] and the caller's parameters, a parameter named
    [request] or [nonce] taking the place of the generated one. The
    [nonce] property is a string: the JSON text of the value the
    generator returned, so the digits of a numeric nonce, and a string
    nonce with its quotes. The call leaves the nonce source as the signer
    left it after the draw. *)
Theorem X24_v1_signed_payload self (path : string) (params : Obj) cb s :
  V1._apiKey self <> "" -> V1._apiSecret self <> "" -> path <> "" ->
  let out := v1_request self path params cb s in
  let n := JSON_stringify (V1.nonce_value (fst (V1._generateNonce self s))) in
  let payload :=
    spread_into [("request", JStr ("/v1/" ++ path)); ("nonce", JStr n)]
      params in
  let text := base64 (JSON_stringify (JObj payload)) in
  let signed :=
    genAuthSig (V1._apiSecret self) text (snd (V1._generateNonce self s)) in
  omap nonce_drawn (trace_of out) = [n]
  /\ omap sign_call (trace_of out) = [(V1._apiSecret self, text)]
  /\ List.filter is_fetch (trace_of out)
     = match AbortSignal_timeout (V1._timeout self) with
       | Normal sig =>
           [Fetched (V1._url self ++ "/v1/" ++ path)
              {| method := "POST";
                 signal := sig;
                 headers :=
                   [("X-BFX-APIKEY", V1._apiKey self);
                    ("X-BFX-PAYLOAD", text);
                    ("X-BFX-SIGNATURE", fst signed)];
                 body := None |}]
       | Throw _ => []
       end
  /\ (forall k,
        obj_lookup k payload
        = match obj_lookup k params with
          | Some v => Some v
          | None =>
              if k =? "request" then Some (JStr ("/v1/" ++ path))
              else if k =? "nonce" then Some (JStr n)
              else None
          end)
  /\ state_of out = snd signed.
Proof.
  intros Hk Hs Hp. cbv zeta.
  rewrite (v1_request_run _ _ _ _ _ Hk Hs Hp). cbv zeta.
  set (n := JSON_stringify (V1.nonce_value (fst (V1._generateNonce self s)))).
  assert (Hlookup : forall k,
            obj_lookup k
              (spread_into
                 [("request", JStr ("/v1/" ++ path)); ("nonce", JStr n)]
                 params)
            = match obj_lookup k params with
              | Some v => Some v
              | None =>
                  if k =? "request" then Some (JStr ("/v1/" ++ path))
                  else if k =? "nonce" then Some (JStr n)
                  else None
              end).
  { intros k. rewrite spread_lookup. cbn [obj_lookup].
    destruct (obj_lookup k params); [reflexivity|].
    rewrite (String.eqb_sym "request"), (String.eqb_sym "nonce").
    reflexivity. }
  destruct (AbortSignal_timeout (V1._timeout self)) as [sig|e].
  - match goal with
    | |- context [V1.dispatch ?p ?N ?c ?u ?o ?k ?st] =>
        pose proof (v1_dispatch_fetches c u o k st) as (Hf & Hsg & Hn);
        pose proof (v1_dispatch_events c u o k st) as (rest & _ & _ & Hst);
        set (r := V1.dispatch p N c u o k st) in *
    end.
    repeat change (trace_of (?a, ?b, ?c)) with c.
    change (state_of (?a, ?b, ?c)) with b.
    cbn [omap list_omap nonce_drawn sign_call List.filter is_fetch].
    rewrite Hf, Hsg, Hn, Hst. repeat split; try reflexivity. exact Hlookup.
  - repeat split; try reflexivity. exact Hlookup.
Qed.

End V1Properties.

(** An offer packet with its own [meta], on a client with key, secret
    and the affiliate code "abc": one request is sent, and its body is the
    packet with the code added to [meta], the rest kept. *)
Lemma X20_affiliate_code_witness :
  (truthy (obj_get "meta"
             [("type", JStr "LIMIT"); ("meta", JObj [("tag", JStr "x")])])
   = false
   \/ exists m,
        obj_get "meta"
          [("type", JStr "LIMIT"); ("meta", JObj [("tag", JStr "x")])]
        = JObj m)
  /\ exists ro,
       List.filter is_fetch
         (events_of
            (submitFundingOffer Mock.JSON_parse Mock.JSON_stringify
               Mock.Number_toString Mock.AbortSignal_timeout N Mock.nonce
               Mock.genAuthSig Mock.Notification
               (Mock.with_affiliate "abc"
                  (Mock.rest "key" "secret" "" false Mock.offline))
               (Normal [("type", JStr "LIMIT");
                        ("meta", JObj [("tag", JStr "x")])])
               (CbOther JNull) 0%N))
       = [Fetched "https://api.bitfinex.com/v2/auth/w/funding/offer/submit" ro]
       /\ body ro
          = Some (Mock.JSON_stringify
                    (JObj [("type", JStr "LIMIT");
                           ("meta", JObj [("tag", JStr "x");
                                          ("aff_code", JStr "abc")])])).
Proof.
  assert (H : truthy (obj_get "meta"
                        [("type", JStr "LIMIT");
                         ("meta", JObj [("tag", JStr "x")])]) = false
              \/ exists m,
                   obj_get "meta"
                     [("type", JStr "LIMIT");
                      ("meta", JObj [("tag", JStr "x")])]
                   = JObj m)
    by (right; eexists; reflexivity).
  split; [exact H|].
  destruct (X20_affiliate_code Mock.JSON_parse Mock.JSON_stringify
              Mock.Number_toString Mock.AbortSignal_timeout N Mock.nonce
              Mock.genAuthSig Mock.Notification
              (Mock.with_affiliate "abc"
                 (Mock.rest "key" "secret" "" false Mock.offline))
              [("type", JStr "LIMIT"); ("meta", JObj [("tag", JStr "x")])]
              (CbOther JNull) 0%N H)
    as (sent & Hsent & _ & Hone & _).
  vm_compute in Hsent. injection Hsent as <-.
  assert (Hcred : _authToken
                    (Mock.with_affiliate "abc"
                       (Mock.rest "key" "secret" "" false Mock.offline)) <> ""
                  \/ (_apiKey
                        (Mock.with_affiliate "abc"
                           (Mock.rest "key" "secret" "" false Mock.offline)) <> ""
                      /\ _apiSecret
                           (Mock.with_affiliate "abc"
                              (Mock.rest "key" "secret" "" false Mock.offline))
                         <> ""))
    by (right; split; discriminate).
  assert (Hsig : Mock.AbortSignal_timeout
                   (_timeout
                      (Mock.with_affiliate "abc"
                         (Mock.rest "key" "secret" "" false Mock.offline)))
                 = Normal (TimeoutSignal BASE_TIMEOUT))
    by reflexivity.
  destruct (Hone Hcred _ Hsig) as (ro & Hro & _ & _ & Hbody).
  exists ro. split.
  - etransitivity; [exact Hro|]. reflexivity.
  - rewrite Hbody. vm_compute. reflexivity.
Defined.

(** A transfer of 1 USD between wallets, with a stray [note]: one request
    is sent, and its body holds the five transfer parameters only. *)
Lemma X17_transfer_payload_witness :
  exists ro,
    List.filter is_fetch
      (events_of
         (transfer Mock.JSON_parse Mock.JSON_stringify
            Mock.AbortSignal_timeout N Mock.nonce Mock.genAuthSig
            Mock.Notification
            (Mock.rest "key" "secret" "" false Mock.offline)
            [("note", JStr "x"); ("currencyTo", JStr "USD");
             ("amount", JStr "1"); ("from", JStr "exchange");
             ("to", JStr "margin"); ("currency", JStr "USD")]
            (CbOther JNull) 0%N))
    = [Fetched "https://api.bitfinex.com/v2/auth/w/transfer" ro]
    /\ body ro
       = Some (Mock.JSON_stringify
                 (JObj [("amount", JStr "1"); ("from", JStr "exchange");
                        ("to", JStr "margin"); ("currency", JStr "USD");
                        ("currency_to", JStr "USD")])).
Proof.
  assert (Hcred : _authToken (Mock.rest "key" "secret" "" false Mock.offline)
                  <> ""
                  \/ (_apiKey (Mock.rest "key" "secret" "" false Mock.offline)
                      <> ""
                      /\ _apiSecret
                           (Mock.rest "key" "secret" "" false Mock.offline)
                         <> ""))
    by (right; split; discriminate).
  assert (Hsig : Mock.AbortSignal_timeout
                   (_timeout (Mock.rest "key" "secret" "" false Mock.offline))
                 = Normal (TimeoutSignal BASE_TIMEOUT))
    by reflexivity.
  pose proof (proj2 (proj2 (proj2 (proj2
                (X17_transfer_payload Mock.JSON_parse Mock.JSON_stringify
                   Mock.AbortSignal_timeout N Mock.nonce Mock.genAuthSig
                   Mock.Notification
                   (Mock.rest "key" "secret" "" false Mock.offline)
                   [("note", JStr "x"); ("currencyTo", JStr "USD");
                    ("amount", JStr "1"); ("from", JStr "exchange");
                    ("to", JStr "margin"); ("currency", JStr "USD")]
                   (CbOther JNull) 0%N))))) as Hone.
  destruct (Hone Hcred _ Hsig) as (ro & Hro & _ & _ & Hbody).
  exists ro. split.
  - etransitivity; [exact Hro|]. reflexivity.
  - rewrite Hbody. vm_compute. reflexivity.
Defined.

(** A 400 answer whose body is [{"message":"Nonce is too small."}]: the
    callback gets that message with the help text, not "HTTP code 400". *)
Lemma X22_v1_answers_witness :
  Mock.AbortSignal_timeout BASE_TIMEOUT = Normal (TimeoutSignal BASE_TIMEOUT)
  /\ Mock.JSON_parse_v1 Mock.nonce_message_body
     = Normal (JObj [("message", JStr "Nonce is too small.")])
  /\ hd_error
       (omap callback_call
          (trace_of
             (V1.make_public_request Mock.JSON_parse_v1
                Mock.AbortSignal_timeout N
                (Mock.v1 "" ""
                   (Mock.respond 400 "Bad Request" Mock.nonce_message_body))
                "symbols" Mock.quiet_callback 0%N)))
     = Some (Some (Error ("Nonce is too small." ++ V1.HELP_TEXT)), JUndefined).
Proof.
  split; [reflexivity|]. split; [reflexivity|].
  exact (proj1
           (proj2 (proj2
              (X22_v1_answers Mock.JSON_parse_v1 Mock.AbortSignal_timeout N
                 (Mock.v1 "" ""
                    (Mock.respond 400 "Bad Request" Mock.nonce_message_body))
                 "symbols" Mock.quiet_callback 0%N
                 (TimeoutSignal BASE_TIMEOUT)
                 (mkResponse 400 "Bad Request" false
                    (Normal Mock.nonce_message_body))
                 ltac:(discriminate) eq_refl eq_refl))
              (or_intror eq_refl) Mock.nonce_message_body
              (JObj [("message", JStr "Nonce is too small.")])
              eq_refl eq_refl)
           [("message", JStr "Nonce is too small.")] "Nonce is too small."
           eq_refl eq_refl).
Defined.

Lemma X23_v1_nonce_help_by_message_witness :
  V1.lower "Nonce is too small" = "nonce is too small"
  /\ hd_error
       (events_of
          (V1._parse_req_body N
             (JObj [("message", JStr "Nonce is too small.")])
             Mock.quiet_callback 0%N))
     = Some (CallbackInvoked
               (Some (Error ("Nonce is too small." ++ V1.HELP_TEXT)))
               JUndefined)
  /\ includes ("Nonce is too small." ++ V1.HELP_TEXT) HELP_LINK = true.
Proof.
  split; [reflexivity|].
  destruct (X23_v1_nonce_help_by_message N
              [("message", JStr "Nonce is too small.")]
              "" "Nonce is too small" "." Mock.quiet_callback 0%N
              eq_refl eq_refl) as (Hfirst & _ & Hlink).
  split; [exact Hfirst | exact Hlink].
Defined.

(** [wallet_balances]: the request "balances" with no parameter, on the
    default generator at 1; the payload signed is
    [{"request":"/v1/balances","nonce":"1"}]. *)
Lemma X24_v1_signed_payload_witness :
  V1._apiKey (Mock.v1 "key" "secret" Mock.offline) <> ""
  /\ V1._apiSecret (Mock.v1 "key" "secret" Mock.offline) <> ""
  /\ omap sign_call
       (trace_of
          (V1.make_request Mock.JSON_parse Mock.JSON_stringify Mock.base64
             Mock.AbortSignal_timeout N Mock.genAuthSig
             (Mock.v1 "key" "secret" Mock.offline)
             "balances" [] Mock.quiet_callback 1%N))
     = [("secret",
         Mock.base64
           ("{" ++ Mock.quoted "request" ++ ":" ++ Mock.quoted "/v1/balances"
            ++ "," ++ Mock.quoted "nonce" ++ ":" ++ Mock.quoted "1" ++ "}"))].
Proof.
  assert (Hk : V1._apiKey (Mock.v1 "key" "secret" Mock.offline) <> "")
    by discriminate.
  assert (Hs : V1._apiSecret (Mock.v1 "key" "secret" Mock.offline) <> "")
    by discriminate.
  split; [exact Hk|]. split; [exact Hs|].
  exact (proj1 (proj2
           (X24_v1_signed_payload Mock.JSON_parse Mock.JSON_stringify
              Mock.base64 Mock.AbortSignal_timeout N Mock.genAuthSig
              (Mock.v1 "key" "secret" Mock.offline)
              "balances" [] Mock.quiet_callback 1%N
              Hk Hs ltac:(discriminate)))).
Defined.
